(** * Phi-4 multimodal language model (mlx_vlm/models/phi4mm/phi4mm.py)

    A shallow embedding of the configuration record, the attention block,
    the transformer stack with its LoRA adapters and the language-model
    head, followed by the properties of the specification that concern
    them.  Python exceptions are values of [exn]; a call that may raise
    returns a [result]. *)

From Stdlib Require Import ZArith Floats Lia Ascii.
From stdpp Require Import base option list gmap strings pretty.

Open Scope Z_scope.

(** ** Python exceptions and fallible calls *)

Inductive exn : Type :=
| ValueError (msg : string)
| AssertionError
| KeyError (key : string)
| TypeError (msg : string)
| ZeroDivisionError
| OverflowError
| AttributeError (name : string).

Inductive result (A : Type) : Type :=
| Ok (a : A)
| Raise (e : exn).
Arguments Ok {A} a.
Arguments Raise {A} e.

Definition bind {A B : Type} (r : result A) (k : A -> result B) : result B :=
  match r with
  | Ok a => k a
  | Raise e => Raise e
  end.

Notation "x <- r ;; k" := (bind r (fun x => k))
  (at level 100, r at next level, right associativity).

(** [if not b: raise e]. *)
Definition ensure (b : bool) (e : exn) : result unit :=
  if b then Ok tt else Raise e.

(** ** Values stored in the configuration dictionaries *)

Inductive pyval : Type :=
| PNone
| PStr (s : string)
| PInt (z : Z)
| PFloat (f : float)
| PList (l : list float).

(** [d[k]] on a Python dict: [KeyError] when the key is absent. *)
Definition getitem (d : gmap string pyval) (k : string) : result pyval :=
  match d !! k with
  | Some v => Ok v
  | None => Raise (KeyError k)
  end.

(** [k in d]. *)
Definition contains (d : gmap string pyval) (k : string) : bool :=
  bool_decide (is_Some (d !! k)).

(** [v in [s1, ..., sn]] for a list of string literals: only a [str]
    can be equal to one of them. *)
Definition str_in (v : pyval) (l : list string) : bool :=
  match v with
  | PStr s => bool_decide (s ∈ l)
  | _ => false
  end.

(** Truth value of an optional dict: [None] and the empty dict are false. *)
Definition truthy (o : option (gmap string pyval)) : bool :=
  match o with
  | Some d => negb (bool_decide (d = ∅))
  | None => false
  end.

(** ** ModelConfig *)

Record ModelConfig : Type := mkConfig {
  model_type : string;
  hidden_size : Z;
  num_hidden_layers : Z;
  intermediate_size : Z;
  num_attention_heads : Z;
  rms_norm_eps : float;
  vocab_size : Z;
  num_key_value_heads : option Z;
  rope_theta : float;
  rope_traditional : bool;
  rope_scaling : option (gmap string pyval);
  partial_rotary_factor : float;
  max_position_embeddings : Z;
  original_max_position_embeddings : Z;
  tie_word_embeddings : bool;
  embd_layer : option (gmap string pyval);
  image_size : option Z;
  patch_size : option Z;
  audio_processor : option (gmap string pyval);
  vision_lora : option (gmap string pyval);
  speech_lora : option (gmap string pyval)
}.

Definition set_num_key_value_heads (v : option Z) (c : ModelConfig) : ModelConfig :=
  mkConfig (model_type c) (hidden_size c) (num_hidden_layers c)
    (intermediate_size c) (num_attention_heads c) (rms_norm_eps c)
    (vocab_size c) v (rope_theta c) (rope_traditional c) (rope_scaling c)
    (partial_rotary_factor c) (max_position_embeddings c)
    (original_max_position_embeddings c) (tie_word_embeddings c)
    (embd_layer c) (image_size c) (patch_size c) (audio_processor c)
    (vision_lora c) (speech_lora c).

Definition set_rope_scaling (v : option (gmap string pyval)) (c : ModelConfig) : ModelConfig :=
  mkConfig (model_type c) (hidden_size c) (num_hidden_layers c)
    (intermediate_size c) (num_attention_heads c) (rms_norm_eps c)
    (vocab_size c) (num_key_value_heads c) (rope_theta c)
    (rope_traditional c) v
    (partial_rotary_factor c) (max_position_embeddings c)
    (original_max_position_embeddings c) (tie_word_embeddings c)
    (embd_layer c) (image_size c) (patch_size c) (audio_processor c)
    (vision_lora c) (speech_lora c).

(** A mask gives, for each query position, which key positions it may
    attend to ([false] stands for minus infinity). *)
Abbreviation Mask := (list (list bool)).

(** ** What the run and the libraries supply

    The interpreter and the array library are not part of the program:
    what they compute is the variables of this section. *)

Section Kernels.

(** [str(s)] for a set [s] of strings, as an f-string prints it: the
    elements between braces, in an order that changes with the hash seed
    of the run. *)
Variable set_repr : list string -> string.

(** The set [{"long_factor", "type"}] of line 48. *)
Definition required_keys : list string := ["long_factor"; "type"]%string.

Definition rope_warning : string :=
  "[WARNING] rope_scaling 'type' currently only supports 'linear', 'su', and 'longrope'; setting rope scaling to false."%string.

(** Lines 44-45: the key/value head count defaults to the query head
    count. *)
Definition resolve_kv_heads (c : ModelConfig) : ModelConfig :=
  match num_key_value_heads c with
  | None => set_num_key_value_heads (Some (num_attention_heads c)) c
  | Some _ => c
  end.

(** [ModelConfig.__post_init__]: the configuration after the hook and the
    lines it printed, or the exception it raised. *)
Definition post_init (c : ModelConfig) : result (ModelConfig * list string) :=
  let c := resolve_kv_heads c in
  if truthy (rope_scaling c) then
    match rope_scaling c with
    | Some d =>
        _ <- ensure (forallb (contains d) required_keys)
               (ValueError ("rope_scaling must contain keys " +:+ set_repr required_keys)) ;;
        ty <- getitem d "type" ;;
        if negb (str_in ty ["longrope"; "su"; "linear"]%string)
        then Ok (set_rope_scaling None c, [rope_warning])
        else Ok (c, [])
    | None => Ok (c, [])
    end
  else Ok (c, []).

(** ** Python numbers *)

(** [float(z)] for a Python int: the nearest double (ties to even), or
    [OverflowError] when it is out of range. *)
Definition float_of_int (z : Z) : result float :=
  match binary_normalize prec emax z 0 false with
  | S754_infinity _ => Raise OverflowError
  | sf => Ok (SF2Prim sf)
  end.

(** [int(f)]: truncation toward zero; [nan] and the infinities raise. *)
Definition int_of_float (f : float) : result Z :=
  match Prim2SF f with
  | S754_zero _ => Ok 0
  | S754_infinity _ => Raise OverflowError
  | S754_nan => Raise (ValueError "cannot convert float NaN to integer")
  | S754_finite s m e =>
      let a := if 0 <=? e then Z.pos m * 2 ^ e else Z.pos m / 2 ^ (- e) in
      Ok (if s then - a else a)
  end.

(** [z * f] with [z] an int and [f] a float. *)
Definition int_mul_float (z : Z) (f : float) : result float :=
  x <- float_of_int z ;; Ok (x * f)%float.

(** [a // b] on ints. *)
Definition floordiv (a b : Z) : result Z :=
  if b =? 0 then Raise ZeroDivisionError else Ok (a / b).

(** [1 / f] on floats. *)
Definition float_inv (f : float) : result float :=
  if (f =? 0)%float then Raise ZeroDivisionError else Ok (1 / f)%float.

(** ** Rotary position encoders

    The two encoders are library modules; the attention block only chooses
    between them and passes their constructor arguments. *)

Inductive RopeModule : Type :=
| SuScaledRotaryEmbedding
    (dims : Z) (base : float) (max_pos original_max_pos : Z)
    (short_factor long_factor : pyval)
| RoPE (dims : Z) (traditional : bool) (base : float) (scale : float).

(** The rotary encoder built by [Attention.__init__] (lines 76-96). *)
Definition Attention_rope (config : ModelConfig) (head_dim : Z) : result RopeModule :=
  hf <- int_mul_float head_dim (partial_rotary_factor config) ;;
  rope_dim <- int_of_float hf ;;
  let scaling := rope_scaling config in
  su <- (if truthy scaling
         then match scaling with
              | Some d => ty <- getitem d "type" ;; Ok (str_in ty ["longrope"; "su"]%string)
              | None => Ok false
              end
         else Ok false) ;;
  if su : bool then
    match scaling with
    | Some d =>
        sf <- getitem d "short_factor" ;;
        lf <- getitem d "long_factor" ;;
        Ok (SuScaledRotaryEmbedding rope_dim (rope_theta config)
              (max_position_embeddings config)
              (original_max_position_embeddings config) sf lf)
    | None => Ok (RoPE rope_dim (rope_traditional config) (rope_theta config) 1)
    end
  else
    rope_scale <-
      (if truthy scaling
       then match scaling with
            | Some d =>
                ty <- getitem d "type" ;;
                if str_in ty ["linear"]%string then
                  fac <- getitem d "factor" ;;
                  match fac with
                  | PFloat f => float_inv f
                  | _ => Raise AssertionError
                  end
                else Ok 1%float
            | None => Ok 1%float
            end
       else Ok 1%float) ;;
    Ok (RoPE rope_dim (rope_traditional config) (rope_theta config) rope_scale).

(** ** Tensors and library kernels

    Scalars are kept abstract: the numeric kernels of the array library
    (normalisation, activation, rotation, attention, initialisers) are the
    variables of this section.  A vector is a list of scalars and a
    sequence of hidden states is a list of vectors, one per position; the
    batch axis is carried pointwise and not represented. *)

Variable R : Type.
Variables (radd rmul : R -> R -> R) (rzero rone : R).
Variable silu : R -> R.
(** [nn.RMSNorm]: epsilon, weight and one position's vector. *)
Variable rms_norm : float -> list R -> list R -> list R.
(** One position's queries (or keys), all heads, rotated by an encoder:
    the effective sequence length of the call (the cached positions and
    those of the window), from which the [su] and [longrope] encoder
    chooses between its two factor tables, and the absolute position. *)
Variable rope_rotate : RopeModule -> nat -> nat -> list R -> list R.
(** One query position of scaled dot-product attention over the visible
    keys and values: scale, query and kv head counts, query, visible
    (key, value) pairs. *)
Variable attend : float -> Z -> Z -> list R -> list (list R * list R) -> list R.
(** Initialisers of [nn.Linear] and [nn.Embedding]: rows, columns. *)
Variables (uniform_init normal_init : Z -> Z -> list (list R)).
(** [x ** y] on floats. *)
Variable float_pow : float -> float -> float.
(** [re.match(pattern, name) is not None]. *)
Variable re_match : string -> string -> bool.

Local Abbreviation vec := (list R).
Local Abbreviation mat := (list (list R)).

Definition dot (x w : vec) : R :=
  foldr radd rzero (zip_with rmul x w).

Definition vadd (x y : vec) : vec := zip_with radd x y.
Definition vmul (x y : vec) : vec := zip_with rmul x y.

(** [x @ w.T]: entry (i, o) is the dot product of row i of [x] with row o
    of [w]. *)
Definition matmul_T (x w : mat) : mat :=
  map (fun row => map (dot row) w) x.

(** *** nn.Linear (bias=False), nn.QuantizedLinear, nn.Embedding, nn.RMSNorm *)

Record Linear : Type := mkLinear {
  input_dims : Z;
  output_dims : Z;
  weight : mat
}.

Definition Linear_init (input_dims output_dims : Z) : Linear :=
  mkLinear input_dims output_dims (uniform_init output_dims input_dims).

Definition Linear_call (l : Linear) (x : mat) : mat := matmul_T x (weight l).

(** A quantized projection is only ever met as an already built module;
    its packed weights are read through the dequantised matrix. *)
Record QuantizedLinear : Type := mkQuantized {
  q_bits : Z;
  q_group_size : Z;
  q_dequantized : mat
}.

Definition QuantizedLinear_call (q : QuantizedLinear) (x : mat) : mat :=
  matmul_T x (q_dequantized q).

Record Embedding : Type := mkEmbedding {
  num_embeddings : Z;
  dims : Z;
  table : mat
}.

Definition Embedding_init (num_embeddings dims : Z) : Embedding :=
  mkEmbedding num_embeddings dims (normal_init num_embeddings dims).

(** [embed(ids)]: row [i] of the table for each token id. *)
Definition Embedding_call (e : Embedding) (ids : list Z) : mat :=
  map (fun i => default [] (table e !! Z.to_nat i)) ids.

(** [embed.as_linear(x) = x @ embed.weight.T]. *)
Definition as_linear (e : Embedding) (x : mat) : mat := matmul_T x (table e).

Record RMSNorm : Type := mkRMSNorm {
  norm_weight : vec;
  eps : float
}.

Definition RMSNorm_init (dims : Z) (eps : float) : RMSNorm :=
  mkRMSNorm (replicate (Z.to_nat dims) rone) eps.

Definition RMSNorm_call (n : RMSNorm) (x : mat) : mat :=
  map (rms_norm (eps n) (norm_weight n)) x.

(** *** Adapter layers *)

Inductive BaseLayer : Type :=
| BLinear (l : Linear)
| BQuantized (q : QuantizedLinear).

Definition BaseLayer_call (b : BaseLayer) (x : mat) : mat :=
  match b with
  | BLinear l => Linear_call l x
  | BQuantized q => QuantizedLinear_call q x
  end.

(** One low-rank delta: rank, alpha and dropout as read from the
    configuration. *)
Record Adapter : Type := mkAdapter {
  lora_r : pyval;
  lora_alpha : pyval;
  lora_dp : pyval
}.

(** The contribution of a delta at one position. *)
Variable lora_delta : Adapter -> vec -> vec.

(** Modelled from the spec: [LoRaLayer] (trainer.utils) is not among the
    sources.  It wraps a base linear projection, holds named low-rank
    deltas and has one mutable active tag; its forward pass is
    [base(x) + active_delta(x)] when a tag is active and [base(x)]
    otherwise. *)
Record LoRaLayer : Type := mkLoRa {
  base_layer : BaseLayer;
  adapters : list (string * Adapter);
  active : option string
}.

(** Modelled from the spec: the constructor call
    [LoRaLayer(module, r, lora_alpha, dp, tag)] wraps [module] and
    attaches the delta [tag]; no tag is active yet. *)
Definition LoRaLayer_init (module : BaseLayer) (r alpha dp : pyval) (tag : string) : LoRaLayer :=
  mkLoRa module [(tag, mkAdapter r alpha dp)] None.

Fixpoint assoc (tag : string) (l : list (string * Adapter)) : option Adapter :=
  match l with
  | [] => None
  | (t, a) :: l => if String.eqb t tag then Some a else assoc tag l
  end.

(** The delta that contributes to the forward pass, if any. *)
Definition active_delta (w : LoRaLayer) : option Adapter :=
  match active w with
  | Some t => assoc t (adapters w)
  | None => None
  end.

Definition LoRaLayer_call (w : LoRaLayer) (x : mat) : mat :=
  match active_delta w with
  | Some a => zip_with vadd (BaseLayer_call (base_layer w) x) (map (lora_delta a) x)
  | None => BaseLayer_call (base_layer w) x
  end.

(** A projection site of the network: a bare projection or an adapter
    layer put in its place. *)
Inductive Proj : Type :=
| Bare (b : BaseLayer)
| Wrapped (w : LoRaLayer).

Definition Proj_call (p : Proj) (x : mat) : mat :=
  match p with
  | Bare b => BaseLayer_call b x
  | Wrapped w => LoRaLayer_call w x
  end.

(** *** KV cache and attention mask *)

(** The cache of one layer (a library object): the keys and values of the
    positions seen so far; its offset is their number. *)
Record KVCache : Type := mkCache {
  cache_keys : mat;
  cache_values : mat
}.

Definition offset (c : KVCache) : nat := length (cache_keys c).

Definition update_and_fetch (c : KVCache) (keys values : mat) : KVCache * mat * mat :=
  let c' := mkCache (cache_keys c ++ keys) (cache_values c ++ values) in
  (c', cache_keys c', cache_values c').

(** Modelled from the spec: [create_attention_mask] (models/base.py) is
    not among the sources.  For [T] query positions after [off] cached
    ones it is the causal mask over [off + T] keys: query [i] sees key
    [j] iff [j <= off + i]. *)
Definition create_additive_causal_mask (T off : nat) : Mask :=
  map (fun i => map (fun j => bool_decide (j ≤ off + i)%nat) (seq 0 (off + T))) (seq 0 T).

Definition create_attention_mask (h : mat) (cache : option (list (option KVCache))) : Mask :=
  let off :=
    match cache with
    | Some (Some c :: _) => offset c
    | _ => 0%nat
    end in
  create_additive_causal_mask (length h) off.

Fixpoint select {A : Type} (row : list bool) (l : list A) : list A :=
  match row, l with
  | b :: row, a :: l => if b then a :: select row l else select row l
  | _, _ => []
  end.

(** [mx.fast.scaled_dot_product_attention]: every query position attends
    to the keys its mask row allows, to all of them without a mask. *)
Definition scaled_dot_product_attention
    (n_heads n_kv_heads : Z) (queries keys values : mat)
    (scale : float) (mask : option Mask) : mat :=
  imap (fun i q =>
          attend scale n_heads n_kv_heads q
            match mask with
            | Some m => select (default [] (m !! i)) (zip keys values)
            | None => zip keys values
            end) queries.

(** [rope(x, offset=o)]: position [p] of the window is rotated for the
    absolute position [o + p], in a sequence of [o + length x]
    positions. *)
Definition rope_call (rp : RopeModule) (x : mat) (o : nat) : mat :=
  imap (fun p v => rope_rotate rp (o + length x) (o + p) v) x.

(** The positions of a window rotated as they are in a sequence of [N]
    positions, whatever the length of the call. *)
Definition rope_at (rp : RopeModule) (N : nat) (x : mat) (o : nat) : mat :=
  imap (fun p v => rope_rotate rp N (o + p) v) x.

(** The encoder [rp] rotates by the absolute position alone in sequences
    of up to [N] positions: the effective length of the call makes no
    difference there. *)
Definition length_free (rp : RopeModule) (N : nat) : Prop :=
  forall n m pos v, (n <= N)%nat -> (m <= N)%nat ->
    rope_rotate rp n pos v = rope_rotate rp m pos v.

(** *** Attention *)

Record Attention : Type := mkAttention {
  n_heads : Z;
  n_kv_heads : Z;
  head_dim : Z;
  scale : float;
  qkv_proj : Proj;
  o_proj : Proj;
  rope : RopeModule
}.

Definition Attention_init (config : ModelConfig) : result Attention :=
  let dim := hidden_size config in
  let n_heads := num_attention_heads config in
  n_kv_heads <- match num_key_value_heads config with
                | Some k => Ok k
                | None => Raise AssertionError
                end ;;
  head_dim <- floordiv (hidden_size config) n_heads ;;
  _ <- ensure (negb (head_dim =? 0)) ZeroDivisionError ;;
  hd <- float_of_int head_dim ;;
  let scale := float_pow hd (-0.5)%float in
  let op_size := n_heads * head_dim + 2 * (n_kv_heads * head_dim) in
  let qkv_proj := Linear_init dim op_size in
  let o_proj := Linear_init (n_heads * head_dim) dim in
  rope <- Attention_rope config head_dim ;;
  Ok (mkAttention n_heads n_kv_heads head_dim scale
        (Bare (BLinear qkv_proj)) (Bare (BLinear o_proj)) rope).

Definition Attention_call (a : Attention) (x : mat) (mask : option Mask)
    (cache : option KVCache) : mat * option KVCache :=
  let qkv := Proj_call (qkv_proj a) x in
  let query_pos := Z.to_nat (n_heads a * head_dim a) in
  let kv_width := Z.to_nat (n_kv_heads a * head_dim a) in
  let queries := map (take query_pos) qkv in
  let keys := map (fun v => take kv_width (drop query_pos v)) qkv in
  let values := map (drop (query_pos + kv_width)) qkv in
  let '(queries, keys, values, cache) :=
    match cache with
    | Some c =>
        let queries := rope_call (rope a) queries (offset c) in
        let keys := rope_call (rope a) keys (offset c) in
        let '(c', keys, values) := update_and_fetch c keys values in
        (queries, keys, values, Some c')
    | None =>
        (rope_call (rope a) queries 0, rope_call (rope a) keys 0, values, None)
    end in
  let output :=
    scaled_dot_product_attention (n_heads a) (n_kv_heads a)
      queries keys values (scale a) mask in
  (Proj_call (o_proj a) output, cache).

(** *** MLP *)

Record MLP : Type := mkMLP {
  gate_up_proj : Proj;
  down_proj : Proj
}.

Definition MLP_init (dim hidden_dim : Z) : MLP :=
  mkMLP (Bare (BLinear (Linear_init dim (2 * hidden_dim))))
        (Bare (BLinear (Linear_init hidden_dim dim))).

Definition MLP_call (m : MLP) (x : mat) : mat :=
  let x := Proj_call (gate_up_proj m) x in
  let gated :=
    map (fun v =>
           let half := (length v / 2)%nat in
           vmul (map silu (take half v)) (drop half v)) x in
  Proj_call (down_proj m) gated.

(** *** TransformerBlock *)

Record TransformerBlock : Type := mkBlock {
  self_attn : Attention;
  mlp : MLP;
  input_layernorm : RMSNorm;
  post_attention_layernorm : RMSNorm
}.

Definition TransformerBlock_init (config : ModelConfig) : result TransformerBlock :=
  self_attn <- Attention_init config ;;
  let mlp := MLP_init (hidden_size config) (intermediate_size config) in
  Ok (mkBlock self_attn mlp
        (RMSNorm_init (hidden_size config) (rms_norm_eps config))
        (RMSNorm_init (hidden_size config) (rms_norm_eps config))).

Definition TransformerBlock_call (b : TransformerBlock) (x : mat)
    (mask : option Mask) (cache : option KVCache) : mat * option KVCache :=
  let '(r, cache) :=
    Attention_call (self_attn b) (RMSNorm_call (input_layernorm b) x) mask cache in
  let h := zip_with vadd x r in
  let r := MLP_call (mlp b) (RMSNorm_call (post_attention_layernorm b) h) in
  (zip_with vadd h r, cache).

(** *** The multimodal embedding module

    [Phi4MMImageAudioEmbedding] (multimodal.py) is another module of the
    package: its internals are kept opaque, apart from the linear
    projections it owns, which the adapter passes of [Phi4Model.__init__]
    visit by name. *)

Variable ExtState : Type.

Record ImageAudioEmbedding : Type := mkExt {
  ext_projs : list (string * Proj);
  ext_state : ExtState
}.

Variable Phi4MMImageAudioEmbedding_init :
  ModelConfig -> gmap string pyval -> result ImageAudioEmbedding.

(** *** Phi4Model *)

Record Phi4Model : Type := mkPhi4Model {
  config : ModelConfig;
  embed_tokens : Embedding;
  embed_tokens_extend : option ImageAudioEmbedding;
  layers : list TransformerBlock;
  norm : RMSNorm
}.

(** What [isinstance] can tell apart among the modules of the tree. *)
Inductive Module : Type :=
| MLinear (l : Linear)
| MQuantizedLinear (q : QuantizedLinear)
| MLoRaLayer (w : LoRaLayer)
| MOther.

(** The modules found at and below a projection site: an adapter layer
    keeps the projection it wraps as its child [base_layer]. *)
Definition proj_modules (name : string) (p : Proj) : list (string * Module) :=
  let base n b :=
    match b with
    | BLinear l => (n, MLinear l)
    | BQuantized q => (n, MQuantizedLinear q)
    end in
  match p with
  | Bare b => [base name b]
  | Wrapped w => [(name, MLoRaLayer w); base (name +:+ ".base_layer") (base_layer w)]
  end.

Definition block_modules (i : nat) (b : TransformerBlock) : list (string * Module) :=
  let pre := "layers." +:+ pretty i in
  [(pre, MOther); (pre +:+ ".self_attn", MOther)]
  ++ proj_modules (pre +:+ ".self_attn.qkv_proj") (qkv_proj (self_attn b))
  ++ proj_modules (pre +:+ ".self_attn.o_proj") (o_proj (self_attn b))
  ++ [(pre +:+ ".self_attn.rope", MOther); (pre +:+ ".mlp", MOther)]
  ++ proj_modules (pre +:+ ".mlp.gate_up_proj") (gate_up_proj (mlp b))
  ++ proj_modules (pre +:+ ".mlp.down_proj") (down_proj (mlp b))
  ++ [(pre +:+ ".input_layernorm", MOther);
      (pre +:+ ".post_attention_layernorm", MOther)].

(** [self.named_modules()]: every module of the tree with its dotted
    name, as a list built before the loop runs. *)
Definition named_modules (m : Phi4Model) : list (string * Module) :=
  [(""%string, MOther); ("embed_tokens"%string, MOther)]
  ++ match embed_tokens_extend m with
     | Some e =>
         ("embed_tokens_extend"%string, MOther)
         :: flat_map (fun '(n, p) => proj_modules ("embed_tokens_extend." +:+ n) p)
              (ext_projs e)
     | None => []
     end
  ++ flat_map (fun '(i, b) => block_modules i b) (imap pair (layers m))
  ++ [("norm"%string, MOther)].

(** Applies [f] to every projection site, given its dotted name. *)
Definition map_projs (f : string -> Proj -> Proj) (m : Phi4Model) : Phi4Model :=
  let on_block i b :=
    let pre := "layers." +:+ pretty i in
    let a := self_attn b in
    mkBlock
      (mkAttention (n_heads a) (n_kv_heads a) (head_dim a) (scale a)
         (f (pre +:+ ".self_attn.qkv_proj") (qkv_proj a))
         (f (pre +:+ ".self_attn.o_proj") (o_proj a))
         (rope a))
      (mkMLP (f (pre +:+ ".mlp.gate_up_proj") (gate_up_proj (mlp b)))
             (f (pre +:+ ".mlp.down_proj") (down_proj (mlp b))))
      (input_layernorm b) (post_attention_layernorm b) in
  let on_ext e :=
    mkExt (map (fun '(n, p) => (n, f ("embed_tokens_extend." +:+ n) p)) (ext_projs e))
          (ext_state e) in
  mkPhi4Model (config m) (embed_tokens m)
    (on_ext <$> embed_tokens_extend m)
    (imap on_block (layers m)) (norm m).

(** Modelled from the spec: [set_module_by_name] (trainer.utils) is not
    among the sources.  It puts the adapter layer at the projection site
    of that name, in place of what was there. *)
Definition set_module_by_name (m : Phi4Model) (name : string) (w : LoRaLayer) : Phi4Model :=
  map_projs (fun n p => if String.eqb n name then Wrapped w else p) m.

(** [s.replace(old, new)]: the occurrences of [old] are replaced from the
    left, without overlap.  [skip] counts the characters of an occurrence
    still to be dropped. *)
Fixpoint replace_from (old new : string) (skip : nat) (s : string) : string :=
  match s with
  | EmptyString => EmptyString
  | String c s' =>
      match skip with
      | S k => replace_from old new k s'
      | O =>
          if String.prefix old s
          then new +:+ replace_from old new (String.length old - 1) s'
          else String c (replace_from old new 0 s')
      end
  end.

Definition str_replace (old new s : string) : string :=
  match old with
  | EmptyString => s
  | _ => replace_from old new 0 s
  end.

(** One adapter pass of [Phi4Model.__init__] (lines 197-209 for vision,
    217-229 for speech): the loop over the named modules.  [rename] is
    what the pass does to a matched name before it installs the adapter
    layer there. *)
Definition lora_step (lora : gmap string pyval) (tag : string)
    (rename : string -> string) (self : Phi4Model)
    (name : string) (module : BaseLayer) : result Phi4Model :=
  layer <- getitem lora "layer" ;;
  match layer with
  | PStr pattern =>
      if re_match pattern name then
        r <- getitem lora "r" ;;
        alpha <- getitem lora "lora_alpha" ;;
        dp <- getitem lora "dp" ;;
        let lora_layer := LoRaLayer_init module r alpha dp tag in
        Ok (set_module_by_name self (rename name) lora_layer)
      else Ok self
  | _ => Raise (TypeError "first argument must be string or compiled pattern")
  end.

Fixpoint lora_loop (lora : gmap string pyval) (tag : string)
    (rename : string -> string) (modules : list (string * Module))
    (self : Phi4Model) : result Phi4Model :=
  match modules with
  | [] => Ok self
  | (name, module) :: rest =>
      self <- match module with
              | MLinear l => lora_step lora tag rename self name (BLinear l)
              | MQuantizedLinear q => lora_step lora tag rename self name (BQuantized q)
              | _ => Ok self
              end ;;
      lora_loop lora tag rename rest self
  end.

(** Lines 211-214 and 231-234: each of the four entries is read and
    written back. *)
Definition echo_lora (lora : gmap string pyval) : result unit :=
  _ <- getitem lora "r" ;;
  _ <- getitem lora "lora_alpha" ;;
  _ <- getitem lora "layer" ;;
  _ <- getitem lora "dp" ;;
  Ok tt.

Definition vision_pass (lora : gmap string pyval) (self : Phi4Model) : result Phi4Model :=
  self <- lora_loop lora "vision" (fun n => n) (named_modules self) self ;;
  _ <- echo_lora lora ;;
  Ok self.

Definition speech_pass (lora : gmap string pyval) (self : Phi4Model) : result Phi4Model :=
  self <- lora_loop lora "speech" (str_replace ".base_layer" "") (named_modules self) self ;;
  _ <- echo_lora lora ;;
  Ok self.

Fixpoint build_layers (config : ModelConfig) (n : nat) : result (list TransformerBlock) :=
  match n with
  | O => Ok []
  | S n =>
      b <- TransformerBlock_init config ;;
      bs <- build_layers config n ;;
      Ok (b :: bs)
  end.

(** Lines 172-189: the modules of the network, before any adapter is
    attached. *)
Definition Phi4Model_modules (config : ModelConfig) : result Phi4Model :=
  _ <- ensure (0 <? vocab_size config) AssertionError ;;
  let embed_tokens := Embedding_init (vocab_size config) (hidden_size config) in
  embed_tokens_extend <-
    match embd_layer config with
    | Some d =>
        _ <- getitem d "embedding_cls" ;;
        e <- Phi4MMImageAudioEmbedding_init config d ;;
        Ok (Some e)
    | None => Ok None
    end ;;
  layers <- build_layers config (Z.to_nat (num_hidden_layers config)) ;;
  let norm := RMSNorm_init (hidden_size config) (rms_norm_eps config) in
  Ok (mkPhi4Model config embed_tokens embed_tokens_extend layers norm).

Definition Phi4Model_init (config : ModelConfig) : result Phi4Model :=
  self <- Phi4Model_modules config ;;
  match vision_lora config with
  | None => Raise AssertionError
  | Some vision =>
      self <- vision_pass vision self ;;
      match speech_lora config with
      | None => Raise AssertionError
      | Some speech => speech_pass speech self
      end
  end.

(** *** Input mode *)

Inductive InputMode : Type := LANGUAGE | VISION | SPEECH | VISION_SPEECH.

#[local] Instance InputMode_eq_dec : EqDecision InputMode.
Proof. solve_decision. Defined.

(** The enumeration is declared in processing_phi4mm.py, which is not
    among the sources: the values of its four members are a parameter. *)
Variable InputMode_value : InputMode -> Z.

Definition InputMode_members : list InputMode :=
  [LANGUAGE; VISION; SPEECH; VISION_SPEECH].

(** What a caller may pass as [input_mode]: nothing, a member of the
    enumeration, an int, an array of ints, or something else. *)
Inductive ModeArg : Type :=
| ArgNone
| ArgMode (m : InputMode)
| ArgInt (z : Z)
| ArgArray (a : list Z)
| ArgStr (s : string).

(** [InputMode(v)]: the member itself, or the first member with that
    value; [ValueError] otherwise. *)
Definition InputMode_of (v : ModeArg) : result InputMode :=
  let invalid := Raise (ValueError "not a valid InputMode") in
  match v with
  | ArgMode m => Ok m
  | ArgInt z =>
      match List.find (fun m => InputMode_value m =? z) InputMode_members with
      | Some m => Ok m
      | None => invalid
      end
  | _ => invalid
  end.

(** Lines 244-248. *)
Definition resolve_input_mode (input_mode : ModeArg) : result InputMode :=
  input_mode <-
    match input_mode with
    | ArgArray a =>
        match a with
        | [z] => Ok (ArgInt z)
        | _ => Raise AssertionError
        end
    | v => Ok v
    end ;;
  InputMode_of input_mode.

(** Whether [input_mode] designates a member of the enumeration: a
    member, the value of one, or a one-element array holding such a
    value. *)
Definition recognized (v : ModeArg) : bool :=
  let member z := existsb (fun m => InputMode_value m =? z) InputMode_members in
  match v with
  | ArgMode _ => true
  | ArgInt z => member z
  | ArgArray [z] => member z
  | _ => false
  end.

(** *** Adapter switching *)

Definition set_active (tag : option string) (p : Proj) : Proj :=
  match p with
  | Bare b => Bare b
  | Wrapped w => Wrapped (mkLoRa (base_layer w) (adapters w) tag)
  end.

(** Modelled from the spec: [set_lora_adapter] and [unset_lora_adapter]
    are called by [Phi4Model.__call__] and defined nowhere in the
    sources.  The first makes [tag] the active tag of every adapter
    layer, the second leaves every adapter layer without an active tag. *)
Definition set_lora_adapter (tag : string) (self : Phi4Model) : Phi4Model :=
  map_projs (fun _ => set_active (Some tag)) self.

Definition unset_lora_adapter (self : Phi4Model) : Phi4Model :=
  map_projs (fun _ => set_active None) self.

(** The adapter layers of the module tree. *)
Definition adapter_layers (self : Phi4Model) : list LoRaLayer :=
  omap (fun nm => match nm.2 with MLoRaLayer w => Some w | _ => None end)
       (named_modules self).

(** The tag a mode makes active (lines 250-258). *)
Definition mode_tag (m : InputMode) : option string :=
  match m with
  | VISION_SPEECH | VISION => Some "vision"%string
  | SPEECH => Some "speech"%string
  | LANGUAGE => None
  end.

(** *** Phi4Model.__call__ *)

(** Arrays the call only hands on (pixels, sizes, masks, embeddings). *)
Variable Tensor : Type.

Record Kwargs : Type := mkKwargs {
  input_mode : ModeArg;
  input_image_embeds : option Tensor;
  input_audio_embeds : option Tensor;
  image_sizes : option Tensor;
  image_attention_mask : option Tensor;
  audio_embed_sizes : option Tensor;
  audio_attention_mask : option Tensor
}.

(** The keyword arguments of the call to the multimodal embedding. *)
Record FusionArgs : Type := mkFusionArgs {
  f_input_ids : list Z;
  f_input_embeds : option Tensor;
  f_input_image_embeds : option Tensor;
  f_input_audio_embeds : option Tensor;
  f_image_sizes : option Tensor;
  f_image_attention_mask : option Tensor;
  f_audio_embed_sizes : option Tensor;
  f_audio_attention_mask : option Tensor;
  f_audio_projection_mode : string;
  f_wte : Embedding
}.

Variable Phi4MMImageAudioEmbedding_call :
  ImageAudioEmbedding -> FusionArgs -> result mat.

(** What a call did, in order. *)
Inductive Event : Type :=
| EvSetLora (tag : string)
| EvUnsetLora
| EvFusion (args : FusionArgs)
| EvEmbed (input_ids : list Z)
| EvLayer (i : nat).

(** The outcome of a call: the module and the caches as the call left
    them, what it did, and the value it returned or the exception. *)
Record Outcome (A : Type) : Type := mkOutcome {
  out_self : Phi4Model;
  out_cache : option (list (option KVCache));
  out_log : list Event;
  out_value : result A
}.
Arguments mkOutcome {A}.
Arguments out_self {A}.
Arguments out_cache {A}.
Arguments out_log {A}.
Arguments out_value {A}.

(** Lines 250-260: the adapters and the audio projection mode. *)
Definition switch_adapters (input_mode : InputMode) (self : Phi4Model)
    : Phi4Model * list Event * string :=
  match input_mode with
  | VISION_SPEECH | VISION =>
      (set_lora_adapter "vision" self, [EvSetLora "vision"], "vision"%string)
  | SPEECH =>
      (set_lora_adapter "speech" self, [EvSetLora "speech"], "speech"%string)
  | LANGUAGE =>
      (unset_lora_adapter self, [EvUnsetLora], "speech"%string)
  end.

(** Lines 262-276: the hidden states that enter the stack. *)
Definition embed_input (self : Phi4Model) (input_ids : list Z)
    (pixel_values : option Tensor) (kwargs : Kwargs)
    (audio_projection_mode : string) : list Event * result mat :=
  match pixel_values with
  | None =>
      match embed_tokens_extend self with
      | None => ([], Raise (TypeError "'NoneType' object is not callable"))
      | Some ext =>
          let args :=
            mkFusionArgs input_ids None
              (input_image_embeds kwargs) (input_audio_embeds kwargs)
              (image_sizes kwargs) (image_attention_mask kwargs)
              (audio_embed_sizes kwargs) (audio_attention_mask kwargs)
              audio_projection_mode (embed_tokens self) in
          ([EvFusion args], Phi4MMImageAudioEmbedding_call ext args)
      end
  | Some _ => ([EvEmbed input_ids], Ok (Embedding_call (embed_tokens self) input_ids))
  end.

(** Lines 284-285: [for layer, c in zip(self.layers, cache)].  The loop
    stops with the shorter list; a cache object is updated in place. *)
Fixpoint run_layers (i : nat) (layers : list TransformerBlock)
    (cache : list (option KVCache)) (h : mat) (mask : option Mask)
    : mat * list (option KVCache) * list Event :=
  match layers, cache with
  | layer :: layers, c :: cache =>
      let '(h, c) := TransformerBlock_call layer h mask c in
      let '(h, cache, evs) := run_layers (S i) layers cache h mask in
      (h, c :: cache, EvLayer i :: evs)
  | _, _ => (h, cache, [])
  end.

Definition Phi4Model_call (self : Phi4Model) (input_ids : list Z)
    (pixel_values : option Tensor) (mask : option Mask)
    (cache : option (list (option KVCache))) (kwargs : Kwargs) : Outcome mat :=
  match resolve_input_mode (input_mode kwargs) with
  | Raise e => mkOutcome self cache [] (Raise e)
  | Ok input_mode =>
      let '(self, log, audio_projection_mode) := switch_adapters input_mode self in
      let '(evs, h) := embed_input self input_ids pixel_values kwargs audio_projection_mode in
      let log := log ++ evs in
      match h with
      | Raise e => mkOutcome self cache log (Raise e)
      | Ok h =>
          let mask :=
            match mask with
            | None => Some (create_attention_mask h cache)
            | Some m => Some m
            end in
          let '(h, cache', evs) :=
            run_layers 0 (layers self)
              (default (replicate (length (layers self)) None) cache) h mask in
          mkOutcome self (match cache with Some _ => Some cache' | None => None end)
            (log ++ evs)
            (Ok (RMSNorm_call (norm self) h))
      end
  end.

(** *** Model *)

Record Model : Type := mkModel {
  m_model_type : string;
  model : Phi4Model;
  lm_head : option Linear;
  m_config : ModelConfig
}.

Definition Model_init (config : ModelConfig) : result Model :=
  model <- Phi4Model_init config ;;
  let lm_head :=
    if negb (tie_word_embeddings config)
    then Some (Linear_init (hidden_size config) (vocab_size config))
    else None in
  Ok (mkModel (model_type config) model lm_head config).

(** Lines 308-311: the logits of the final hidden states. *)
Definition Model_head (self : Model) (embed_tokens : Embedding) (out : mat) : result mat :=
  if tie_word_embeddings (m_config self)
  then Ok (as_linear embed_tokens out)
  else match lm_head self with
       | Some l => Ok (Linear_call l out)
       | None => Raise (AttributeError "lm_head")
       end.

Definition Model_call (self : Model) (input_ids : list Z)
    (pixel_values : option Tensor) (mask : option Mask)
    (cache : option (list (option KVCache))) (kwargs : Kwargs) : Outcome mat :=
  let o := Phi4Model_call (model self) input_ids pixel_values mask cache kwargs in
  let value :=
    out <- out_value o ;;
    Model_head self (embed_tokens (out_self o)) out in
  mkOutcome (out_self o) (out_cache o) (out_log o) value.

(** The property [Model.layers] (lines 314-316). *)
Definition Model_layers (self : Model) : list TransformerBlock := layers (model self).

(** The weights of a checkpoint, by name, and the [sanitize] methods of
    the image and audio parts of the multimodal embedding (vision.py and
    audio.py), which are not among the sources. *)
Variable Weights : Type.
Variables image_embed_sanitize audio_embed_sanitize :
  ImageAudioEmbedding -> Weights -> result Weights.

(** [Model.sanitize] (lines 318-321): an attribute is read from
    [embed_tokens_extend], which is [None] without multimodal
    embedding. *)
Definition Model_sanitize (self : Model) (weights : Weights) : result Weights :=
  match embed_tokens_extend (model self) with
  | None => Raise (AttributeError "image_embed")
  | Some ext =>
      weights <- image_embed_sanitize ext weights ;;
      audio_embed_sanitize ext weights
  end.

(** The parts of the network that are no projection: the configuration,
    the token embedding, the final norm and the number of blocks. *)
Definition frame (m : Phi4Model) : ModelConfig * Embedding * RMSNorm * nat :=
  (config m, embed_tokens m, norm m, length (layers m)).

(** *** Projection sites

    The places of the network that hold a projection, with their dotted
    names: those of the multimodal embedding and the four of every
    transformer block. *)
Definition block_sites (i : nat) (b : TransformerBlock) : list (string * Proj) :=
  let pre := "layers." +:+ pretty i in
  [(pre +:+ ".self_attn.qkv_proj", qkv_proj (self_attn b));
   (pre +:+ ".self_attn.o_proj", o_proj (self_attn b));
   (pre +:+ ".mlp.gate_up_proj", gate_up_proj (mlp b));
   (pre +:+ ".mlp.down_proj", down_proj (mlp b))].

(** The sites that the multimodal embedding brings. *)
Definition ext_sites (m : Phi4Model) : list (string * Proj) :=
  match embed_tokens_extend m with
  | Some e => map (fun '(n, p) => ("embed_tokens_extend." +:+ n, p)) (ext_projs e)
  | None => []
  end.

Definition sites (m : Phi4Model) : list (string * Proj) :=
  ext_sites m
  ++ flat_map (fun '(i, b) => block_sites i b) (imap pair (layers m)).

(** The linear module that [named_modules] finds at a site, under the
    name it has there. *)
Definition visited (np : string * Proj) : string * BaseLayer :=
  match np.2 with
  | Bare b => (np.1, b)
  | Wrapped w => (np.1 +:+ ".base_layer", base_layer w)
  end.

(** The linear modules among the named modules. *)
Definition linears (ms : list (string * Module)) : list (string * BaseLayer) :=
  omap (fun nm =>
          match nm.2 with
          | MLinear l => Some (nm.1, BLinear l)
          | MQuantizedLinear q => Some (nm.1, BQuantized q)
          | _ => None
          end) ms.

(** The delta described by an adapter configuration. *)
Definition adapter_of (lora : gmap string pyval) : option Adapter :=
  r ← lora !! "r"; alpha ← lora !! "lora_alpha"; dp ← lora !! "dp";
  Some (mkAdapter r alpha dp).

(** What a pass leaves at the site [n] that held [p], given the linear
    modules [vs] it visits in order. *)
Fixpoint apply_updates (pattern tag : string) (a : Adapter)
    (rename : string -> string) (vs : list (string * BaseLayer))
    (n : string) (p : Proj) : Proj :=
  match vs with
  | [] => p
  | (vn, b) :: vs =>
      apply_updates pattern tag a rename vs n
        (if re_match pattern vn && String.eqb n (rename vn)
         then Wrapped (mkLoRa b [(tag, a)] None)
         else p)
  end.

(** The loop of a pass, over the linear modules only. *)
Fixpoint lora_lin (lora : gmap string pyval) (tag : string)
    (rename : string -> string) (vs : list (string * BaseLayer))
    (self : Phi4Model) : result Phi4Model :=
  match vs with
  | [] => Ok self
  | (name, b) :: vs =>
      self <- lora_step lora tag rename self name b ;;
      lora_lin lora tag rename vs self
  end.

(** The names of the sites [ss] are pairwise different and free of
    [.base_layer], so that the speech pass finds the site of a wrapped
    projection from the name of its base layer. *)
Definition plain_names (ss : list (string * Proj)) : Prop :=
  NoDup (map fst ss)
  /\ forall n, n ∈ map fst ss ->
       str_replace ".base_layer" "" n = n
       /\ str_replace ".base_layer" "" (n +:+ ".base_layer") = n.

(** The sites [ss] hold plain projections. *)
Definition bare_sites (ss : list (string * Proj)) : Prop :=
  forall n p, (n, p) ∈ ss -> exists b, p = Bare b.

(** The two conditions above, as checks that can be run. *)
Definition bare_sites_check (ss : list (string * Proj)) : bool :=
  forallb (fun np => match np.2 with Bare _ => true | Wrapped _ => false end) ss.

Definition plain_names_check (ss : list (string * Proj)) : bool :=
  bool_decide (NoDup (map fst ss))
  && forallb (fun n =>
                String.eqb (str_replace ".base_layer" "" n) n
                && String.eqb (str_replace ".base_layer" "" (n +:+ ".base_layer")) n)
             (map fst ss).

(** The names of the sites of a block: [layers.], the index of the block
    as [named_modules] writes it, and one of four endings. *)
Definition proj_suffixes : list string :=
  [".self_attn.qkv_proj"; ".self_attn.o_proj"; ".mlp.gate_up_proj"; ".mlp.down_proj"]%string.

Definition block_name (i : nat) (suf : string) : string :=
  "layers." +:+ pretty i +:+ suf.

(** The strings of decimal digits. *)
Definition is_digit (c : ascii) : bool :=
  match c with
  | "0" | "1" | "2" | "3" | "4" | "5" | "6" | "7" | "8" | "9" => true
  | _ => false
  end%char.

Fixpoint numeral (s : string) : bool :=
  match s with
  | EmptyString => true
  | String c s => is_digit c && numeral s
  end.

(** *** Incremental decoding

    What the cache of an attention block holds once the block has seen
    the (normalised) hidden states [xn] of the first positions: their
    rotated keys and their values. *)
Definition attn_cache (a : Attention) (xn : mat) : KVCache :=
  let qkv := Proj_call (qkv_proj a) xn in
  let query_pos := Z.to_nat (n_heads a * head_dim a) in
  let kv_width := Z.to_nat (n_kv_heads a * head_dim a) in
  mkCache
    (rope_call (rope a) (map (fun v => take kv_width (drop query_pos v)) qkv) 0)
    (map (drop (query_pos + kv_width)) qkv).

Definition block_cache (b : TransformerBlock) (xs : mat) : KVCache :=
  attn_cache (self_attn b) (RMSNorm_call (input_layernorm b) xs).

(** The output of a block on a whole window, under the causal mask and
    without cache. *)
Definition block_full (b : TransformerBlock) (xs : mat) : mat :=
  (TransformerBlock_call b xs (Some (create_additive_causal_mask (length xs) 0)) None).1.

(** Every block of the network rotates by the absolute position alone in
    sequences of up to [N] positions. *)
Definition rotary_by_position (m : Phi4Model) (N : nat) : Prop :=
  Forall (fun b => length_free (rope (self_attn b)) N) (layers m).

(** The caches of the layers once the stack has seen the hidden states
    [xs]: each layer has cached what the layers below it made of them. *)
Fixpoint stack_caches (ls : list TransformerBlock) (xs : mat) : list (option KVCache) :=
  match ls with
  | [] => []
  | b :: bs => Some (block_cache b xs) :: stack_caches bs (block_full b xs)
  end.

(** The model with its transformer stack replaced: the module as a
    forward call left it. *)
Definition set_model (m : Phi4Model) (self : Model) : Model :=
  mkModel (m_model_type self) m (lm_head self) (m_config self).

(** A cache for every layer, all empty: the state before decoding. *)
Definition fresh_cache (self : Phi4Model) : list (option KVCache) :=
  replicate (length (layers self)) (Some (mkCache [] [])).

(** Decoding one token at a time: every token is a forward call on a
    window of length one, without mask, on the caches and the module as
    the previous call left them.  The result lists what each call
    returned. *)
Fixpoint decode (self : Model) (cache : list (option KVCache)) (tokens : list Z)
    (pixel_values : option Tensor) (kwargs : Kwargs) : list (result mat) :=
  match tokens with
  | [] => []
  | t :: tokens =>
      let o := Model_call self [t] pixel_values None (Some cache) kwargs in
      out_value o
      :: decode (set_model (out_self o) self) (default cache (out_cache o))
           tokens pixel_values kwargs
  end.

(** The logits of a full pass over [ids]: the rows of the head applied
    to the normalised output of the stack, with [e] the embedding of a
    token and [W] the matrix of the head. *)
Definition full_rows (M : Phi4Model) (W : mat) (e : Z -> vec) (ids : list Z) : mat :=
  matmul_T
    (RMSNorm_call (norm M)
       (run_layers 0 (layers M) (replicate (length (layers M)) None) (map e ids)
          (Some (create_additive_causal_mask (length ids) 0))).1.1)
    W.

(** The logits of one decoding step on the caches of the tokens [p]. *)
Definition step_rows (M : Phi4Model) (W : mat) (e : Z -> vec) (p : list Z) (t : Z) : mat :=
  matmul_T
    (RMSNorm_call (norm M)
       (run_layers 0 (layers M) (stack_caches (layers M) (map e p)) [e t]
          (Some (create_additive_causal_mask 1 (length p)))).1.1)
    W.

(** * Properties *)

(** ** Configuration *)

Lemma resolve_kv_heads_rope_scaling c :
  rope_scaling (resolve_kv_heads c) = rope_scaling c.
Proof. unfold resolve_kv_heads. by destruct (num_key_value_heads c). Qed.

Lemma resolve_kv_heads_set_rope_scaling v c :
  resolve_kv_heads (set_rope_scaling v c) = set_rope_scaling v (resolve_kv_heads c).
Proof. unfold resolve_kv_heads. simpl. by destruct (num_key_value_heads c). Qed.

Lemma contains_true d k : contains d k = true <-> is_Some (d !! k).
Proof. unfold contains. apply bool_decide_eq_true. Qed.

Lemma truthy_some d k v : d !! k = Some v -> truthy (Some d) = true.
Proof.
  intros Hk. unfold truthy. apply negb_true_iff, bool_decide_eq_false.
  intros ->. by rewrite lookup_empty in Hk.
Qed.

Lemma truthy_nonempty (d : gmap string pyval) : d ≠ ∅ -> truthy (Some d) = true.
Proof. intros Hd. unfold truthy. by apply negb_true_iff, bool_decide_eq_false. Qed.

(** The rotary encoder of a configuration without scaling descriptor. *)
Lemma Attention_rope_unscaled c hd r :
  rope_scaling c = None ->
  Attention_rope c hd = Ok r ->
  exists dims, r = RoPE dims (rope_traditional c) (rope_theta c) 1.
Proof.
  unfold Attention_rope. intros ->. simpl.
  destruct (int_mul_float hd (partial_rotary_factor c)) as [hf|]; [simpl|done].
  destruct (int_of_float hf) as [dims|]; [simpl|done].
  intros [= <-]. by exists dims.
Qed.

(** C5 (as amended): a non-empty scaling descriptor that lacks [type] or
    [long_factor] makes [__post_init__] raise the [ValueError] that names
    the required keys; [short_factor] is not looked at there, and for the
    [su] and [longrope] types the attention block is built only when the
    descriptor holds both [short_factor] and [long_factor]. *)
Theorem rope_scaling_required_keys c d :
  rope_scaling c = Some d ->
  (d ≠ ∅ -> d !! "type" = None \/ d !! "long_factor" = None ->
   post_init c
   = Raise (ValueError ("rope_scaling must contain keys " +:+ set_repr required_keys)))
  /\ (forall ty a,
        d !! "type" = Some ty -> str_in ty ["longrope"; "su"]%string = true ->
        Attention_init c = Ok a ->
        is_Some (d !! "short_factor") /\ is_Some (d !! "long_factor")).
Proof.
  intros Hd. split.
  - intros Hne Hmiss. unfold post_init.
    rewrite resolve_kv_heads_rope_scaling, Hd, (truthy_nonempty d Hne).
    assert (forallb (contains d) required_keys = false) as ->; [|done].
    apply not_true_iff_false. intros Hall. simpl in Hall.
    apply andb_true_iff in Hall as [Hl Ht].
    apply andb_true_iff in Ht as [Ht _].
    apply contains_true in Hl, Ht.
    destruct Hmiss as [Hm|Hm]; rewrite Hm in *; by eapply is_Some_None.
  - intros ty a Hty Hsu. unfold Attention_init.
    destruct (num_key_value_heads c); [simpl|done].
    destruct (floordiv _ _) as [hd|]; [simpl|done].
    destruct (ensure _ _); [simpl|done].
    destruct (float_of_int hd); [simpl|done].
    unfold Attention_rope.
    destruct (int_mul_float hd _) as [hf|]; [simpl|done].
    destruct (int_of_float hf); [simpl|done].
    rewrite Hd, (truthy_some d _ _ Hty). unfold getitem at 1. rewrite Hty. simpl.
    rewrite Hsu. unfold getitem.
    destruct (d !! "short_factor"); [simpl|done].
    destruct (d !! "long_factor"); [simpl|done].
    intros _. split; by eexists.
Qed.

(** C6: a descriptor that has the required keys and a type other than
    [longrope], [su] and [linear] does not make [__post_init__] fail: the
    warning is printed, the descriptor is dropped, the configuration is
    the one obtained with [rope_scaling] unset, and an attention block
    built from it has the plain rotary encoder with scale 1.0. *)
Theorem unrecognized_rope_type_disables_scaling c d ty :
  rope_scaling c = Some d ->
  d !! "type" = Some ty ->
  is_Some (d !! "long_factor") ->
  str_in ty ["longrope"; "su"; "linear"]%string = false ->
  exists c',
    post_init c = Ok (c', [rope_warning])
    /\ rope_scaling c' = None
    /\ post_init (set_rope_scaling None c) = Ok (c', [])
    /\ (forall a, Attention_init c' = Ok a ->
         exists dims, rope a = RoPE dims (rope_traditional c) (rope_theta c) 1).
Proof.
  intros Hd Hty Hlf Hun.
  exists (set_rope_scaling None (resolve_kv_heads c)). repeat split.
  - unfold post_init.
    rewrite resolve_kv_heads_rope_scaling, Hd, (truthy_some d _ _ Hty).
    assert (forallb (contains d) required_keys = true) as ->.
    { simpl. rewrite !andb_true_iff. repeat split; apply contains_true; [done|].
      rewrite Hty. by eexists. }
    simpl. unfold getitem. rewrite Hty. simpl. by rewrite Hun.
  - unfold post_init. by rewrite resolve_kv_heads_set_rope_scaling.
  - intros a. unfold Attention_init. simpl.
    destruct (num_key_value_heads _); [simpl|done].
    destruct (floordiv _ _) as [hd|]; [simpl|done].
    destruct (ensure _ _); [simpl|done].
    destruct (float_of_int hd); [simpl|done].
    destruct (Attention_rope _ hd) as [r|] eqn:Hr; [simpl|done].
    intros [= <-]. simpl.
    apply Attention_rope_unscaled in Hr as [dims ->]; [|done].
    exists dims. f_equal; unfold resolve_kv_heads; by destruct (num_key_value_heads c).
Qed.

(** ** Construction *)

Lemma map_projs_embed_tokens f m : embed_tokens (map_projs f m) = embed_tokens m.
Proof. done. Qed.

Lemma map_projs_norm f m : norm (map_projs f m) = norm m.
Proof. done. Qed.

Lemma map_projs_no_extend f m :
  embed_tokens_extend m = None -> embed_tokens_extend (map_projs f m) = None.
Proof. simpl. by intros ->. Qed.

Lemma lora_loop_no_extend lora tag rename modules self m :
  embed_tokens_extend self = None ->
  lora_loop lora tag rename modules self = Ok m ->
  embed_tokens_extend m = None.
Proof.
  revert self. induction modules as [|[name module] rest IH]; intros self Hn; simpl.
  - by intros [= <-].
  - assert (forall b self', lora_step lora tag rename self name b = Ok self' ->
                            embed_tokens_extend self' = None) as Hstep.
    { intros b self'. unfold lora_step.
      destruct (getitem lora "layer") as [[| pattern | | |]|]; simpl; try done.
      destruct (re_match pattern name); [|by intros [= <-]].
      destruct (getitem lora "r"); [simpl|done].
      destruct (getitem lora "lora_alpha"); [simpl|done].
      destruct (getitem lora "dp"); [simpl|done].
      intros [= <-]. by apply map_projs_no_extend. }
    destruct module as [l|q|w|]; simpl; try by apply IH.
    + destruct (lora_step _ _ _ _ _ (BLinear l)) as [self'|] eqn:Hs; [simpl|done].
      apply IH. by eapply Hstep.
    + destruct (lora_step _ _ _ _ _ (BQuantized q)) as [self'|] eqn:Hs; [simpl|done].
      apply IH. by eapply Hstep.
Qed.

(** A model built from a configuration without [embd_layer] has no
    multimodal embedding module. *)
Lemma Phi4Model_modules_no_extend c m :
  embd_layer c = None -> Phi4Model_modules c = Ok m -> embed_tokens_extend m = None.
Proof.
  intros He. unfold Phi4Model_modules. rewrite He.
  destruct (ensure _ _); [simpl|done].
  destruct (build_layers _ _) as [ls|]; [simpl|done].
  by intros [= <-].
Qed.

(** A model built from a configuration without [embd_layer] has no
    multimodal embedding module. *)
Lemma Phi4Model_init_no_extend c m :
  embd_layer c = None -> Phi4Model_init c = Ok m -> embed_tokens_extend m = None.
Proof.
  intros He. unfold Phi4Model_init.
  destruct (Phi4Model_modules c) as [m0|] eqn:H0; [simpl|done].
  apply Phi4Model_modules_no_extend in H0; [|done].
  destruct (vision_lora c) as [v|]; [|done].
  unfold vision_pass, speech_pass.
  destruct (lora_loop v _ _ _ _) as [m1|] eqn:H1; [simpl|done].
  apply lora_loop_no_extend in H1; [|done].
  destruct (echo_lora v); [simpl|done].
  destruct (speech_lora c) as [sp|]; [|done].
  destruct (lora_loop sp _ _ _ _) as [m2|] eqn:H2; [simpl|done].
  apply lora_loop_no_extend in H2; [|done].
  destruct (echo_lora sp); [simpl|done].
  by intros [= <-].
Qed.

(** C9: without [vision_lora] or without [speech_lora] the constructor
    raises, for [Phi4Model] and so for [Model]: no model exists on which
    a forward call could be made. *)
Theorem missing_lora_config_fails_construction c :
  vision_lora c = None \/ speech_lora c = None ->
  exists e, Phi4Model_init c = Raise e /\ Model_init c = Raise e.
Proof.
  intros Hmiss.
  assert (exists e, Phi4Model_init c = Raise e) as [e He].
  { unfold Phi4Model_init.
    destruct (Phi4Model_modules c); [simpl|by eexists].
    destruct (vision_lora c) as [v|]; [|by eexists].
    destruct (vision_pass v _); [simpl|by eexists].
    destruct Hmiss as [?| ->]; [done|by eexists]. }
  exists e. split; [done|]. unfold Model_init. by rewrite He.
Qed.

(** ** Forward calls *)

Lemma switch_adapters_no_extend im self :
  embed_tokens_extend self = None ->
  embed_tokens_extend (switch_adapters im self).1.1 = None.
Proof. intros H. destruct im; simpl; by rewrite H. Qed.

Lemma InputMode_of_unrecognized_int z :
  existsb (fun m => InputMode_value m =? z) InputMode_members = false ->
  InputMode_of (ArgInt z) = Raise (ValueError "not a valid InputMode").
Proof.
  intros Hz. unfold InputMode_of.
  destruct (List.find _ _) as [m|] eqn:Hf; [|done].
  apply List.find_some in Hf as [Hin Hm].
  assert (existsb (fun m => InputMode_value m =? z) InputMode_members = true).
  { apply existsb_exists. by exists m. }
  congruence.
Qed.

Lemma resolve_unrecognized v :
  recognized v = false ->
  resolve_input_mode v = Raise (ValueError "not a valid InputMode")
  \/ (resolve_input_mode v = Raise AssertionError
      /\ exists a, v = ArgArray a /\ length a ≠ 1%nat).
Proof.
  destruct v as [|m|z|a|s]; simpl; intros Hr; try done; try by left.
  - left. by apply InputMode_of_unrecognized_int.
  - destruct a as [|z [|z' a]]; simpl.
    + right. split; [done|]. by exists [].
    + left. by apply InputMode_of_unrecognized_int.
    + right. split; [done|]. by eexists.
Qed.

(** C8: an [input_mode] that is no member of the enumeration and no
    value of one (a missing one included) makes the call raise before
    anything else happens: the module and the caches are as before and
    the log is empty.  The exception is the [ValueError] of the
    enumeration, or the [AssertionError] of the array check; the latter
    is raised for every array that does not hold exactly one element. *)
Theorem invalid_input_mode_fails_first
    (self : Model) ids pixel_values mask cache kwargs :
  recognized (input_mode kwargs) = false ->
  exists e,
    Phi4Model_call (model self) ids pixel_values mask cache kwargs
      = mkOutcome (model self) cache [] (Raise e)
    /\ Model_call self ids pixel_values mask cache kwargs
      = mkOutcome (model self) cache [] (Raise e)
    /\ (e = ValueError "not a valid InputMode" \/ e = AssertionError)
    /\ (forall a, input_mode kwargs = ArgArray a -> length a ≠ 1%nat ->
         e = AssertionError).
Proof.
  intros Hr.
  assert (exists e, resolve_input_mode (input_mode kwargs) = Raise e
                    /\ (e = ValueError "not a valid InputMode" \/ e = AssertionError)
                    /\ (forall a, input_mode kwargs = ArgArray a ->
                         length a ≠ 1%nat -> e = AssertionError))
    as (e & He & Hkind & Harr).
  { destruct (resolve_unrecognized _ Hr) as [He|[He _]].
    - eexists. split; [done|]. split; [by left|].
      intros a Ha Hlen. rewrite Ha in He.
      destruct a as [|z [|z' a]]; simpl in *; done.
    - eexists. split; [done|]. split; [by right|done]. }
  exists e.
  assert (Phi4Model_call (model self) ids pixel_values mask cache kwargs
          = mkOutcome (model self) cache [] (Raise e)) as Hcall.
  { unfold Phi4Model_call. by rewrite He. }
  repeat split; try done.
  unfold Model_call. by rewrite Hcall.
Qed.

(** C10: on a model built without [embd_layer] every forward call with
    [pixel_values] equal to [None] raises; a call that returns a value
    was given pixel values. *)
Theorem no_extend_module_needs_pixel_values
    c (self : Model) ids pixel_values mask cache kwargs :
  embd_layer c = None ->
  Model_init c = Ok self ->
  (pixel_values = None ->
   exists e, out_value (Model_call self ids pixel_values mask cache kwargs) = Raise e)
  /\ (forall logits,
        out_value (Model_call self ids pixel_values mask cache kwargs) = Ok logits ->
        exists pv, pixel_values = Some pv).
Proof.
  intros He Hinit.
  assert (embed_tokens_extend (model self) = None) as Hnone.
  { unfold Model_init in Hinit.
    destruct (Phi4Model_init c) as [m|] eqn:Hm; [simpl in Hinit|done].
    injection Hinit as <-. simpl. by eapply Phi4Model_init_no_extend. }
  assert (pixel_values = None ->
          exists e, out_value (Model_call self ids pixel_values mask cache kwargs) = Raise e)
    as Hfail.
  { intros ->. unfold Model_call, Phi4Model_call.
    destruct (resolve_input_mode _) as [im|e]; [|by exists e].
    pose proof (switch_adapters_no_extend im _ Hnone) as Hsw.
    destruct (switch_adapters im (model self)) as [[self' log] apm]. simpl in Hsw.
    unfold embed_input. rewrite Hsw. simpl. by eexists. }
  split; [done|].
  intros logits Hok. destruct pixel_values as [pv|]; [by exists pv|].
  destruct (Hfail eq_refl) as [e Hr]. congruence.
Qed.

(** *** Adapter switching and the embedding branch *)

Lemma proj_modules_set_active t name p n w :
  (n, MLoRaLayer w) ∈ proj_modules name (set_active t p) -> active w = t.
Proof.
  destruct p as [[l|q]|w']; simpl; rewrite ?elem_of_cons, ?elem_of_nil.
  - by intros [[= _]|[]].
  - by intros [[= _]|[]].
  - destruct (base_layer w'); intros [[= _ ->]|[[= _]|[]]]; done.
Qed.

Lemma elem_of_imap_pair {A : Type} (l : list A) i x :
  (i, x) ∈ imap pair l -> l !! i = Some x.
Proof.
  intros (j & y & [= -> ->] & Hj)%elem_of_lookup_imap. done.
Qed.

(** Closes a goal whose hypothesis [H] finds an adapter layer in a list
    of modules of other kinds. *)
Ltac no_lora_among H :=
  rewrite !elem_of_cons, elem_of_nil in H;
  repeat (destruct H as [?|H]; [discriminate|]); destruct H.

Lemma adapter_layers_set_active t self w :
  w ∈ adapter_layers (map_projs (fun _ => set_active t) self) -> active w = t.
Proof.
  unfold adapter_layers. intros ([n md] & Hin & Hw)%list_elem_of_omap.
  simpl in Hw. destruct md as [| |w'|]; try done. injection Hw as ->.
  unfold named_modules, map_projs in Hin. cbn [embed_tokens_extend layers] in Hin.
  rewrite !elem_of_app in Hin.
  destruct Hin as [Hin|[Hin|[Hin|Hin]]].
  - no_lora_among Hin.
  - destruct (embed_tokens_extend self) as [e|]; simpl in Hin; [|by apply elem_of_nil in Hin].
    apply elem_of_cons in Hin as [[=]|Hin].
    apply list_elem_of_In, in_flat_map in Hin as ([n' p'] & Hp & Hin).
    apply list_elem_of_In, list_elem_of_fmap in Hp as ([n0 p0] & [= -> ->] & _).
    apply list_elem_of_In in Hin. by eapply proj_modules_set_active.
  - apply list_elem_of_In, in_flat_map in Hin as ([i b] & Hb & Hin).
    apply list_elem_of_In, elem_of_imap_pair in Hb.
    rewrite list_lookup_imap in Hb.
    destruct (layers self !! i) as [b0|]; simpl in Hb; [|done].
    injection Hb as <-.
    apply list_elem_of_In in Hin. unfold block_modules in Hin.
    cbn [self_attn mlp qkv_proj o_proj gate_up_proj down_proj] in Hin.
    rewrite !elem_of_app in Hin.
    destruct Hin as [Hin|[Hin|[Hin|[Hin|[Hin|[Hin|Hin]]]]]];
      try (by eapply proj_modules_set_active);
      no_lora_among Hin.
  - no_lora_among Hin.
Qed.

Lemma switch_adapters_self im self :
  (switch_adapters im self).1.1 = map_projs (fun _ => set_active (mode_tag im)) self.
Proof. by destruct im. Qed.

Lemma switch_adapters_mode im self :
  (im = SPEECH \/ im = LANGUAGE) -> (switch_adapters im self).2 = "speech"%string.
Proof. by intros [-> | ->]. Qed.

Lemma switch_adapters_log im self e :
  e ∈ (switch_adapters im self).1.2 -> (exists t, e = EvSetLora t) \/ e = EvUnsetLora.
Proof.
  destruct im; simpl; rewrite list_elem_of_singleton; intros ->; eauto.
Qed.

Lemma run_layers_log i ls cache h mask e :
  e ∈ (run_layers i ls cache h mask).2 -> exists j, e = EvLayer j.
Proof.
  revert i cache h. induction ls as [|l ls IH]; intros i cache h; simpl.
  - by intros ?%elem_of_nil.
  - destruct cache as [|c cache]; simpl; [by intros ?%elem_of_nil|].
    destruct (TransformerBlock_call l h mask c) as [h' c'].
    specialize (IH (S i) cache h').
    destruct (run_layers (S i) ls cache h' mask) as [[h'' cache'] evs]. simpl in *.
    intros [->|He]%elem_of_cons; eauto.
Qed.

(** The shape of a call whose mode resolves: the adapters are switched,
    the input is embedded, and the stack runs if that succeeded. *)
Lemma Phi4Model_call_resolved self ids pixel_values mask cache kwargs im :
  resolve_input_mode (input_mode kwargs) = Ok im ->
  let sw := switch_adapters im self in
  let em := embed_input sw.1.1 ids pixel_values kwargs sw.2 in
  let o := Phi4Model_call self ids pixel_values mask cache kwargs in
  out_self o = sw.1.1
  /\ match em.2 with
     | Raise e => out_log o = sw.1.2 ++ em.1 /\ out_value o = Raise e
     | Ok h =>
         let mask' := Some (default (create_attention_mask h cache) mask) in
         let r := run_layers 0 (layers sw.1.1)
                    (default (replicate (length (layers sw.1.1)) None) cache) h mask' in
         out_log o = (sw.1.2 ++ em.1) ++ r.2
         /\ out_value o = Ok (RMSNorm_call (norm self) r.1.1)
     end.
Proof.
  intros Hm. simpl. unfold Phi4Model_call. rewrite Hm.
  pose proof (switch_adapters_self im self) as Hself.
  destruct (switch_adapters im self) as [[self' log] apm]. simpl in *.
  destruct (embed_input self' ids pixel_values kwargs apm) as [evs [h|e]]; simpl; [|done].
  assert (match mask with
          | Some m => Some m
          | None => Some (create_attention_mask h cache)
          end = Some (default (create_attention_mask h cache) mask)) as ->
    by by destruct mask.
  destruct (run_layers _ _ _ _ _) as [[h' cache'] evs']. simpl.
  by rewrite Hself.
Qed.

Lemma switch_adapters_embed_tokens im self :
  embed_tokens (switch_adapters im self).1.1 = embed_tokens self.
Proof. by destruct im. Qed.

Lemma switch_adapters_extend_some im self ext :
  embed_tokens_extend self = Some ext ->
  exists ext', embed_tokens_extend (switch_adapters im self).1.1 = Some ext'.
Proof. intros H. destruct im; simpl; rewrite H; by eexists. Qed.

(** Where a fusion event of a resolved call comes from. *)
Lemma fusion_event_origin self ids pixel_values mask cache kwargs im args :
  resolve_input_mode (input_mode kwargs) = Ok im ->
  EvFusion args ∈ out_log (Phi4Model_call self ids pixel_values mask cache kwargs) ->
  EvFusion args ∈ (embed_input (switch_adapters im self).1.1 ids pixel_values kwargs
                     (switch_adapters im self).2).1.
Proof.
  intros Hm Hin.
  destruct (Phi4Model_call_resolved self ids pixel_values mask cache kwargs im Hm)
    as [_ Hcall].
  destruct (embed_input _ _ _ _ _) as [evs [h|e]]; simpl in *.
  - destruct Hcall as [Hlog _]. rewrite Hlog in Hin.
    rewrite !elem_of_app in Hin. destruct Hin as [[Hin|Hin]|Hin]; [|done|].
    + by apply switch_adapters_log in Hin as [[t [=]]|[=]].
    + by apply run_layers_log in Hin as [j [=]].
  - destruct Hcall as [Hlog _]. rewrite Hlog in Hin.
    rewrite elem_of_app in Hin. destruct Hin as [Hin|Hin]; [|done].
    by apply switch_adapters_log in Hin as [[t [=]]|[=]].
Qed.

(** C2: the mode decides the adapters and the audio projection mode.
    After a call in [VISION] or [VISION_SPEECH] mode every adapter layer
    has the active tag [vision]; after one in [SPEECH] mode, [speech];
    after one in [LANGUAGE] mode none, and an adapter layer then
    computes what its base projection computes.  In [SPEECH] and in
    [LANGUAGE] mode the multimodal embedding, when it is called, is
    given the audio embeddings of the call and the projection mode
    [speech]. *)
Theorem input_mode_selects_adapters
    self ids pixel_values mask cache kwargs im :
  resolve_input_mode (input_mode kwargs) = Ok im ->
  let o := Phi4Model_call self ids pixel_values mask cache kwargs in
  (im = VISION \/ im = VISION_SPEECH ->
   forall w, w ∈ adapter_layers (out_self o) -> active w = Some "vision"%string)
  /\ (im = SPEECH ->
      forall w, w ∈ adapter_layers (out_self o) -> active w = Some "speech"%string)
  /\ (im = LANGUAGE ->
      forall w, w ∈ adapter_layers (out_self o) ->
        active w = None
        /\ forall x, LoRaLayer_call w x = BaseLayer_call (base_layer w) x)
  /\ (im = SPEECH \/ im = LANGUAGE ->
      (forall args, EvFusion args ∈ out_log o ->
         f_audio_projection_mode args = "speech"%string
         /\ f_input_audio_embeds args = input_audio_embeds kwargs)
      /\ (forall ext, pixel_values = None -> embed_tokens_extend self = Some ext ->
          exists args, EvFusion args ∈ out_log o)).
Proof.
  intros Hm o.
  destruct (Phi4Model_call_resolved self ids pixel_values mask cache kwargs im Hm)
    as [Hself Hcall]. fold o in Hself, Hcall.
  assert (forall w, w ∈ adapter_layers (out_self o) -> active w = mode_tag im) as Hact.
  { intros w. rewrite Hself, switch_adapters_self. apply adapter_layers_set_active. }
  split; [|split; [|split]].
  - intros [-> | ->] w Hw; by rewrite (Hact w Hw).
  - intros -> w Hw. by rewrite (Hact w Hw).
  - intros -> w Hw. pose proof (Hact w Hw) as Hnone. simpl in Hnone.
    split; [done|]. intros x. unfold LoRaLayer_call, active_delta. by rewrite Hnone.
  - intros Him. split.
    + intros args Hin. apply (fusion_event_origin _ _ _ _ _ _ im) in Hin; [|done].
      rewrite (switch_adapters_mode im self Him) in Hin.
      unfold embed_input in Hin.
      destruct pixel_values; [by apply list_elem_of_singleton in Hin|].
      destruct (embed_tokens_extend _); [|by apply elem_of_nil in Hin].
      simpl in Hin. apply list_elem_of_singleton in Hin. by injection Hin as ->.
    + intros ext -> Hext.
      destruct (switch_adapters_extend_some im self ext Hext) as [ext' Hext'].
      unfold embed_input in Hcall. rewrite Hext' in Hcall. simpl in Hcall.
      eexists. destruct (Phi4MMImageAudioEmbedding_call _ _);
        destruct Hcall as [-> _]; rewrite !elem_of_app, list_elem_of_singleton; eauto.
Qed.

(** C4 (as amended): what bypasses the multimodal embedding is the
    [pixel_values] argument.  With pixel values the module is not
    called and the stack runs on the plain embedding lookup of the
    token ids; the module is called exactly on the calls without pixel
    values, and then receives the image and audio embeddings of the
    call, whether or not there are any. *)
Theorem pixel_values_decide_fusion
    self ids pixel_values mask cache kwargs im :
  resolve_input_mode (input_mode kwargs) = Ok im ->
  let o := Phi4Model_call self ids pixel_values mask cache kwargs in
  (forall pv, pixel_values = Some pv ->
     (forall args, EvFusion args ∉ out_log o)
     /\ EvEmbed ids ∈ out_log o
     /\ let h := Embedding_call (embed_tokens self) ids in
        out_value o =
          Ok (RMSNorm_call (norm self)
                (run_layers 0 (layers (out_self o))
                   (default (replicate (length (layers (out_self o))) None) cache) h
                   (Some (default (create_attention_mask h cache) mask))).1.1))
  /\ (forall args, EvFusion args ∈ out_log o ->
       pixel_values = None
       /\ f_input_ids args = ids
       /\ f_input_image_embeds args = input_image_embeds kwargs
       /\ f_input_audio_embeds args = input_audio_embeds kwargs
       /\ f_wte args = embed_tokens self)
  /\ (forall ext, pixel_values = None -> embed_tokens_extend self = Some ext ->
       exists args, EvFusion args ∈ out_log o).
Proof.
  intros Hm o.
  destruct (Phi4Model_call_resolved self ids pixel_values mask cache kwargs im Hm)
    as [Hself Hcall]. fold o in Hself, Hcall.
  assert (forall args, EvFusion args ∈ out_log o ->
       pixel_values = None
       /\ f_input_ids args = ids
       /\ f_input_image_embeds args = input_image_embeds kwargs
       /\ f_input_audio_embeds args = input_audio_embeds kwargs
       /\ f_wte args = embed_tokens self) as Hfusion.
  { intros args Hin. apply (fusion_event_origin _ _ _ _ _ _ im) in Hin; [|done].
    unfold embed_input in Hin.
    destruct pixel_values; [by apply list_elem_of_singleton in Hin|].
    destruct (embed_tokens_extend _); [|by apply elem_of_nil in Hin].
    simpl in Hin. apply list_elem_of_singleton in Hin. injection Hin as ->. simpl.
    by rewrite switch_adapters_embed_tokens. }
  split; [|split; [done|]].
  - intros pv ->. split.
    + intros args Hin. by destruct (Hfusion args Hin).
    + unfold embed_input in Hcall. simpl in Hcall.
      rewrite switch_adapters_embed_tokens in Hcall.
      destruct Hcall as [Hlog Hval]. rewrite Hself. split; [|done].
      rewrite Hlog, !elem_of_app, list_elem_of_singleton. auto.
  - intros ext -> Hext.
    destruct (switch_adapters_extend_some im self ext Hext) as [ext' Hext'].
    unfold embed_input in Hcall. rewrite Hext' in Hcall. simpl in Hcall.
    eexists. destruct (Phi4MMImageAudioEmbedding_call _ _);
      destruct Hcall as [-> _]; rewrite !elem_of_app, list_elem_of_singleton; eauto.
Qed.

(** ** The language-model head *)

(** Entry (i, o) of [x @ w.T] is the dot product of row [i] of [x] with
    row [o] of [w]. *)
Lemma matmul_T_entry (x w : mat) i o row wrow :
  x !! i = Some row -> w !! o = Some wrow ->
  matmul_T x w !! i ≫= (.!! o) = Some (dot row wrow).
Proof.
  intros Hx Hw. unfold matmul_T.
  rewrite list_lookup_fmap, Hx. simpl. by rewrite list_lookup_fmap, Hw.
Qed.

Lemma matmul_T_row_length (x w : mat) row :
  row ∈ matmul_T x w -> length row = length w.
Proof.
  unfold matmul_T. intros (r & -> & _)%list_elem_of_fmap. by rewrite length_map.
Qed.

Lemma Phi4Model_call_embed_tokens self ids pixel_values mask cache kwargs :
  embed_tokens (out_self (Phi4Model_call self ids pixel_values mask cache kwargs))
  = embed_tokens self.
Proof.
  destruct (resolve_input_mode (input_mode kwargs)) as [im|e] eqn:Hm.
  - destruct (Phi4Model_call_resolved self ids pixel_values mask cache kwargs im Hm)
      as [-> _]. apply switch_adapters_embed_tokens.
  - unfold Phi4Model_call. by rewrite Hm.
Qed.

Lemma Model_init_fields c self :
  Model_init c = Ok self ->
  m_config self = c
  /\ lm_head self =
       (if tie_word_embeddings c then None
        else Some (Linear_init (hidden_size c) (vocab_size c))).
Proof.
  unfold Model_init. destruct (Phi4Model_init c); [simpl|done].
  intros [= <-]. simpl. by destruct (tie_word_embeddings c).
Qed.

(** C7: with tied embeddings the model has no [lm_head] and the logits
    are the final hidden states times the transpose of the embedding
    table: entry (i, v) is the dot product of hidden state [i] with row
    [v] of the table.  Without tied embeddings the logits come from a
    linear projection of the model's own, from the hidden size to the
    vocabulary size. *)
Theorem lm_head_tied_or_dedicated
    c self ids pixel_values mask cache kwargs hidden :
  Model_init c = Ok self ->
  out_value (Phi4Model_call (model self) ids pixel_values mask cache kwargs) = Ok hidden ->
  let logits := out_value (Model_call self ids pixel_values mask cache kwargs) in
  (tie_word_embeddings c = true ->
     lm_head self = None
     /\ logits = Ok (matmul_T hidden (table (embed_tokens (model self))))
     /\ forall i v h e,
          hidden !! i = Some h -> table (embed_tokens (model self)) !! v = Some e ->
          exists out, logits = Ok out /\ out !! i ≫= (.!! v) = Some (dot h e))
  /\ (tie_word_embeddings c = false ->
      exists l,
        lm_head self = Some l
        /\ input_dims l = hidden_size c /\ output_dims l = vocab_size c
        /\ weight l = uniform_init (vocab_size c) (hidden_size c)
        /\ logits = Ok (matmul_T hidden (weight l))).
Proof.
  intros Hinit Hh logits.
  destruct (Model_init_fields c self Hinit) as [Hc Hl].
  assert (tie_word_embeddings c = true ->
          logits = Ok (matmul_T hidden (table (embed_tokens (model self))))) as Htied.
  { intros Ht. unfold logits, Model_call, Model_head. simpl.
    rewrite Hh, Hc, Ht, Phi4Model_call_embed_tokens. done. }
  split.
  - intros Ht. rewrite Ht in Hl. split; [done|]. split; [by apply Htied|].
    intros i v h e Hi Hv. eexists. split; [by apply Htied|].
    by apply matmul_T_entry.
  - intros Ht. rewrite Ht in Hl. eexists. split; [done|]. repeat split.
    unfold logits, Model_call, Model_head. simpl. by rewrite Hh, Hc, Ht, Hl.
Qed.

(** ** Incremental decoding through the KV cache *)

(** *** Operations that act position by position *)

Lemma map_is_fmap {A B : Type} (f : A -> B) (l : list A) : map f l = f <$> l.
Proof. done. Qed.

Lemma matmul_T_app (x y w : mat) : matmul_T (x ++ y) w = matmul_T x w ++ matmul_T y w.
Proof. unfold matmul_T. apply map_app. Qed.

Lemma matmul_T_length (x w : mat) : length (matmul_T x w) = length x.
Proof. unfold matmul_T. apply length_map. Qed.

Lemma BaseLayer_call_app b (x y : mat) :
  BaseLayer_call b (x ++ y) = BaseLayer_call b x ++ BaseLayer_call b y.
Proof. destruct b; apply matmul_T_app. Qed.

Lemma BaseLayer_call_length b (x : mat) : length (BaseLayer_call b x) = length x.
Proof. destruct b; apply matmul_T_length. Qed.

Lemma Proj_call_length p (x : mat) : length (Proj_call p x) = length x.
Proof.
  destruct p as [b|w]; simpl; [apply BaseLayer_call_length|].
  unfold LoRaLayer_call. destruct (active_delta w).
  - rewrite length_zip_with, BaseLayer_call_length, length_map. lia.
  - apply BaseLayer_call_length.
Qed.

Lemma Proj_call_app p (x y : mat) :
  Proj_call p (x ++ y) = Proj_call p x ++ Proj_call p y.
Proof.
  destruct p as [b|w]; simpl; [apply BaseLayer_call_app|].
  unfold LoRaLayer_call. destruct (active_delta w).
  - rewrite BaseLayer_call_app, map_app. apply zip_with_app.
    by rewrite BaseLayer_call_length, length_map.
  - apply BaseLayer_call_app.
Qed.

Lemma RMSNorm_call_app n (x y : mat) :
  RMSNorm_call n (x ++ y) = RMSNorm_call n x ++ RMSNorm_call n y.
Proof. apply map_app. Qed.

Lemma RMSNorm_call_length n (x : mat) : length (RMSNorm_call n x) = length x.
Proof. apply length_map. Qed.

Lemma MLP_call_app m (x y : mat) : MLP_call m (x ++ y) = MLP_call m x ++ MLP_call m y.
Proof. unfold MLP_call. by rewrite Proj_call_app, map_app, Proj_call_app. Qed.

Lemma MLP_call_length m (x : mat) : length (MLP_call m x) = length x.
Proof. unfold MLP_call. by rewrite Proj_call_length, length_map, Proj_call_length. Qed.

Lemma rope_call_length rp (x : mat) o : length (rope_call rp x o) = length x.
Proof. apply length_imap. Qed.

Lemma rope_at_length rp N (x : mat) o : length (rope_at rp N x o) = length x.
Proof. apply length_imap. Qed.

(** Rotating a window that continues another one, in the same
    sequence. *)
Lemma rope_at_app rp N (x y : mat) o :
  rope_at rp N (x ++ y) o = rope_at rp N x o ++ rope_at rp N y (o + length x).
Proof.
  unfold rope_at. rewrite imap_app. f_equal.
  apply imap_ext. intros i v _. simpl. f_equal. lia.
Qed.

(** Where the encoder rotates by position alone, a call rotates its
    window as any longer sequence would. *)
Lemma rope_call_at rp N (x : mat) o :
  length_free rp N -> (o + length x <= N)%nat -> rope_call rp x o = rope_at rp N x o.
Proof.
  intros Hfree Hlen. unfold rope_call, rope_at. apply imap_ext. intros i v _.
  by apply Hfree.
Qed.

Lemma length_free_le rp N N' : length_free rp N -> (N' <= N)%nat -> length_free rp N'.
Proof. intros Hfree Hle n m pos v Hn Hm. apply Hfree; lia. Qed.

(** *** The causal mask *)

Lemma select_causal_row {A : Type} (l : list A) k s m :
  (length l ≤ m)%nat ->
  select (map (fun j => bool_decide (j ≤ k)%nat) (seq s m)) l = take (S k - s) l.
Proof.
  revert s m. induction l as [|a l IH]; intros s m Hm.
  - rewrite take_nil. by destruct m.
  - destruct m as [|m]; simpl in Hm; [lia|]. simpl.
    rewrite IH by lia. case_bool_decide.
    + replace (S k - s)%nat with (S (S k - S s))%nat by lia. done.
    + replace (S k - s)%nat with 0%nat by lia.
      replace (S k - S s)%nat with 0%nat by lia. done.
Qed.

Lemma causal_mask_row T off i :
  (i < T)%nat ->
  create_additive_causal_mask T off !! i
  = Some (map (fun j => bool_decide (j ≤ off + i)%nat) (seq 0 (off + T))).
Proof.
  intros Hi. unfold create_additive_causal_mask.
  rewrite (map_is_fmap _ (seq 0 T)), list_lookup_fmap, lookup_seq_lt by done. done.
Qed.

(** Under the causal mask after [off] cached positions, query [i] of the
    window attends to the first [off + i + 1] keys. *)
Lemma attention_causal nh nkv (queries keys values : mat) sc off :
  (length (zip keys values) ≤ off + length queries)%nat ->
  scaled_dot_product_attention nh nkv queries keys values sc
    (Some (create_additive_causal_mask (length queries) off))
  = imap (fun i q => attend sc nh nkv q (take (S (off + i)) (zip keys values))) queries.
Proof.
  intros Hlen. unfold scaled_dot_product_attention.
  apply list_eq. intros i. rewrite !list_lookup_imap.
  destruct (queries !! i) as [q|] eqn:Hq; [simpl|done].
  apply lookup_lt_Some in Hq.
  rewrite causal_mask_row by done. simpl.
  rewrite select_causal_row by done. by rewrite Nat.sub_0_r.
Qed.

Lemma attention_causal_at nh nkv (queries keys values : mat) sc T off :
  T = length queries ->
  (length (zip keys values) ≤ off + T)%nat ->
  scaled_dot_product_attention nh nkv queries keys values sc
    (Some (create_additive_causal_mask T off))
  = imap (fun i q => attend sc nh nkv q (take (S (off + i)) (zip keys values))) queries.
Proof. intros ->. apply attention_causal. Qed.

(** One more position at the end leaves the attention of the earlier
    positions as it was, and the last position attends to everything. *)
Lemma causal_attention_snoc nh nkv sc (Q K V : mat) q k v :
  length K = length Q -> length V = length Q ->
  imap (fun i q => attend sc nh nkv q (take (S i) (zip (K ++ [k]) (V ++ [v])))) (Q ++ [q])
  = imap (fun i q => attend sc nh nkv q (take (S i) (zip K V))) Q
    ++ [attend sc nh nkv q (zip (K ++ [k]) (V ++ [v]))].
Proof.
  intros HK HV. rewrite imap_app. simpl. f_equal.
  - apply imap_ext. intros i qi Hi. apply lookup_lt_Some in Hi. simpl.
    rewrite zip_with_app by congruence.
    rewrite take_app_le; [done|]. rewrite length_zip_with. lia.
  - do 2 f_equal. apply take_ge. rewrite length_zip_with, !length_app. simpl. lia.
Qed.

(** *** One attention block, position by position *)

Lemma Attention_call_length a (x : mat) mask cache :
  length (Attention_call a x mask cache).1 = length x.
Proof.
  unfold Attention_call. destruct cache as [c|]; simpl;
    unfold scaled_dot_product_attention;
    by rewrite Proj_call_length, length_imap, rope_call_length, length_map,
         Proj_call_length.
Qed.

Lemma attn_cache_offset a (xn : mat) : offset (attn_cache a xn) = length xn.
Proof.
  unfold offset, attn_cache. simpl.
  by rewrite rope_call_length, length_map, Proj_call_length.
Qed.

Lemma Attention_call_snoc a (xs : mat) (x : vec) :
  length_free (rope a) (S (length xs)) ->
  let n := length xs in
  let prev := Attention_call a xs (Some (create_additive_causal_mask n 0)) None in
  let step := Attention_call a [x] (Some (create_additive_causal_mask 1 n))
                (Some (attn_cache a xs)) in
  Attention_call a (xs ++ [x]) (Some (create_additive_causal_mask (S n) 0)) None
  = (prev.1 ++ step.1, None)
  /\ step.2 = Some (attn_cache a (xs ++ [x])).
Proof.
  intros Hfree n prev step. subst prev step.
  unfold Attention_call, attn_cache, update_and_fetch, offset.
  cbn [fst snd cache_keys cache_values].
  set (qp := Z.to_nat (n_heads a * head_dim a)).
  set (kw := Z.to_nat (n_kv_heads a * head_dim a)).
  rewrite !(rope_call_at (rope a) (S n) _ _ Hfree)
    by (rewrite ?rope_at_length, ?rope_call_length, ?length_map, ?Proj_call_length,
          ?length_app; subst n; simpl; lia).
  rewrite !Proj_call_app, !map_app, !rope_at_app.
  set (Q := rope_at (rope a) (S n) (map (take qp) (Proj_call (qkv_proj a) xs)) 0).
  set (K := rope_at (rope a) (S n)
              (map (fun v => take kw (drop qp v)) (Proj_call (qkv_proj a) xs)) 0).
  set (V := map (drop (qp + kw)) (Proj_call (qkv_proj a) xs)).
  assert (length Q = n) as HQ
    by (subst Q; by rewrite rope_at_length, length_map, Proj_call_length).
  assert (length K = n) as HK
    by (subst K; by rewrite rope_at_length, length_map, Proj_call_length).
  assert (length V = n) as HV
    by (subst V; by rewrite length_map, Proj_call_length).
  rewrite !length_map, !Proj_call_length. fold n. rewrite HK.
  destruct (Proj_call (qkv_proj a) [x]) as [|r [|r' rs]] eqn:Hr;
    try (apply (f_equal length) in Hr; rewrite Proj_call_length in Hr; simpl in Hr; lia).
  cbn [map rope_at imap]. unfold compose.
  rewrite !Nat.add_0_l, !Nat.add_0_r.
  set (q := rope_rotate (rope a) (S n) n (take qp r)).
  set (k := rope_rotate (rope a) (S n) n (take kw (drop qp r))).
  set (v := drop (qp + kw) r).
  rewrite (attention_causal_at _ _ (Q ++ [q]) (K ++ [k]) (V ++ [v]) _ (S n) 0).
  2: { rewrite length_app. simpl. lia. }
  2: { rewrite length_zip_with, !length_app. simpl. lia. }
  rewrite (attention_causal_at _ _ Q K V _ n 0); [|done|rewrite length_zip_with; lia].
  rewrite (attention_causal_at _ _ [q] (K ++ [k]) (V ++ [v]) _ 1 n); [|done|].
  2: { rewrite length_zip_with, !length_app. simpl. lia. }
  cbn [imap Nat.add]. rewrite causal_attention_snoc by congruence.
  rewrite Proj_call_app. split; [|done].
  rewrite ?Nat.add_0_r.
  rewrite (take_ge (zip (K ++ [k]) (V ++ [v])) (S n)); [done|].
  rewrite length_zip_with, !length_app. simpl. lia.
Qed.

(** *** One transformer block and the stack *)

Lemma TransformerBlock_call_length b (x : mat) mask cache :
  length (TransformerBlock_call b x mask cache).1 = length x.
Proof.
  unfold TransformerBlock_call.
  pose proof (Attention_call_length (self_attn b)
                (RMSNorm_call (input_layernorm b) x) mask cache) as Ha.
  destruct (Attention_call _ _ _ _) as [r c]. simpl in *.
  rewrite RMSNorm_call_length in Ha.
  rewrite !length_zip_with, MLP_call_length, RMSNorm_call_length, length_zip_with. lia.
Qed.

Lemma block_full_length b (xs : mat) : length (block_full b xs) = length xs.
Proof. apply TransformerBlock_call_length. Qed.

Lemma TransformerBlock_call_snoc b (xs : mat) (x : vec) :
  length_free (rope (self_attn b)) (S (length xs)) ->
  let n := length xs in
  let step := TransformerBlock_call b [x] (Some (create_additive_causal_mask 1 n))
                (Some (block_cache b xs)) in
  TransformerBlock_call b (xs ++ [x]) (Some (create_additive_causal_mask (S n) 0)) None
  = (block_full b xs ++ step.1, None)
  /\ step.2 = Some (block_cache b (xs ++ [x])).
Proof.
  intros Hfree n step. subst n step.
  unfold block_full, block_cache, TransformerBlock_call.
  rewrite !RMSNorm_call_app.
  assert (length_free (rope (self_attn b))
            (S (length (RMSNorm_call (input_layernorm b) xs)))) as Hfree'
    by (by rewrite RMSNorm_call_length).
  pose proof (Attention_call_snoc (self_attn b) (RMSNorm_call (input_layernorm b) xs)
                (rms_norm (eps (input_layernorm b)) (norm_weight (input_layernorm b)) x)
                Hfree')
    as Hs.
  pose proof (Attention_call_length (self_attn b) (RMSNorm_call (input_layernorm b) xs)
                (Some (create_additive_causal_mask (length xs) 0)) None) as Hl.
  rewrite RMSNorm_call_length in Hs, Hl. cbv zeta in Hs.
  change (RMSNorm_call (input_layernorm b) [x])
    with [rms_norm (eps (input_layernorm b)) (norm_weight (input_layernorm b)) x].
  destruct Hs as [Hfull Hcache]. rewrite Hfull.
  destruct (Attention_call (self_attn b) (RMSNorm_call (input_layernorm b) xs)
              (Some (create_additive_causal_mask (length xs) 0)) None) as [r1 c1].
  destruct (Attention_call (self_attn b) [_]
              (Some (create_additive_causal_mask 1 (length xs))) _)
    as [r2 c2].
  cbn [fst snd] in *. subst c2. split; [|done]. f_equal.
  rewrite zip_with_app by done.
  rewrite RMSNorm_call_app, MLP_call_app.
  rewrite zip_with_app; [done|].
  by rewrite MLP_call_length, RMSNorm_call_length.
Qed.

(** The stack on a window with one more position: the earlier outputs
    are those of the window without it, and the last output is what the
    stack makes of the new position alone, given the caches of the
    earlier ones; that step leaves the caches of the longer window. *)
Lemma run_layers_snoc ls : forall i j (xs : mat) (x : vec),
  Forall (fun b => length_free (rope (self_attn b)) (S (length xs))) ls ->
  let n := length xs in
  let full := run_layers i ls (replicate (length ls) None) (xs ++ [x])
                (Some (create_additive_causal_mask (S n) 0)) in
  let prev := run_layers i ls (replicate (length ls) None) xs
                (Some (create_additive_causal_mask n 0)) in
  let step := run_layers j ls (stack_caches ls xs) [x]
                (Some (create_additive_causal_mask 1 n)) in
  full.1.1 = prev.1.1 ++ step.1.1
  /\ step.1.2 = stack_caches ls (xs ++ [x])
  /\ length step.1.1 = 1%nat.
Proof.
  induction ls as [|b bs IH]; intros i j xs x Hfree; [done|].
  apply Forall_cons in Hfree as [Hb Hbs].
  cbn [run_layers replicate length stack_caches].
  destruct (TransformerBlock_call_snoc b xs x Hb) as [Hfull Hcache].
  pose proof (TransformerBlock_call_length b [x]
                (Some (create_additive_causal_mask 1 (length xs)))
                (Some (block_cache b xs))) as Hlen.
  rewrite Hfull.
  fold (block_full b xs).
  change (TransformerBlock_call b xs
            (Some (create_additive_causal_mask (length xs) 0)) None)
    with (block_full b xs,
          (TransformerBlock_call b xs
             (Some (create_additive_causal_mask (length xs) 0)) None).2) at 1.
  destruct (TransformerBlock_call b [x] _ (Some (block_cache b xs))) as [y c] eqn:Hy.
  simpl in Hcache, Hlen. subst c.
  destruct y as [|y [|y' ys]]; simpl in Hlen; try lia.
  assert (block_full b (xs ++ [x]) = block_full b xs ++ [y]) as Hsnoc.
  { unfold block_full at 1. rewrite length_app, Nat.add_1_r. cbn [length].
    by rewrite Hfull. }
  specialize (IH (S i) (S j) (block_full b xs) y).
  rewrite block_full_length in IH. specialize (IH Hbs). cbv zeta in IH.
  cbn [fst snd].
  destruct (run_layers (S i) bs _ (block_full b xs ++ [y]) _) as [[h1 c1] e1].
  destruct (run_layers (S i) bs _ (block_full b xs) _) as [[h2 c2] e2].
  destruct (run_layers (S j) bs _ [y] _) as [[h3 c3] e3].
  cbn [fst snd] in *. destruct IH as (-> & -> & Hl).
  by rewrite Hsnoc.
Qed.

(** *** The whole model *)

Lemma set_active_idem t (p : Proj) : set_active t (set_active t p) = set_active t p.
Proof. by destruct p. Qed.

Lemma map_projs_idem f m :
  (forall n p, f n (f n p) = f n p) -> map_projs f (map_projs f m) = map_projs f m.
Proof.
  intros Hf. unfold map_projs. cbn [config embed_tokens embed_tokens_extend layers norm].
  f_equal.
  - destruct (embed_tokens_extend m) as [e|]; [|done]. simpl. do 2 f_equal.
    rewrite map_map. apply map_ext. intros [n p]. by rewrite Hf.
  - apply list_eq. intros i. rewrite !list_lookup_imap.
    destruct (layers m !! i) as [b|]; [|done]. simpl. by rewrite !Hf.
Qed.

Lemma switch_adapters_idem im self :
  switch_adapters im (switch_adapters im self).1.1 = switch_adapters im self.
Proof.
  destruct im; simpl; unfold set_lora_adapter, unset_lora_adapter;
    rewrite map_projs_idem; auto using set_active_idem.
Qed.

(** A call on the module as an earlier call in the same mode left it is
    the call on the module itself. *)
Lemma Model_call_switched self ids pixel_values mask cache kwargs im :
  resolve_input_mode (input_mode kwargs) = Ok im ->
  Model_call (set_model (switch_adapters im (model self)).1.1 self)
    ids pixel_values mask cache kwargs
  = Model_call self ids pixel_values mask cache kwargs.
Proof.
  intros Hm. unfold Model_call, Phi4Model_call. cbn [model set_model].
  by rewrite Hm, switch_adapters_idem.
Qed.



(** On the caches of [hs], the mask that a one-token call makes for
    itself is the causal mask after [length hs] positions. *)
Lemma run_layers_step_mask j ls (hs x : mat) :
  run_layers j ls (stack_caches ls hs) x
    (Some (create_attention_mask x (Some (stack_caches ls hs))))
  = run_layers j ls (stack_caches ls hs) x
      (Some (create_additive_causal_mask (length x) (length hs))).
Proof.
  destruct ls as [|b bs]; [done|].
  unfold create_attention_mask. cbn [stack_caches].
  unfold block_cache. by rewrite attn_cache_offset, RMSNorm_call_length.
Qed.

Lemma full_rows_snoc M W e p t :
  rotary_by_position M (S (length p)) ->
  full_rows M W e (p ++ [t]) = full_rows M W e p ++ step_rows M W e p t
  /\ (run_layers 0 (layers M) (stack_caches (layers M) (map e p)) [e t]
        (Some (create_additive_causal_mask 1 (length p)))).1.2
     = stack_caches (layers M) (map e (p ++ [t]))
  /\ length (step_rows M W e p t) = 1%nat.
Proof.
  intros Hfree. unfold full_rows, step_rows.
  pose proof (run_layers_snoc (layers M) 0 0 (map e p) (e t)) as Hs.
  rewrite length_map in Hs. specialize (Hs Hfree). cbv zeta in Hs.
  destruct Hs as (Hfull & Hcache & Hlen).
  rewrite map_app, length_app, Nat.add_1_r. cbn [map length].
  rewrite Hfull, RMSNorm_call_app, matmul_T_app.
  repeat split; [done|].
  by rewrite matmul_T_length, RMSNorm_call_length.
Qed.

Lemma run_layers_length ls : forall i cache (h : mat) mask,
  length (run_layers i ls cache h mask).1.1 = length h.
Proof.
  induction ls as [|b bs IH]; intros i cache h mask; [by destruct cache|].
  destruct cache as [|c cache]; [done|]. cbn [run_layers].
  pose proof (TransformerBlock_call_length b h mask c) as Hb.
  destruct (TransformerBlock_call b h mask c) as [h' c'].
  specialize (IH (S i) cache h' mask).
  destruct (run_layers (S i) bs cache h' mask) as [[h'' cache'] evs].
  cbn [fst] in *. congruence.
Qed.

Lemma full_rows_length M W e ids : length (full_rows M W e ids) = length ids.
Proof.
  unfold full_rows.
  by rewrite matmul_T_length, RMSNorm_call_length, run_layers_length, length_map.
Qed.

Lemma rotary_by_position_le M N N' :
  rotary_by_position M N -> (N' <= N)%nat -> rotary_by_position M N'.
Proof.
  unfold rotary_by_position. intros H Hle. eapply Forall_impl; [exact H|].
  intros b Hb. simpl in Hb. eapply length_free_le; eauto.
Qed.

(** The full pass over a longer sequence starts with the full pass over
    the shorter one, where the blocks rotate by position alone. *)
Lemma full_rows_prefix M W e p r :
  rotary_by_position M (length (p ++ r)) ->
  take (length p) (full_rows M W e (p ++ r)) = full_rows M W e p.
Proof.
  induction r as [|t r IH] using rev_ind; intros Hfree.
  - rewrite app_nil_r. apply take_ge. by rewrite full_rows_length.
  - rewrite app_assoc in Hfree |- *. rewrite length_app, Nat.add_1_r in Hfree.
    destruct (full_rows_snoc M W e (p ++ r) t Hfree) as (-> & _ & _).
    rewrite take_app_le; [|rewrite full_rows_length, length_app; lia].
    apply IH. eapply rotary_by_position_le; [exact Hfree|lia].
Qed.

(** What the head does, as one matrix: it holds when the head does not
    raise. *)
Lemma Model_head_matrix self emb out logits :
  Model_head self emb out = Ok logits ->
  exists W, forall out', Model_head self emb out' = Ok (matmul_T out' W).
Proof.
  unfold Model_head. destruct (tie_word_embeddings (m_config self)).
  - intros _. by exists (table emb).
  - destruct (lm_head self) as [l|]; [|done]. intros _. by exists (weight l).
Qed.

(** A full pass without mask and without cache. *)
Lemma Model_call_full self ids pixel_values kwargs im e W :
  resolve_input_mode (input_mode kwargs) = Ok im ->
  let sw := switch_adapters im (model self) in
  (embed_input sw.1.1 ids pixel_values kwargs sw.2).2 = Ok (map e ids) ->
  (forall out, Model_head self (embed_tokens sw.1.1) out = Ok (matmul_T out W)) ->
  out_value (Model_call self ids pixel_values None None kwargs)
  = Ok (full_rows sw.1.1 W e ids).
Proof.
  intros Hm sw He Hhead. unfold Model_call. cbn [out_value].
  destruct (Phi4Model_call_resolved (model self) ids pixel_values None None kwargs im Hm)
    as [Hself Hcall]. fold sw in Hself, Hcall.
  rewrite He in Hcall. cbn [default] in Hcall. destruct Hcall as [_ Hval].
  rewrite Hval, Hself. cbn [bind]. rewrite Hhead. unfold full_rows.
  unfold create_attention_mask. rewrite length_map.
  assert (norm sw.1.1 = norm (model self)) as ->
    by (subst sw; by rewrite switch_adapters_self).
  done.
Qed.

(** One decoding step on the caches of the tokens [p]. *)
Lemma Model_call_step self p t pixel_values kwargs im e W :
  resolve_input_mode (input_mode kwargs) = Ok im ->
  let sw := switch_adapters im (model self) in
  (embed_input sw.1.1 [t] pixel_values kwargs sw.2).2 = Ok [e t] ->
  (forall out, Model_head self (embed_tokens sw.1.1) out = Ok (matmul_T out W)) ->
  rotary_by_position sw.1.1 (S (length p)) ->
  let o := Model_call self [t] pixel_values None
             (Some (stack_caches (layers sw.1.1) (map e p))) kwargs in
  out_self o = sw.1.1
  /\ out_cache o = Some (stack_caches (layers sw.1.1) (map e (p ++ [t])))
  /\ out_value o = Ok (step_rows sw.1.1 W e p t).
Proof.
  intros Hm sw He Hhead Hfree o. subst o sw. unfold Model_call, Phi4Model_call.
  rewrite Hm.
  assert (norm (switch_adapters im (model self)).1.1 = norm (model self)) as Hnorm
    by (by rewrite switch_adapters_self).
  destruct (full_rows_snoc (switch_adapters im (model self)).1.1 W e p t Hfree)
    as (_ & Hcache & _). clear Hfree.
  unfold step_rows. rewrite <- Hcache. clear Hcache.
  destruct (switch_adapters im (model self)) as [[S' log] apm]. cbn [fst snd] in *.
  destruct (embed_input S' [t] pixel_values kwargs apm) as [evs h]. cbn [snd] in He.
  subst h. change (default ?d (Some ?c)) with c.
  rewrite run_layers_step_mask, length_map. cbn [length].
  destruct (run_layers 0 (layers S') _ [e t] _) as [[h c] evs'].
  cbn [out_self out_cache out_value fst snd bind]. by rewrite Hhead.
Qed.

(** Decoding the tokens [r] on the caches of the tokens [p] gives, step
    by step, the rows of the full pass over [p ++ r] that follow those
    of [p], where the blocks rotate by position alone. *)
Lemma decode_rows self pixel_values kwargs im e W :
  resolve_input_mode (input_mode kwargs) = Ok im ->
  let sw := switch_adapters im (model self) in
  (forall ts, (embed_input sw.1.1 ts pixel_values kwargs sw.2).2 = Ok (map e ts)) ->
  (forall out, Model_head self (embed_tokens sw.1.1) out = Ok (matmul_T out W)) ->
  forall r p,
    rotary_by_position sw.1.1 (length (p ++ r)) ->
    decode (set_model sw.1.1 self) (stack_caches (layers sw.1.1) (map e p)) r
      pixel_values kwargs
    = map (fun row => Ok [row]) (drop (length p) (full_rows sw.1.1 W e (p ++ r))).
Proof.
  intros Hm sw He Hhead r. induction r as [|t r IH]; intros p Hfree.
  - rewrite app_nil_r, drop_ge; [done|]. by rewrite full_rows_length.
  - cbn [decode]. subst sw. rewrite Model_call_switched by done.
    assert (rotary_by_position (switch_adapters im (model self)).1.1 (S (length p)))
      as Hstep.
    { eapply rotary_by_position_le; [exact Hfree|]. rewrite length_app. simpl. lia. }
    assert (rotary_by_position (switch_adapters im (model self)).1.1
              (length ((p ++ [t]) ++ r))) as Hrest.
    { by rewrite <- app_assoc. }
    destruct (Model_call_step self p t pixel_values kwargs im e W Hm (He [t]) Hhead
                Hstep)
      as (Hself & Hcache & Hval).
    rewrite Hself, Hcache, Hval. change (default ?d (Some ?c)) with c.
    change (set_model ?m (set_model ?m' self)) with (set_model m self).
    rewrite (IH (p ++ [t]) Hrest).
    destruct (full_rows_snoc (switch_adapters im (model self)).1.1 W e p t Hstep)
      as (Hsnoc & _ & Hlen).
    destruct (step_rows _ W e p t) as [|row [|row' rows]] eqn:Hrow;
      simpl in Hlen; try lia.
    rewrite <- app_assoc. cbn [app].
    pose proof (full_rows_prefix (switch_adapters im (model self)).1.1 W e
                  (p ++ [t]) r Hrest) as Hpre.
    rewrite <- app_assoc in Hpre. cbn [app] in Hpre.
    rewrite Hsnoc, length_app, Nat.add_1_r in Hpre. cbn [length] in Hpre.
    rewrite length_app, Nat.add_1_r. cbn [length].
    assert (full_rows (switch_adapters im (model self)).1.1 W e (p ++ t :: r)
              !! length p = Some row) as Hlook.
    { rewrite <- (lookup_take_lt _ (S (length p))) by lia. rewrite Hpre.
      rewrite lookup_app_r by (rewrite full_rows_length; lia).
      by rewrite full_rows_length, Nat.sub_diag. }
    by rewrite (drop_S _ _ _ Hlook).
Qed.

Lemma rotary_by_position_map_projs f m N :
  rotary_by_position m N -> rotary_by_position (map_projs f m) N.
Proof.
  unfold rotary_by_position, map_projs. cbn [layers]. rewrite !Forall_lookup.
  intros H i b'. rewrite list_lookup_imap.
  destruct (layers m !! i) as [b|] eqn:Hb; [|done]. intros [= <-].
  cbn [self_attn rope]. by apply (H i b).
Qed.

Lemma rotary_by_position_switch im m N :
  rotary_by_position m N -> rotary_by_position (switch_adapters im m).1.1 N.
Proof. rewrite switch_adapters_self. apply rotary_by_position_map_projs. Qed.


(** ** The adapter passes of the constructor *)

Lemma linears_proj_modules n p : linears (proj_modules n p) = [visited (n, p)].
Proof. by destruct p as [[l|q]|[[l|q] ads act]]. Qed.

Lemma linears_app ms1 ms2 : linears (ms1 ++ ms2) = linears ms1 ++ linears ms2.
Proof. apply omap_app. Qed.

Lemma linears_block_modules i b :
  linears (block_modules i b) = map visited (block_sites i b).
Proof.
  unfold block_modules, block_sites.
  rewrite !linears_app, !linears_proj_modules. done.
Qed.

(** The linear modules that a pass visits are those of the sites. *)
Lemma linears_named_modules m : linears (named_modules m) = map visited (sites m).
Proof.
  unfold named_modules, sites, ext_sites. rewrite !linears_app, map_app.
  change (linears [(""%string, MOther); ("embed_tokens"%string, MOther)]) with
    (@nil (string * BaseLayer)).
  change (linears [("norm"%string, MOther)]) with (@nil (string * BaseLayer)).
  rewrite app_nil_l, app_nil_r. f_equal.
  - destruct (embed_tokens_extend m) as [e|]; [|done].
    change (linears (?x :: ?l)) with (linears l).
    induction (ext_projs e) as [|[n p] l IH]; [done|].
    cbn [flat_map map]. by rewrite linears_app, linears_proj_modules, IH.
  - induction (imap pair (layers m)) as [|[i b] l IH]; [done|].
    cbn [flat_map]. by rewrite linears_app, map_app, linears_block_modules, IH.
Qed.

Lemma lora_loop_linears lora tag rename ms self :
  lora_loop lora tag rename ms self = lora_lin lora tag rename (linears ms) self.
Proof.
  revert self. induction ms as [|[n md] ms IH]; intros self; [done|].
  destruct md as [l|q|w|]; cbn [lora_loop linears omap]; simpl;
    try apply IH;
    destruct (lora_step _ _ _ _ _ _); simpl; auto.
Qed.

Lemma lora_step_present lora tag rename self n b pattern a :
  lora !! "layer"%string = Some (PStr pattern) ->
  adapter_of lora = Some a ->
  lora_step lora tag rename self n b
  = Ok (if re_match pattern n
        then set_module_by_name self (rename n) (mkLoRa b [(tag, a)] None)
        else self).
Proof.
  intros Hl Ha. unfold lora_step, getitem. rewrite Hl. simpl.
  destruct (re_match pattern n); [|done].
  unfold adapter_of in Ha.
  destruct (lora !! "r"%string) as [r|]; [simpl in *|done].
  destruct (lora !! "lora_alpha"%string) as [al|]; [simpl in *|done].
  destruct (lora !! "dp"%string) as [dp|]; [simpl in *|done].
  by injection Ha as <-.
Qed.

Lemma imap_pair_imap {A B : Type} (g : nat -> A -> B) (l : list A) :
  imap pair (imap g l) = map (fun ib => (ib.1, g ib.1 ib.2)) (imap pair l).
Proof.
  apply list_eq. intros i.
  rewrite map_is_fmap, list_lookup_fmap, !list_lookup_imap.
  by destruct (l !! i).
Qed.

Lemma sites_map_projs f m :
  sites (map_projs f m) = map (fun np => (np.1, f np.1 np.2)) (sites m).
Proof.
  unfold sites, ext_sites, map_projs. cbn [embed_tokens_extend layers]. rewrite map_app. f_equal.
  - destruct (embed_tokens_extend m) as [e|]; [|done]. simpl.
    rewrite !map_map. apply map_ext. by intros [n p].
  - rewrite imap_pair_imap.
    induction (imap pair (layers m)) as [|[i b] l IH]; [done|].
    cbn [map flat_map]. rewrite map_app, IH. done.
Qed.

Lemma sites_set_module_by_name m name w :
  sites (set_module_by_name m name w)
  = map (fun np => (np.1, if String.eqb np.1 name then Wrapped w else np.2)) (sites m).
Proof. apply sites_map_projs. Qed.

(** The sites after the loop of a pass. *)
Lemma lora_lin_sites lora tag rename pattern a vs : forall self,
  lora !! "layer"%string = Some (PStr pattern) ->
  adapter_of lora = Some a ->
  exists self',
    lora_lin lora tag rename vs self = Ok self'
    /\ sites self'
       = map (fun np => (np.1, apply_updates pattern tag a rename vs np.1 np.2))
             (sites self).
Proof.
  induction vs as [|[vn b] vs IH]; intros self Hl Ha.
  - exists self. split; [done|]. cbn [apply_updates].
    rewrite <- (map_id (sites self)) at 1. apply map_ext. by intros [n p].
  - cbn [lora_lin apply_updates]. rewrite (lora_step_present _ _ _ _ _ _ _ _ Hl Ha).
    cbn [bind].
    destruct (IH (if re_match pattern vn
                  then set_module_by_name self (rename vn) (mkLoRa b [(tag, a)] None)
                  else self) Hl Ha) as (self' & Hrun & Hsites).
    exists self'. split; [done|]. rewrite Hsites.
    destruct (re_match pattern vn); cbn [andb].
    + rewrite sites_set_module_by_name, map_map. done.
    + done.
Qed.

Lemma apply_updates_untargeted pattern tag a rename vs n p :
  Forall (fun v => rename v.1 ≠ n) vs ->
  apply_updates pattern tag a rename vs n p = p.
Proof.
  revert p. induction vs as [|[vn b] vs IH]; intros p Hvs; [done|].
  apply Forall_cons in Hvs as [Hv Hvs]. cbn [apply_updates]. simpl in Hv.
  rewrite IH by done.
  destruct (String.eqb n (rename vn)) eqn:He; [|by rewrite andb_false_r].
  apply String.eqb_eq in He. congruence.
Qed.

(** When every site is found again from the name under which its linear
    module is visited, a pass changes a site only for its own module. *)
Lemma apply_updates_own pattern tag a rename (L : list (string * Proj)) n p p' :
  NoDup (map fst L) ->
  (forall np, np ∈ L -> rename (visited np).1 = np.1) ->
  (n, p) ∈ L ->
  apply_updates pattern tag a rename (map visited L) n p'
  = if re_match pattern (visited (n, p)).1
    then Wrapped (mkLoRa (visited (n, p)).2 [(tag, a)] None)
    else p'.
Proof.
  revert p'. induction L as [|[n1 p1] L IH]; intros p' Hnd Hrn Hin.
  - by apply elem_of_nil in Hin.
  - cbn [map] in Hnd. apply NoDup_cons in Hnd as [Hn1 Hnd].
    cbn [map apply_updates].
    destruct (visited (n1, p1)) as [vn1 b1] eqn:Hv1.
    pose proof (Hrn (n1, p1) (list_elem_of_here _ _)) as Hr1.
    rewrite Hv1 in Hr1. simpl in Hr1.
    apply elem_of_cons in Hin as [[= -> ->]|Hin].
    + rewrite Hr1, String.eqb_refl, andb_true_r.
      rewrite apply_updates_untargeted.
      * by rewrite Hv1.
      * apply Forall_forall. intros v (np & -> & Hnp)%list_elem_of_fmap.
        rewrite (Hrn np) by (by apply list_elem_of_further).
        intros Heq. apply Hn1. rewrite <- Heq.
        apply list_elem_of_fmap. by exists np.
    + assert (n ≠ n1) as Hne.
      { intros ->. apply Hn1. apply list_elem_of_fmap. by exists (n1, p). }
      assert (String.eqb n (rename vn1) = false) as ->.
      { rewrite Hr1. by apply String.eqb_neq. }
      rewrite andb_false_r. apply IH; [done| |done].
      intros np Hnp. apply Hrn. by apply list_elem_of_further.
Qed.

(** The sites after the loop of a pass over the whole module tree. *)
Lemma lora_loop_sites lora tag rename pattern a self self' :
  lora !! "layer"%string = Some (PStr pattern) ->
  adapter_of lora = Some a ->
  NoDup (map fst (sites self)) ->
  (forall np, np ∈ sites self -> rename (visited np).1 = np.1) ->
  lora_loop lora tag rename (named_modules self) self = Ok self' ->
  sites self'
  = map (fun np =>
           (np.1,
            if re_match pattern (visited np).1
            then Wrapped (mkLoRa (visited np).2 [(tag, a)] None)
            else np.2))
        (sites self).
Proof.
  intros Hl Ha Hnd Hrn Hloop.
  rewrite lora_loop_linears, linears_named_modules in Hloop.
  destruct (lora_lin_sites lora tag rename pattern a (map visited (sites self)) self Hl Ha)
    as (self'' & Hrun & Hsites).
  rewrite Hrun in Hloop. injection Hloop as <-. rewrite Hsites.
  apply map_ext_in. intros [n p] Hin%list_elem_of_In. cbn [fst snd]. f_equal.
  by apply apply_updates_own.
Qed.

Lemma echo_lora_adapter lora :
  echo_lora lora = Ok tt -> exists a, adapter_of lora = Some a.
Proof.
  unfold echo_lora, adapter_of, getitem.
  destruct (lora !! "r"%string); [simpl|done].
  destruct (lora !! "lora_alpha"%string); [simpl|done].
  destruct (lora !! "layer"%string); [simpl|done].
  destruct (lora !! "dp"%string); [simpl|done]. by eexists.
Qed.

Lemma pass_inv lora tag rename self self' :
  (self1 <- lora_loop lora tag rename (named_modules self) self ;;
   _ <- echo_lora lora ;; Ok self1) = Ok self' ->
  lora_loop lora tag rename (named_modules self) self = Ok self'
  /\ exists a, adapter_of lora = Some a.
Proof.
  destruct (lora_loop _ _ _ _ _) as [self1|]; [simpl|done].
  destruct (echo_lora lora) as [[]|] eqn:He; [simpl|done].
  intros [= <-]. split; [done|]. by apply echo_lora_adapter.
Qed.

(** *** The sites of a network as built

    The index of a block is written in decimal digits, which sets the
    names of the sites of the blocks apart and keeps [.base_layer] out
    of them. *)
Lemma pretty_N_go_numeral x s : numeral s = true -> numeral (pretty_N_go x s) = true.
Proof.
  revert s. induction (N.lt_wf_0 x) as [x _ IH]; intros s Hs.
  assert (x = 0 ∨ 0 < x)%N as [->|?] by lia.
  - by rewrite pretty_N_go_0.
  - rewrite pretty_N_go_step by done. apply IH.
    { by apply N.div_lt. }
    simpl. rewrite Hs, andb_true_r.
    unfold pretty_N_char. by repeat case_match.
Qed.

Lemma pretty_nat_numeral (i : nat) : numeral (pretty i) = true.
Proof.
  unfold pretty, pretty_nat, pretty, pretty_N.
  case_decide; [done|]. by apply pretty_N_go_numeral.
Qed.

Lemma append_cons c (s t : string) : String c s +:+ t = String c (s +:+ t).
Proof. reflexivity. Qed.

Lemma append_assoc (a b c : string) : (a +:+ b) +:+ c = a +:+ (b +:+ c).
Proof. induction a as [|x a IH]; [done|]. by rewrite !append_cons, IH. Qed.

Lemma numeral_split d1 d2 r1 r2 :
  numeral d1 = true -> numeral d2 = true ->
  d1 +:+ String "." r1 = d2 +:+ String "." r2 -> d1 = d2 /\ r1 = r2.
Proof.
  revert d2. induction d1 as [|c d1 IH]; intros [|c' d2];
    rewrite ?append_cons; change (EmptyString +:+ ?x) with x; simpl.
  - by intros _ _ [= ->].
  - intros _ [H _]%andb_true_iff [= <- _]. done.
  - intros [H _]%andb_true_iff _ [= -> _]. done.
  - intros [_ H1]%andb_true_iff [_ H2]%andb_true_iff [= -> He].
    destruct (IH _ H1 H2 He) as [-> ->]. done.
Qed.

Lemma replace_from_no_prefix old new c s :
  String.prefix old (String c s) = false ->
  replace_from old new 0 (String c s) = String c (replace_from old new 0 s).
Proof. intros H. cbn [replace_from]. by rewrite H. Qed.

Lemma replace_numeral d r :
  numeral d = true ->
  replace_from ".base_layer" "" 0 (d +:+ r) = d +:+ replace_from ".base_layer" "" 0 r.
Proof.
  induction d as [|c d IH]; [done|]. simpl numeral. intros [Hc Hd]%andb_true_iff.
  rewrite !append_cons, replace_from_no_prefix, IH; [done..|].
  cbn [String.prefix]. destruct (ascii_dec "." c) as [<-|]; done.
Qed.

Lemma prefix_numeral d r :
  numeral d = true -> String.prefix "base_layer" (d +:+ String "." r) = false.
Proof.
  destruct d as [|c d]; [done|]. simpl numeral. intros [Hc _]%andb_true_iff.
  rewrite append_cons.
  cbn [String.prefix]. destruct (ascii_dec "b" c) as [<-|]; done.
Qed.

Lemma proj_suffixes_dot suf : suf ∈ proj_suffixes -> exists r, suf = String "." r.
Proof.
  unfold proj_suffixes. rewrite !elem_of_cons, elem_of_nil.
  intros [->|[->|[->|[->|[]]]]]; by eexists.
Qed.

Lemma block_name_plain i suf :
  suf ∈ proj_suffixes ->
  str_replace ".base_layer" "" (block_name i suf) = block_name i suf
  /\ str_replace ".base_layer" "" (block_name i suf +:+ ".base_layer") = block_name i suf.
Proof.
  intros Hsuf.
  assert (replace_from ".base_layer" "" 0 suf = suf
          /\ replace_from ".base_layer" "" 0 (suf +:+ ".base_layer") = suf)
    as (H1 & H2).
  { unfold proj_suffixes in Hsuf. rewrite !elem_of_cons, elem_of_nil in Hsuf.
    destruct Hsuf as [->|[->|[->|[->|[]]]]]; split; reflexivity. }
  destruct (proj_suffixes_dot _ Hsuf) as [r Hr].
  pose proof (pretty_nat_numeral i) as Hd.
  unfold str_replace, block_name.
  change ("layers." +:+ ?x) with (String "l" (String "a" (String "y" (String "e"
            (String "r" (String "s" (String "." x))))))).
  rewrite !append_cons, append_assoc.
  rewrite !(replace_from_no_prefix _ _ "l"), !(replace_from_no_prefix _ _ "a"),
    !(replace_from_no_prefix _ _ "y"), !(replace_from_no_prefix _ _ "e"),
    !(replace_from_no_prefix _ _ "r"), !(replace_from_no_prefix _ _ "s") by done.
  rewrite !(replace_from_no_prefix _ _ "."), !(replace_numeral (pretty i)), H1, H2;
    try done.
  - cbn [String.prefix]. destruct (ascii_dec "." "."); [|done].
    rewrite Hr, append_cons. by apply prefix_numeral.
  - cbn [String.prefix]. destruct (ascii_dec "." "."); [|done].
    rewrite Hr. by apply prefix_numeral.
Qed.

Lemma block_name_inj i j s t :
  s ∈ proj_suffixes -> t ∈ proj_suffixes ->
  block_name i s = block_name j t -> i = j /\ s = t.
Proof.
  intros [r ->]%proj_suffixes_dot [r' ->]%proj_suffixes_dot. unfold block_name.
  intros [= He].
  apply numeral_split in He as [Hp ->]; auto using pretty_nat_numeral.
  by apply (inj pretty) in Hp as ->.
Qed.

Lemma block_sites_names i b : map fst (block_sites i b) = map (block_name i) proj_suffixes.
Proof. reflexivity. Qed.

Lemma map_flat_map {A B C} (f : B -> C) (g : A -> list B) l :
  map f (flat_map g l) = flat_map (fun x => map f (g x)) l.
Proof. induction l as [|x l IH]; [done|]. simpl. by rewrite map_app, IH. Qed.

Lemma flat_map_bind {A B} (f : A -> list B) l : flat_map f l = l ≫= f.
Proof. induction l as [|x l IH]; [done|]. simpl. by rewrite IH. Qed.

Lemma elem_of_block_names (ls : list TransformerBlock) n :
  n ∈ map fst (flat_map (fun '(i, b) => block_sites i b) (imap pair ls)) ->
  exists i suf, suf ∈ proj_suffixes /\ n = block_name i suf.
Proof.
  rewrite map_flat_map, flat_map_bind, list_elem_of_bind.
  intros ([i b] & Hn & Hib). apply elem_of_lookup_imap in Hib as (j & b' & [= -> ->] & Hj).
  rewrite block_sites_names in Hn. apply list_elem_of_fmap in Hn as (suf & -> & Hsuf).
  by exists j, suf.
Qed.

Lemma block_names_NoDup (ls : list TransformerBlock) :
  NoDup (map fst (flat_map (fun '(i, b) => block_sites i b) (imap pair ls))).
Proof.
  rewrite map_flat_map, flat_map_bind. apply NoDup_bind.
  - intros [i b] [j b'] n Hi Hj Hn Hn'.
    apply elem_of_lookup_imap in Hi as (i' & x & [= -> ->] & Hi).
    apply elem_of_lookup_imap in Hj as (j' & y & [= -> ->] & Hj).
    rewrite block_sites_names in Hn, Hn'.
    apply list_elem_of_fmap in Hn as (s & -> & Hs).
    apply list_elem_of_fmap in Hn' as (t & He & Ht).
    apply block_name_inj in He as [-> _]; [|done..]. congruence.
  - intros [i b] _. rewrite block_sites_names. apply NoDup_fmap_2_strong.
    + intros s t Hs Ht He. by apply block_name_inj in He as [_ ->].
    + unfold proj_suffixes. apply (bool_decide_unpack _). vm_compute. exact I.
  - apply NoDup_alt. intros i j [k b] Hi Hj.
    rewrite list_lookup_imap in Hi, Hj.
    destruct (ls !! i); [|done]. destruct (ls !! j); [|done].
    simpl in Hi, Hj. congruence.
Qed.

Lemma Attention_init_bare c a :
  Attention_init c = Ok a ->
  exists q o, qkv_proj a = Bare (BLinear q) /\ o_proj a = Bare (BLinear o).
Proof.
  unfold Attention_init. intros H.
  repeat match type of H with
         | context [bind ?r _] => destruct r; cbn [bind] in H; [|discriminate H]
         end.
  injection H as <-. by eexists _, _.
Qed.

Lemma TransformerBlock_init_bare c b i :
  TransformerBlock_init c = Ok b -> bare_sites (block_sites i b).
Proof.
  unfold TransformerBlock_init.
  destruct (Attention_init c) as [a|] eqn:Ha; [|done]. cbn [bind].
  destruct (Attention_init_bare _ _ Ha) as (q & o & Hq & Ho).
  intros [= <-] n p. unfold block_sites, MLP_init.
  cbn [self_attn mlp gate_up_proj down_proj]. rewrite Hq, Ho.
  rewrite !elem_of_cons, elem_of_nil.
  intros [[= _ ->]|[[= _ ->]|[[= _ ->]|[[= _ ->]|[]]]]]; by eexists.
Qed.

Lemma build_layers_bare c n : forall bs,
  build_layers c n = Ok bs -> forall i j b, bs !! j = Some b -> bare_sites (block_sites i b).
Proof.
  induction n as [|n IH]; intros bs; simpl.
  - by intros [= <-] i j b.
  - destruct (TransformerBlock_init c) as [b0|] eqn:Hb; [|done]. cbn [bind].
    destruct (build_layers c n) as [bs0|]; [|done]. cbn [bind].
    intros [= <-] i [|j] b; simpl.
    + intros [= <-]. by eapply TransformerBlock_init_bare.
    + by apply IH.
Qed.

Lemma Phi4Model_modules_layers c m :
  Phi4Model_modules c = Ok m ->
  build_layers c (Z.to_nat (num_hidden_layers c)) = Ok (layers m).
Proof.
  unfold Phi4Model_modules. intros H.
  repeat match type of H with
         | context [bind ?r _] => destruct r; cbn [bind] in H; [|discriminate H]
         end.
  by injection H as <-.
Qed.

(** What the constructor builds itself is plain: the sites of the blocks
    hold plain projections ... *)
Lemma modules_bare_sites c m :
  Phi4Model_modules c = Ok m -> bare_sites (ext_sites m) -> bare_sites (sites m).
Proof.
  intros Hm%Phi4Model_modules_layers Hext n p. unfold sites. rewrite elem_of_app.
  intros [Hin|Hin]; [by eapply Hext|].
  rewrite flat_map_bind in Hin. apply list_elem_of_bind in Hin as ([i b] & Hin & Hib).
  apply elem_of_lookup_imap in Hib as (j & b' & [= -> ->] & Hj).
  by eapply build_layers_bare.
Qed.

(** ... under names that are pairwise different and free of
    [.base_layer]. *)
Lemma modules_plain_names m : plain_names (ext_sites m) -> plain_names (sites m).
Proof.
  intros [Hnd Hplain]. unfold plain_names, sites. rewrite map_app. split.
  - apply NoDup_app. split; [done|]. split; [|apply block_names_NoDup].
    intros n Hext (i & suf & _ & ->)%elem_of_block_names.
    unfold ext_sites in Hext. destruct (embed_tokens_extend m) as [e|]; [|by inv Hext].
    rewrite map_map in Hext. apply list_elem_of_fmap in Hext as ([n' p] & He & _).
    discriminate He.
  - intros n [Hn|Hn]%elem_of_app; [by apply Hplain|].
    apply elem_of_block_names in Hn as (i & suf & Hsuf & ->).
    by apply block_name_plain.
Qed.

(** C3 (as amended): the constructor runs the vision pass and then the
    speech pass.  When the projections that the multimodal embedding
    brings are plain, under names that are pairwise different and free
    of [.base_layer], the vision pass wraps exactly the projections
    whose name matches the vision pattern, each in an adapter layer that
    holds the vision delta.  The speech pass then visits a plain projection under its
    name and a wrapped one under its name followed by [.base_layer]:
    where that name matches the speech pattern the site ends up with an
    adapter layer around the same projection that holds the speech
    delta, elsewhere the site is left as the vision pass made it.  After
    a forward call every adapter layer has the active tag of the mode,
    so at most one, and none in [LANGUAGE] mode. *)
Theorem adapter_passes_attach c m0 m pv ps :
  Phi4Model_modules c = Ok m0 ->
  Phi4Model_init c = Ok m ->
  vision_lora c ≫= (.!! "layer"%string) = Some (PStr pv) ->
  speech_lora c ≫= (.!! "layer"%string) = Some (PStr ps) ->
  bare_sites (ext_sites m0) ->
  plain_names (ext_sites m0) ->
  exists m1 v s av asp,
    vision_lora c = Some v /\ speech_lora c = Some s
    /\ vision_pass v m0 = Ok m1 /\ speech_pass s m1 = Ok m
    /\ adapter_of v = Some av /\ adapter_of s = Some asp
    /\ (forall n b, (n, Bare b) ∈ sites m0 ->
          exists p1 p2,
            (n, p1) ∈ sites m1 /\ (n, p2) ∈ sites m
            /\ p1 = (if re_match pv n
                     then Wrapped (mkLoRa b [("vision"%string, av)] None)
                     else Bare b)
            /\ (re_match ps (visited (n, p1)).1 = true ->
                exists w, p2 = Wrapped w /\ base_layer w = b
                          /\ assoc "speech" (adapters w) = Some asp)
            /\ (re_match ps (visited (n, p1)).1 = false -> p2 = p1))
    /\ (forall ids pixel_values mask cache kwargs im,
          resolve_input_mode (input_mode kwargs) = Ok im ->
          forall w,
            w ∈ adapter_layers
                  (out_self (Phi4Model_call m ids pixel_values mask cache kwargs)) ->
            active w = mode_tag im).
Proof.
  intros H0 Hinit Hpv Hps Hbare Hext.
  apply (modules_bare_sites _ _ H0) in Hbare.
  apply modules_plain_names in Hext as [Hnd Hplain].
  unfold Phi4Model_init in Hinit. rewrite H0 in Hinit. cbn [bind] in Hinit.
  destruct (vision_lora c) as [v|]; [|done]. simpl in Hpv.
  destruct (vision_pass v m0) as [m1|] eqn:Hv; [|done]. cbn [bind] in Hinit.
  destruct (speech_lora c) as [s|]; [|done]. simpl in Hps.
  pose proof Hv as Hvp. apply pass_inv in Hvp as [Hvloop [av Hav]].
  pose proof Hinit as Hs. apply pass_inv in Hs as [Hsloop [asp Hasp]].
  assert (sites m1
          = map (fun np =>
                   (np.1,
                    if re_match pv (visited np).1
                    then Wrapped (mkLoRa (visited np).2 [("vision"%string, av)] None)
                    else np.2))
                (sites m0)) as Hsites1.
  { eapply lora_loop_sites; eauto.
    intros [n p] Hin. destruct (Hbare n p Hin) as [b ->]. done. }
  assert (map fst (sites m1) = map fst (sites m0)) as Hnames.
  { rewrite Hsites1, map_map. done. }
  assert (sites m
          = map (fun np =>
                   (np.1,
                    if re_match ps (visited np).1
                    then Wrapped (mkLoRa (visited np).2 [("speech"%string, asp)] None)
                    else np.2))
                (sites m1)) as Hsites2.
  { eapply lora_loop_sites; eauto; [by rewrite Hnames|].
    intros [n p] Hin.
    assert (n ∈ map fst (sites m0)) as Hn.
    { rewrite <- Hnames. apply list_elem_of_fmap. by exists (n, p). }
    destruct (Hplain n Hn) as [Hn1 Hn2].
    unfold visited. cbn [fst snd]. by destruct p. }
  exists m1, v, s, av, asp. repeat split; try done.
  - intros n b Hin.
    set (p1 := if re_match pv n
               then Wrapped (mkLoRa b [("vision"%string, av)] None)
               else Bare b).
    assert ((n, p1) ∈ sites m1) as Hin1.
    { rewrite Hsites1. apply list_elem_of_fmap. by exists (n, Bare b). }
    assert ((visited (n, p1)).2 = b) as Hbase.
    { subst p1. by destruct (re_match pv n). }
    exists p1,
      (if re_match ps (visited (n, p1)).1
       then Wrapped (mkLoRa (visited (n, p1)).2 [("speech"%string, asp)] None)
       else p1).
    split; [done|]. split.
    { rewrite Hsites2. apply list_elem_of_fmap. by exists (n, p1). }
    split; [done|]. split.
    + intros ->. eexists. split; [done|]. split; [done|]. done.
    + by intros ->.
  - intros ids pixel_values mask cache kwargs im Hm w.
    destruct (Phi4Model_call_resolved m ids pixel_values mask cache kwargs im Hm)
      as [-> _].
    rewrite switch_adapters_self. apply adapter_layers_set_active.
Qed.

Lemma bare_sites_check_sound ss : bare_sites_check ss = true -> bare_sites ss.
Proof.
  unfold bare_sites_check, bare_sites. rewrite forallb_forall.
  intros Hall n p Hin%list_elem_of_In. specialize (Hall _ Hin). simpl in Hall.
  destruct p as [b|w]; [by exists b|done].
Qed.

Lemma plain_names_check_sound ss : plain_names_check ss = true -> plain_names ss.
Proof.
  unfold plain_names_check, plain_names. rewrite andb_true_iff, forallb_forall.
  intros [Hnd Hall]. split; [by apply bool_decide_eq_true in Hnd|].
  intros n Hin%list_elem_of_In. specialize (Hall _ Hin).
  apply andb_true_iff in Hall as [H1 H2]. by rewrite !String.eqb_eq in *.
Qed.

(** ** Further properties of the configuration and of [Attention.__init__] *)

Lemma resolve_kv_heads_kv c :
  num_key_value_heads (resolve_kv_heads c)
  = Some (default (num_attention_heads c) (num_key_value_heads c)).
Proof. unfold resolve_kv_heads. by destruct (num_key_value_heads c) eqn:E. Qed.

Lemma resolve_kv_heads_idem c : resolve_kv_heads (resolve_kv_heads c) = resolve_kv_heads c.
Proof. unfold resolve_kv_heads. by destruct (num_key_value_heads c) eqn:E; rewrite ?E. Qed.

(** What [__post_init__] leaves in [rope_scaling]: nothing that counts as
    true, or a descriptor with both required keys and a supported type. *)
Lemma post_init_inv c c' w :
  post_init c = Ok (c', w) ->
  resolve_kv_heads c' = c'
  /\ num_key_value_heads c' = Some (default (num_attention_heads c) (num_key_value_heads c))
  /\ (c' = resolve_kv_heads c \/ c' = set_rope_scaling None (resolve_kv_heads c))
  /\ (truthy (rope_scaling c') = false
      \/ exists d ty,
           rope_scaling c' = Some d /\ d ≠ ∅ /\ d !! "type"%string = Some ty
           /\ str_in ty ["longrope"; "su"; "linear"]%string = true
           /\ is_Some (d !! "long_factor"%string)).
Proof.
  unfold post_init.
  assert (resolve_kv_heads (set_rope_scaling None (resolve_kv_heads c))
          = set_rope_scaling None (resolve_kv_heads c)) as Hnone.
  { by rewrite resolve_kv_heads_set_rope_scaling, resolve_kv_heads_idem. }
  destruct (truthy (rope_scaling (resolve_kv_heads c))) eqn:Ht.
  - destruct (rope_scaling (resolve_kv_heads c)) as [d|] eqn:Hd; [|done].
    destruct (forallb (contains d) required_keys) eqn:Hall; [|done]. cbn [ensure bind].
    simpl in Hall. apply andb_true_iff in Hall as [Hl Hty].
    apply andb_true_iff in Hty as [Hty _]. apply contains_true in Hl, Hty.
    destruct Hty as [ty Hty]. unfold getitem. rewrite Hty. cbn [bind].
    destruct (str_in ty _) eqn:Hin; cbn [negb]; intros [= <- <-].
    + split; [apply resolve_kv_heads_idem|]. split; [apply resolve_kv_heads_kv|].
      split; [by left|]. right. exists d, ty. repeat split; try done.
      intros ->. by rewrite lookup_empty in Hty.
    + split; [done|]. split; [apply resolve_kv_heads_kv|]. split; [by right|]. by left.
  - intros [= <- <-]. split; [apply resolve_kv_heads_idem|].
    split; [apply resolve_kv_heads_kv|]. split; [by left|]. by left.
Qed.

(** X1: [__post_init__] is idempotent: run again on the configuration it
    returned, it returns that configuration unchanged and prints
    nothing. *)
Theorem post_init_idempotent c c' w :
  post_init c = Ok (c', w) -> post_init c' = Ok (c', []).
Proof.
  intros (Hkv & _ & _ & Hrs)%post_init_inv. unfold post_init. rewrite Hkv.
  destruct Hrs as [->|(d & ty & Hd & Hne & Hty & Hin & Hlf)]; [done|].
  rewrite Hd, (truthy_nonempty d Hne).
  assert (forallb (contains d) required_keys = true) as ->.
  { simpl. rewrite !andb_true_iff. repeat split; apply contains_true; [done|].
    rewrite Hty. by eexists. }
  cbn [ensure bind]. unfold getitem. rewrite Hty. cbn [bind]. by rewrite Hin.
Qed.

(** The steps of [Attention.__init__] before the rotary encoder. *)
Lemma Attention_init_inv c a :
  Attention_init c = Ok a ->
  exists kv hf r,
    num_key_value_heads c = Some kv
    /\ num_attention_heads c ≠ 0
    /\ hidden_size c / num_attention_heads c ≠ 0
    /\ float_of_int (hidden_size c / num_attention_heads c) = Ok hf
    /\ Attention_rope c (hidden_size c / num_attention_heads c) = Ok r
    /\ a = mkAttention (num_attention_heads c) kv
             (hidden_size c / num_attention_heads c) (float_pow hf (-0.5)%float)
             (Bare (BLinear
                (Linear_init (hidden_size c)
                   (num_attention_heads c * (hidden_size c / num_attention_heads c)
                    + 2 * (kv * (hidden_size c / num_attention_heads c))))))
             (Bare (BLinear
                (Linear_init
                   (num_attention_heads c * (hidden_size c / num_attention_heads c))
                   (hidden_size c))))
             r.
Proof.
  unfold Attention_init, floordiv.
  destruct (num_key_value_heads c) as [kv|]; [cbn [bind]|done].
  destruct (num_attention_heads c =? 0) eqn:Hn; [done|cbn [bind]].
  destruct (hidden_size c / num_attention_heads c =? 0) eqn:Hd; [done|cbn [negb ensure bind]].
  destruct (float_of_int _) as [hf|]; [cbn [bind]|done].
  destruct (Attention_rope _ _) as [r|]; [cbn [bind]|done].
  intros [= <-]. exists kv, hf, r. repeat split; try done; by apply Z.eqb_neq.
Qed.

(** X2: in an attention block built from a configuration that went
    through [__post_init__], the number of key/value heads is the
    configured one, or the number of query heads when none was
    configured; the head dimension is the floor quotient of the hidden
    size by the number of heads and is not zero, and the two projections
    have the dimensions that the split of [__call__] assumes. *)
Theorem validated_config_attention_geometry c c' w a :
  post_init c = Ok (c', w) ->
  Attention_init c' = Ok a ->
  n_heads a = num_attention_heads c
  /\ n_kv_heads a = default (num_attention_heads c) (num_key_value_heads c)
  /\ head_dim a = hidden_size c / num_attention_heads c
  /\ head_dim a ≠ 0
  /\ exists q o,
       qkv_proj a = Bare (BLinear q) /\ o_proj a = Bare (BLinear o)
       /\ input_dims q = hidden_size c
       /\ output_dims q
          = n_heads a * head_dim a + n_kv_heads a * head_dim a + n_kv_heads a * head_dim a
       /\ input_dims o = n_heads a * head_dim a
       /\ output_dims o = hidden_size c.
Proof.
  intros (_ & Hkv & Hc' & _)%post_init_inv
         (kv & hf & r & Hkv' & Hn & Hd & _ & _ & ->)%Attention_init_inv.
  rewrite Hkv in Hkv'. injection Hkv' as <-.
  assert (hidden_size c' = hidden_size c /\ num_attention_heads c' = num_attention_heads c)
    as [Hh Hnh].
  { destruct Hc' as [->| ->]; unfold resolve_kv_heads;
      by destruct (num_key_value_heads c). }
  rewrite Hh, Hnh in *. cbn [n_heads n_kv_heads head_dim qkv_proj o_proj].
  repeat split; try done.
  eexists _, _. repeat split. cbn [output_dims Linear_init]. lia.
Qed.

Lemma float_of_int_raise z e : float_of_int z = Raise e -> e = OverflowError.
Proof. unfold float_of_int. destruct (binary_normalize _ _ _ _ _); congruence. Qed.

Lemma int_of_float_raise f e :
  int_of_float f = Raise e ->
  e = OverflowError \/ e = ValueError "cannot convert float NaN to integer".
Proof. unfold int_of_float. destruct (Prim2SF f); intros [= <-]; auto. Qed.

(** The only keys that [Attention.__init__] can miss in a descriptor that
    has [type] and [long_factor]. *)
Lemma Attention_rope_key_error c hd d ty k :
  rope_scaling c = Some d -> d ≠ ∅ ->
  d !! "type"%string = Some ty -> is_Some (d !! "long_factor"%string) ->
  Attention_rope c hd = Raise (KeyError k) ->
  (k = "short_factor"%string /\ str_in ty ["longrope"; "su"]%string = true
   /\ d !! "short_factor"%string = None)
  \/ (k = "factor"%string /\ ty = PStr "linear" /\ d !! "factor"%string = None).
Proof.
  intros Hd Hne Hty [lf Hlf]. unfold Attention_rope, int_mul_float.
  destruct (float_of_int hd) as [x|e] eqn:Hx; cbn [bind];
    [|by apply float_of_int_raise in Hx as ->].
  destruct (int_of_float _) as [dims|e] eqn:Hi; cbn [bind];
    [|by apply int_of_float_raise in Hi as [-> | ->]].
  rewrite Hd, (truthy_nonempty d Hne). unfold getitem. rewrite Hty. cbn [bind].
  destruct (str_in ty ["longrope"; "su"]%string) eqn:Hsu.
  - destruct (d !! "short_factor"%string) eqn:Hsf; cbn [bind]; [by rewrite Hlf|].
    intros [= <-]. by left.
  - destruct (str_in ty ["linear"]%string) eqn:Hlin; cbn [bind]; [|done].
    destruct (d !! "factor"%string) as [fac|] eqn:Hfac; cbn [bind].
    + destruct fac as [| | |f|]; cbn [bind]; try done.
      unfold float_inv. by destruct (f =? 0)%float.
    + intros [= <-]. right. repeat split; try done.
      destruct ty as [|s| | |]; try done. simpl in Hlin.
      apply bool_decide_eq_true, list_elem_of_singleton in Hlin. by subst.
Qed.

(** X3: after [__post_init__], the only [KeyError]s left for
    [Attention.__init__] are [short_factor], for the [su] and [longrope]
    types, and [factor], for the [linear] type: the keys that
    [__post_init__] does not require. *)
Theorem validated_config_key_errors c c' w k :
  post_init c = Ok (c', w) ->
  Attention_init c' = Raise (KeyError k) ->
  exists d ty,
    rope_scaling c' = Some d /\ d !! "type"%string = Some ty /\ d !! k = None
    /\ ((k = "short_factor"%string /\ str_in ty ["longrope"; "su"]%string = true)
        \/ (k = "factor"%string /\ ty = PStr "linear")).
Proof.
  intros (_ & Hkv & _ & Hrs)%post_init_inv. unfold Attention_init, floordiv.
  rewrite Hkv. cbn [bind].
  destruct (num_attention_heads c' =? 0); [done|cbn [bind]].
  destruct (negb _); [cbn [ensure bind]|done].
  destruct (float_of_int _) as [hf|e] eqn:Hx; cbn [bind];
    [|by apply float_of_int_raise in Hx as ->].
  destruct (Attention_rope c' _) as [r|e] eqn:Hr; cbn [bind]; [done|].
  intros [= ->].
  destruct Hrs as [Hf|(d & ty & Hd & Hne & Hty & Hin & Hlf)].
  - exfalso. revert Hr. unfold Attention_rope, int_mul_float.
    destruct (float_of_int _) as [x|e] eqn:Hx'; cbn [bind];
      [|by apply float_of_int_raise in Hx' as ->].
    destruct (int_of_float _) as [dims|e] eqn:Hi; cbn [bind];
      [|by apply int_of_float_raise in Hi as [-> | ->]].
    by rewrite Hf.
  - exists d, ty.
    destruct (Attention_rope_key_error _ _ _ _ _ Hd Hne Hty Hlf Hr)
      as [(-> & Hsu & Hnone)|(-> & -> & Hnone)]; repeat split; auto.
Qed.

(** X4: with a descriptor of type [linear] the attention block is built
    only when [factor] is present, is a float and is not zero; the
    rotary encoder is then the plain one with scale [1 / factor]. *)
Theorem linear_rope_scaling_needs_float_factor c d a :
  rope_scaling c = Some d ->
  d !! "type"%string = Some (PStr "linear") ->
  Attention_init c = Ok a ->
  exists f dims,
    d !! "factor"%string = Some (PFloat f)
    /\ (f =? 0)%float = false
    /\ rope a = RoPE dims (rope_traditional c) (rope_theta c) (1 / f)%float.
Proof.
  intros Hd Hty (kv & hf & r & _ & _ & _ & _ & Hr & ->)%Attention_init_inv.
  cbn [rope]. revert Hr. unfold Attention_rope.
  destruct (int_mul_float _ _) as [x|]; cbn [bind]; [|done].
  destruct (int_of_float x) as [dims|]; cbn [bind]; [|done].
  rewrite Hd, (truthy_some d _ _ Hty). unfold getitem. rewrite Hty. cbn [bind].
  change (str_in (PStr "linear") ["longrope"; "su"]%string) with false.
  change (str_in (PStr "linear") ["linear"]%string) with true. cbn iota.
  destruct (d !! "factor"%string) as [[| | |f|]|]; cbn [bind]; try done.
  unfold float_inv. destruct (f =? 0)%float eqn:Hf; [done|]. cbn [bind].
  intros [= <-]. by exists f, dims.
Qed.

(** X5: an empty [rope_scaling] dictionary counts as absent:
    [__post_init__] accepts it without looking for keys and leaves it in
    place, and the attention block gets the plain rotary encoder with
    scale 1.0. *)
Theorem empty_rope_scaling_is_ignored c :
  rope_scaling c = Some ∅ ->
  post_init c = Ok (resolve_kv_heads c, [])
  /\ forall a, Attention_init c = Ok a ->
       exists dims, rope a = RoPE dims (rope_traditional c) (rope_theta c) 1.
Proof.
  intros Hd. split.
  - unfold post_init. by rewrite resolve_kv_heads_rope_scaling, Hd.
  - intros a (kv & hf & r & _ & _ & _ & _ & Hr & ->)%Attention_init_inv.
    cbn [rope]. revert Hr. unfold Attention_rope.
    destruct (int_mul_float _ _) as [x|]; cbn [bind]; [|done].
    destruct (int_of_float x) as [dims|]; cbn [bind]; [|done].
    rewrite Hd. cbn. intros [= <-]. by exists dims.
Qed.

(** X6: [Attention.__init__] divides by the number of heads and raises
    the head dimension to a negative power: with no head, or with a
    hidden size smaller than the number of heads, it fails with
    [ZeroDivisionError], and so does the constructor of the transformer
    block; a network with at least one block and no multimodal embedding
    then fails in the same way, before the adapter settings are looked
    at. *)
Theorem attention_zero_division c kv :
  num_key_value_heads c = Some kv ->
  num_attention_heads c = 0 \/ 0 <= hidden_size c < num_attention_heads c ->
  Attention_init c = Raise ZeroDivisionError
  /\ TransformerBlock_init c = Raise ZeroDivisionError
  /\ (0 < vocab_size c -> embd_layer c = None -> 0 < num_hidden_layers c ->
      Phi4Model_init c = Raise ZeroDivisionError).
Proof.
  intros Hkv Hz.
  assert (Attention_init c = Raise ZeroDivisionError) as Ha.
  { unfold Attention_init, floordiv. rewrite Hkv. cbn [bind].
    destruct Hz as [->|Hsmall]; [done|].
    destruct (num_attention_heads c =? 0); [done|cbn [bind]].
    by rewrite Z.div_small. }
  assert (TransformerBlock_init c = Raise ZeroDivisionError) as Hb.
  { unfold TransformerBlock_init. by rewrite Ha. }
  repeat split; [done..|].
  intros Hv He Hn. unfold Phi4Model_init, Phi4Model_modules.
  assert ((0 <? vocab_size c) = true) as -> by lia. rewrite He. cbn [ensure bind].
  destruct (Z.to_nat (num_hidden_layers c)) as [|n] eqn:Hl; [lia|].
  cbn [build_layers]. by rewrite Hb.
Qed.

(** ** Further properties of the constructors *)

(** X7: the constructor checks the vocabulary size first, and reads
    [embedding_cls] from [embd_layer] before it builds the multimodal
    embedding: a vocabulary size that is not positive fails with
    [AssertionError], whatever else the configuration holds, and an
    [embd_layer] dictionary without [embedding_cls] fails with
    [KeyError]. *)
Theorem construction_preconditions c :
  (vocab_size c <= 0 ->
   Phi4Model_init c = Raise AssertionError /\ Model_init c = Raise AssertionError)
  /\ (forall d, 0 < vocab_size c -> embd_layer c = Some d ->
        d !! "embedding_cls"%string = None ->
        Phi4Model_init c = Raise (KeyError "embedding_cls")
        /\ Model_init c = Raise (KeyError "embedding_cls")).
Proof.
  split.
  - intros Hv.
    assert (Phi4Model_init c = Raise AssertionError) as H.
    { unfold Phi4Model_init, Phi4Model_modules.
      by assert ((0 <? vocab_size c) = false) as -> by lia. }
    split; [done|]. unfold Model_init. by rewrite H.
  - intros d Hv Hd Hk.
    assert (Phi4Model_init c = Raise (KeyError "embedding_cls")) as H.
    { unfold Phi4Model_init, Phi4Model_modules.
      assert ((0 <? vocab_size c) = true) as -> by lia.
      rewrite Hd. unfold getitem. by rewrite Hk. }
    split; [done|]. unfold Model_init. by rewrite H.
Qed.

(** What every adapter pass keeps: whatever replacing projections
    keeps. *)
Lemma lora_loop_preserves (P : Phi4Model -> Prop) lora tag rename modules :
  (forall f m, P m -> P (map_projs f m)) ->
  forall self m, P self -> lora_loop lora tag rename modules self = Ok m -> P m.
Proof.
  intros HP. induction modules as [|[name module] rest IH]; intros self m Hself; simpl.
  - by intros [= <-].
  - assert (forall b self', lora_step lora tag rename self name b = Ok self' -> P self')
      as Hstep.
    { intros b self'. unfold lora_step.
      destruct (getitem lora "layer") as [[| pattern | | |]|]; simpl; try done.
      destruct (re_match pattern name); [|by intros [= <-]].
      destruct (getitem lora "r"); [simpl|done].
      destruct (getitem lora "lora_alpha"); [simpl|done].
      destruct (getitem lora "dp"); [simpl|done].
      intros [= <-]. by apply HP. }
    destruct module as [l|q|w|]; simpl; try by apply IH.
    + destruct (lora_step _ _ _ _ _ (BLinear l)) as [self'|] eqn:Hs; [simpl|done].
      apply IH. by eapply Hstep.
    + destruct (lora_step _ _ _ _ _ (BQuantized q)) as [self'|] eqn:Hs; [simpl|done].
      apply IH. by eapply Hstep.
Qed.

Lemma build_layers_length c n bs : build_layers c n = Ok bs -> length bs = n.
Proof.
  revert bs. induction n as [|n IH]; intros bs; simpl; [by intros [= <-]|].
  destruct (TransformerBlock_init c); [cbn [bind]|done].
  destruct (build_layers c n) as [bs0|]; [cbn [bind]|done].
  intros [= <-]. simpl. by rewrite (IH bs0).
Qed.

Lemma frame_map_projs f m : frame (map_projs f m) = frame m.
Proof. unfold frame, map_projs. cbn. by rewrite length_imap. Qed.

Lemma Phi4Model_init_frame c m :
  Phi4Model_init c = Ok m ->
  0 < vocab_size c
  /\ frame m = (c, Embedding_init (vocab_size c) (hidden_size c),
                RMSNorm_init (hidden_size c) (rms_norm_eps c),
                Z.to_nat (num_hidden_layers c)).
Proof.
  unfold Phi4Model_init.
  destruct (Phi4Model_modules c) as [m0|] eqn:H0; [cbn [bind]|done].
  assert (0 < vocab_size c
          /\ frame m0 = (c, Embedding_init (vocab_size c) (hidden_size c),
                         RMSNorm_init (hidden_size c) (rms_norm_eps c),
                         Z.to_nat (num_hidden_layers c))) as [Hv H0'].
  { revert H0. unfold Phi4Model_modules.
    destruct (0 <? vocab_size c) eqn:Hv; [cbn [ensure bind]|done].
    destruct (match embd_layer c with Some _ => _ | None => _ end); [cbn [bind]|done].
    destruct (build_layers _ _) as [ls|] eqn:Hl; [cbn [bind]|done].
    intros [= <-]. split; [lia|]. unfold frame. cbn.
    by rewrite (build_layers_length _ _ _ Hl). }
  destruct (vision_lora c) as [v|]; [|done]. unfold vision_pass, speech_pass.
  destruct (lora_loop v _ _ _ _) as [m1|] eqn:H1; [cbn [bind]|done].
  destruct (echo_lora v); [cbn [bind]|done].
  destruct (speech_lora c) as [sp|]; [|done].
  destruct (lora_loop sp _ _ _ _) as [m2|] eqn:H2; [cbn [bind]|done].
  destruct (echo_lora sp); [cbn [bind]|done].
  intros [= <-]. split; [done|]. rewrite <- H0'.
  apply (lora_loop_preserves (fun m => frame m = frame m0)) in H1;
    [|intros; by rewrite frame_map_projs|done].
  apply (lora_loop_preserves (fun m => frame m = frame m0)) in H2;
    [done|intros; by rewrite frame_map_projs|done].
Qed.

(** X8: a model that was built has as many transformer blocks as
    [num_hidden_layers] says (none when that is negative), the token
    embedding and the final norm of the configured sizes, and a positive
    vocabulary size: the adapter passes change none of these. *)
Theorem constructed_model_shape c self :
  Model_init c = Ok self ->
  m_model_type self = model_type c
  /\ m_config self = c
  /\ config (model self) = c
  /\ length (Model_layers self) = Z.to_nat (num_hidden_layers c)
  /\ embed_tokens (model self) = Embedding_init (vocab_size c) (hidden_size c)
  /\ norm (model self) = RMSNorm_init (hidden_size c) (rms_norm_eps c)
  /\ 0 < vocab_size c.
Proof.
  unfold Model_init.
  destruct (Phi4Model_init c) as [m|] eqn:Hm; [cbn [bind]|done].
  intros [= <-]. apply Phi4Model_init_frame in Hm as [Hv Hf].
  unfold frame in Hf. injection Hf as Hc He Hn Hl.
  unfold Model_layers. cbn. by repeat split.
Qed.

Lemma echo_lora_keys lora :
  echo_lora lora = Ok tt ->
  Forall (fun k => is_Some (lora !! k)) ["r"; "lora_alpha"; "layer"; "dp"]%string.
Proof.
  unfold echo_lora, getitem.
  destruct (lora !! "r"%string) eqn:H1; [cbn [bind]|done].
  destruct (lora !! "lora_alpha"%string) eqn:H2; [cbn [bind]|done].
  destruct (lora !! "layer"%string) eqn:H3; [cbn [bind]|done].
  destruct (lora !! "dp"%string) eqn:H4; [cbn [bind]|done].
  intros _. repeat constructor; by eexists.
Qed.

(** A pass over a network with at least one block needs a string as
    [layer]. *)
Lemma lora_loop_pattern lora tag rename self self' :
  layers self ≠ [] ->
  lora_loop lora tag rename (named_modules self) self = Ok self' ->
  exists pattern, lora !! "layer"%string = Some (PStr pattern).
Proof.
  intros Hne. rewrite lora_loop_linears, linears_named_modules.
  destruct (map visited (sites self)) as [|[n b] vs] eqn:Hvs.
  - exfalso. apply map_eq_nil in Hvs. unfold sites in Hvs.
    apply app_eq_nil in Hvs as [_ Hvs].
    destruct (layers self) as [|b bs]; [done|]. discriminate Hvs.
  - cbn [lora_lin]. unfold lora_step, getitem.
    destruct (lora !! "layer"%string) as [[| pattern | | |]|]; cbn [bind]; try done.
    intros _. by exists pattern.
Qed.

(** X9: a model is built only from a configuration whose [vision_lora]
    and [speech_lora] dictionaries both hold the four entries [r],
    [lora_alpha], [layer] and [dp]; when the network has a transformer
    block, both [layer] entries are strings. *)
Theorem construction_needs_complete_lora_config c m :
  Phi4Model_init c = Ok m ->
  exists v s,
    vision_lora c = Some v /\ speech_lora c = Some s
    /\ Forall (fun k => is_Some (v !! k) /\ is_Some (s !! k))
         ["r"; "lora_alpha"; "layer"; "dp"]%string
    /\ (0 < num_hidden_layers c ->
        exists pv ps,
          v !! "layer"%string = Some (PStr pv) /\ s !! "layer"%string = Some (PStr ps)).
Proof.
  unfold Phi4Model_init.
  destruct (Phi4Model_modules c) as [m0|] eqn:H0; [cbn [bind]|done].
  destruct (vision_lora c) as [v|]; [|done]. unfold vision_pass, speech_pass.
  destruct (lora_loop v _ _ _ _) as [m1|] eqn:H1; [cbn [bind]|done].
  destruct (echo_lora v) as [[]|] eqn:Hev; [cbn [bind]|done].
  destruct (speech_lora c) as [sp|]; [|done].
  destruct (lora_loop sp _ _ _ _) as [m2|] eqn:H2; [cbn [bind]|done].
  destruct (echo_lora sp) as [[]|] eqn:Hes; [cbn [bind]|done].
  intros _. exists v, sp. repeat split.
  - apply echo_lora_keys in Hev, Hes. rewrite Forall_forall in *. intros k Hk.
    split; [by apply Hev|by apply Hes].
  - intros Hn.
    assert (length (layers m0) = Z.to_nat (num_hidden_layers c)) as Hl0.
    { apply Phi4Model_modules_layers in H0. by apply build_layers_length in H0. }
    assert (length (layers m1) = length (layers m0)) as Hl1.
    { apply (lora_loop_preserves (fun m => frame m = frame m0)) in H1;
        [|intros; by rewrite frame_map_projs|done].
      unfold frame in H1. by injection H1. }
    apply lora_loop_pattern in H1 as [pv Hpv].
    2:{ intros E. rewrite E in Hl0. simpl in Hl0. lia. }
    apply lora_loop_pattern in H2 as [ps Hps].
    2:{ intros E. rewrite E in Hl1. simpl in Hl1. lia. }
    by exists pv, ps.
Qed.

(** ** Further properties of the forward call *)

Lemma run_layers_events ls : forall i cache (h : mat) mask,
  (run_layers i ls cache h mask).2
  = map EvLayer (seq i (min (length ls) (length cache))).
Proof.
  induction ls as [|b bs IH]; intros i cache h mask; [by destruct cache|].
  destruct cache as [|c cache]; [done|]. cbn [run_layers length].
  destruct (TransformerBlock_call b h mask c) as [h' c'].
  specialize (IH (S i) cache h' mask).
  destruct (run_layers (S i) bs cache h' mask) as [[h'' cache'] evs].
  cbn [snd] in *. rewrite IH. by rewrite <- Nat.succ_min_distr.
Qed.

Lemma map_projs_layers_length f m : length (layers (map_projs f m)) = length (layers m).
Proof. unfold map_projs. cbn [layers]. by rewrite length_imap. Qed.

Lemma switch_adapters_layers_length im self :
  length (layers (switch_adapters im self).1.1) = length (layers self).
Proof. rewrite switch_adapters_self. apply map_projs_layers_length. Qed.

(** A call that returned a value had a mode. *)
Lemma Phi4Model_call_value_mode self ids pixel_values mask cache kwargs out :
  out_value (Phi4Model_call self ids pixel_values mask cache kwargs) = Ok out ->
  exists im, resolve_input_mode (input_mode kwargs) = Ok im.
Proof.
  unfold Phi4Model_call.
  destruct (resolve_input_mode (input_mode kwargs)) as [im|e]; [by exists im|done].
Qed.

(** The index of the block that an event reports, if any. *)
Lemma layer_events_switch im self :
  omap (fun e => match e with EvLayer i => Some i | _ => None end)
       (switch_adapters im self).1.2 = [].
Proof. by destruct im. Qed.

Lemma layer_events_embed self ids pixel_values kwargs apm :
  omap (fun e => match e with EvLayer i => Some i | _ => None end)
       (embed_input self ids pixel_values kwargs apm).1 = [].
Proof.
  unfold embed_input. destruct pixel_values; [done|].
  by destruct (embed_tokens_extend self).
Qed.

Lemma layer_events_layers l :
  omap (fun e => match e with EvLayer i => Some i | _ => None end) (map EvLayer l) = l.
Proof. induction l as [|i l IH]; [done|]. simpl. f_equal. exact IH. Qed.

(** X10: the loop over [zip(self.layers, cache)] stops with the shorter
    list.  A call that returns runs the first blocks only, in order and
    once each: all of them without a cache list, as many as the cache
    list has entries otherwise.  With an empty cache list no block runs
    and the call returns the normalised embeddings. *)
Theorem cache_list_bounds_the_blocks_run
    self ids pixel_values mask cache kwargs out :
  let o := Phi4Model_call self ids pixel_values mask cache kwargs in
  out_value o = Ok out ->
  omap (fun e => match e with EvLayer i => Some i | _ => None end) (out_log o)
  = seq 0 (match cache with
           | Some cs => min (length (layers self)) (length cs)
           | None => length (layers self)
           end)
  /\ (forall pv, pixel_values = Some pv -> cache = Some [] ->
        out = RMSNorm_call (norm self) (Embedding_call (embed_tokens self) ids)).
Proof.
  intros o Hout. destruct (Phi4Model_call_value_mode _ _ _ _ _ _ _ Hout) as [im Hm].
  destruct (Phi4Model_call_resolved self ids pixel_values mask cache kwargs im Hm)
    as [_ Hres]. fold o in Hres.
  destruct (embed_input _ _ _ _ _).2 as [h|e] eqn:Hem.
  2:{ destruct Hres as [_ Hv]. congruence. }
  cbn zeta in Hres. destruct Hres as [Hlog Hv]. split.
  - rewrite Hlog, !omap_app, layer_events_switch, layer_events_embed.
    rewrite run_layers_events, layer_events_layers, switch_adapters_layers_length.
    cbn [app]. f_equal. destruct cache as [cs|]; cbn [default]; [done|].
    rewrite length_replicate. lia.
  - intros pv -> ->. rewrite Hv in Hout. injection Hout as <-.
    cbn [default]. unfold embed_input in Hem. cbn [snd] in Hem. injection Hem as <-.
    rewrite switch_adapters_embed_tokens.
    by destruct (layers (switch_adapters im self).1.1).
Qed.

(** X11: on the token path the logits have one row per input token,
    whatever the mask and the caches, and every row has one entry per
    row of the matrix of the head: the embedding table with tied
    embeddings, the weight of [lm_head] otherwise. *)
Theorem logits_shape self ids pv mask cache kwargs logits :
  out_value (Model_call self ids (Some pv) mask cache kwargs) = Ok logits ->
  length logits = length ids
  /\ exists W,
       (if tie_word_embeddings (m_config self)
        then W = table (embed_tokens (model self))
        else exists l, lm_head self = Some l /\ W = weight l)
       /\ forall row, row ∈ logits -> length row = length W.
Proof.
  unfold Model_call. cbn [out_value].
  destruct (out_value (Phi4Model_call _ _ _ _ _ _)) as [out|] eqn:Hout; [cbn [bind]|done].
  rewrite Phi4Model_call_embed_tokens.
  destruct (Phi4Model_call_value_mode _ _ _ _ _ _ _ Hout) as [im Hm].
  destruct (Phi4Model_call_resolved (model self) ids (Some pv) mask cache kwargs im Hm)
    as [_ Hres].
  cbn [embed_input snd] in Hres. cbn zeta in Hres. destruct Hres as [_ Hv].
  rewrite Hv in Hout. injection Hout as <-.
  assert (forall W, length (matmul_T
                      (RMSNorm_call (norm (model self))
                         (run_layers 0 (layers (switch_adapters im (model self)).1.1)
                            (default
                               (replicate
                                  (length (layers (switch_adapters im (model self)).1.1))
                                  None) cache)
                            (Embedding_call
                               (embed_tokens (switch_adapters im (model self)).1.1) ids)
                            (Some (default
                                     (create_attention_mask
                                        (Embedding_call
                                           (embed_tokens
                                              (switch_adapters im (model self)).1.1) ids)
                                        cache) mask))).1.1) W) = length ids) as Hlen.
  { intros W. rewrite matmul_T_length, RMSNorm_call_length, run_layers_length.
    unfold Embedding_call. by rewrite length_map. }
  unfold Model_head. destruct (tie_word_embeddings (m_config self)).
  - intros [= <-]. split; [apply Hlen|]. eexists. split; [done|].
    intros row. unfold as_linear. apply matmul_T_row_length.
  - destruct (lm_head self) as [l|]; [|done]. intros [= <-].
    split; [apply Hlen|]. exists (weight l). split; [by exists l|].
    intros row. unfold Linear_call. apply matmul_T_row_length.
Qed.

(** X12: the model is causal where its blocks rotate by the absolute
    position alone.  Without cache and without mask, on the token path,
    the logits of the first tokens of a sequence are then the logits of
    these tokens alone: what follows a position has no effect on it. *)
Theorem logits_of_a_prefix self p r pv kwargs logits :
  rotary_by_position (model self) (length (p ++ r)) ->
  out_value (Model_call self (p ++ r) (Some pv) None None kwargs) = Ok logits ->
  out_value (Model_call self p (Some pv) None None kwargs)
  = Ok (take (length p) logits).
Proof.
  intros Hfree Hfull.
  assert (exists im, resolve_input_mode (input_mode kwargs) = Ok im) as [im Hm].
  { revert Hfull. unfold Model_call. cbn [out_value].
    destruct (out_value (Phi4Model_call _ _ _ _ _ _)) as [out|] eqn:Hout; [|done].
    intros _. by eapply Phi4Model_call_value_mode. }
  assert (exists W, forall out,
             Model_head self (embed_tokens (switch_adapters im (model self)).1.1) out
             = Ok (matmul_T out W)) as [W HW].
  { revert Hfull. unfold Model_call. cbn [out_value].
    destruct (out_value (Phi4Model_call _ _ _ _ _ _)) as [out|]; [cbn [bind]|done].
    rewrite Phi4Model_call_embed_tokens, switch_adapters_embed_tokens.
    apply Model_head_matrix. }
  set (e := fun t : Z =>
              default [] (table (embed_tokens (switch_adapters im (model self)).1.1)
                          !! Z.to_nat t)).
  rewrite (Model_call_full self (p ++ r) (Some pv) kwargs im e W Hm eq_refl HW) in Hfull.
  injection Hfull as <-.
  rewrite (Model_call_full self p (Some pv) kwargs im e W Hm eq_refl HW).
  rewrite full_rows_prefix; [done|]. by apply rotary_by_position_switch.
Qed.

(** ** Caches, adapters and weights in a forward call *)

Lemma Attention_call_cache a (x : mat) mask c :
  exists c', (Attention_call a x mask (Some c)).2 = Some c'
             /\ offset c' = (offset c + length x)%nat.
Proof.
  unfold Attention_call. cbn. eexists. split; [done|].
  unfold offset. cbn.
  by rewrite length_app, rope_call_length, length_map, Proj_call_length.
Qed.

Lemma TransformerBlock_call_cache b (x : mat) mask c :
  exists c', (TransformerBlock_call b x mask (Some c)).2 = Some c'
             /\ offset c' = (offset c + length x)%nat.
Proof.
  unfold TransformerBlock_call.
  destruct (Attention_call_cache (self_attn b) (RMSNorm_call (input_layernorm b) x) mask c)
    as (c' & Hc & Ho).
  destruct (Attention_call _ _ _ _) as [r c'']. cbn [snd] in *.
  exists c'. split; [done|]. by rewrite Ho, RMSNorm_call_length.
Qed.

Lemma run_layers_offsets ls : forall i cache (h : mat) mask n,
  Forall (fun c => exists k, c = Some k /\ offset k = n) cache ->
  (length cache <= length ls)%nat ->
  length (run_layers i ls cache h mask).1.2 = length cache
  /\ Forall (fun c => exists k, c = Some k /\ offset k = (n + length h)%nat)
       (run_layers i ls cache h mask).1.2.
Proof.
  induction ls as [|b bs IH]; intros i cache h mask n Hall Hlen.
  - destruct cache; [by split|simpl in Hlen; lia].
  - destruct cache as [|c cache]; [by split|]. cbn [run_layers].
    apply Forall_cons in Hall as [(k & -> & Hk) Hall].
    destruct (TransformerBlock_call_cache b h mask k) as (c' & Hc & Ho).
    pose proof (TransformerBlock_call_length b h mask (Some k)) as Hb.
    destruct (TransformerBlock_call b h mask (Some k)) as [h' c'']. cbn [fst snd] in *.
    destruct (IH (S i) cache h' mask n Hall) as [IHl IHa]; [simpl in Hlen; lia|].
    destruct (run_layers (S i) bs cache h' mask) as [[h'' cache'] evs].
    cbn [fst snd] in *. split; [cbn [length]; by rewrite IHl|].
    constructor; [exists c'; split; [done|lia]|]. by rewrite <- Hb.
Qed.

(** X13: the caches of the layers advance together.  When every cache
    of the list holds the same number of positions before a call on the
    token path, every cache holds that number plus the number of input
    tokens after it: the offset that the mask is built from, read from
    the first cache, is the offset of all of them. *)
Theorem layer_caches_advance_together
    self ids pv mask cs kwargs out n :
  let o := Phi4Model_call self ids (Some pv) mask (Some cs) kwargs in
  Forall (fun c => exists k, c = Some k /\ offset k = n) cs ->
  (length cs <= length (layers self))%nat ->
  out_value o = Ok out ->
  exists cs',
    out_cache o = Some cs' /\ length cs' = length cs
    /\ Forall (fun c => exists k, c = Some k /\ offset k = (n + length ids)%nat) cs'.
Proof.
  intros o Hall Hlen Hout.
  destruct (Phi4Model_call_value_mode _ _ _ _ _ _ _ Hout) as [im Hm].
  subst o. unfold Phi4Model_call. rewrite Hm.
  pose proof (switch_adapters_layers_length im self) as Hl.
  destruct (switch_adapters im self) as [[self' log] apm]. cbn [fst] in Hl.
  cbn [embed_input from_option]. unfold id.
  set (h := Embedding_call (embed_tokens self') ids).
  set (mask' := match mask with Some m => Some m | None => _ end).
  destruct (run_layers_offsets (layers self') 0 cs h mask' n Hall) as [Hlen' Hall'];
    [lia|].
  destruct (run_layers 0 (layers self') cs h mask') as [[h' cs'] evs].
  cbn [fst snd out_cache] in *. exists cs'. split; [done|]. split; [done|].
  replace (length ids) with (length h); [done|].
  subst h. unfold Embedding_call. by rewrite length_map.
Qed.

(** X14: the feed-forward block works on every position by itself: the
    output for a sequence is, position by position, the output for the
    single positions, and has as many positions as the input. *)
Theorem mlp_is_position_wise m (x y : mat) :
  MLP_call m (x ++ y) = MLP_call m x ++ MLP_call m y
  /\ MLP_call m x = flat_map (fun v => MLP_call m [v]) x
  /\ length (MLP_call m x) = length x.
Proof.
  split; [apply MLP_call_app|]. split; [|apply MLP_call_length].
  induction x as [|v x IH]; [by rewrite (nil_length_inv _ (MLP_call_length m []))|].
  change (v :: x) with ([v] ++ x). rewrite MLP_call_app. cbn [flat_map app].
  by rewrite <- IH.
Qed.

(** X15: [Model.sanitize] reads the image and audio parts from the
    multimodal embedding: on a model built without [embd_layer], which
    has none, it raises [AttributeError] whatever the weights. *)
Theorem sanitize_needs_the_multimodal_embedding c self weights :
  embd_layer c = None ->
  Model_init c = Ok self ->
  Model_sanitize self weights = Raise (AttributeError "image_embed").
Proof.
  intros He. unfold Model_init.
  destruct (Phi4Model_init c) as [m|] eqn:Hm; [cbn [bind]|done].
  intros [= <-]. unfold Model_sanitize. cbn [model].
  by rewrite (Phi4Model_init_no_extend c m He Hm).
Qed.

(** ** Prefill *)

Lemma Attention_call_fresh a (x : mat) mask :
  Attention_call a x mask (Some (mkCache [] []))
  = ((Attention_call a x mask None).1, Some (attn_cache a x)).
Proof. reflexivity. Qed.

Lemma TransformerBlock_call_fresh b (xs : mat) :
  let mask := Some (create_additive_causal_mask (length xs) 0) in
  TransformerBlock_call b xs mask (Some (mkCache [] []))
  = (block_full b xs, Some (block_cache b xs))
  /\ TransformerBlock_call b xs mask None = (block_full b xs, None).
Proof.
  intros mask. unfold block_full, block_cache, TransformerBlock_call. fold mask.
  rewrite Attention_call_fresh.
  assert ((Attention_call (self_attn b) (RMSNorm_call (input_layernorm b) xs)
             mask None).2 = None) as Hn by reflexivity.
  destruct (Attention_call _ _ mask None) as [r c]. cbn [fst snd] in *. by subst c.
Qed.

(** The stack on fresh caches: the hidden states of the pass without
    cache, and the caches that this pass would have filled. *)
Lemma run_layers_fresh ls : forall i j (xs : mat),
  (run_layers i ls (replicate (length ls) (Some (mkCache [] []))) xs
     (Some (create_additive_causal_mask (length xs) 0))).1
  = ((run_layers j ls (replicate (length ls) None) xs
        (Some (create_additive_causal_mask (length xs) 0))).1.1,
     stack_caches ls xs).
Proof.
  induction ls as [|b bs IH]; intros i j xs; [done|].
  cbn [length replicate run_layers stack_caches].
  destruct (TransformerBlock_call_fresh b xs) as [-> ->].
  specialize (IH (S i) (S j) (block_full b xs)). rewrite block_full_length in IH.
  destruct (run_layers (S i) bs _ _ _) as [[h1 c1] e1].
  destruct (run_layers (S j) bs _ _ _) as [[h2 c2] e2].
  cbn [fst snd] in *. by injection IH as -> ->.
Qed.

(** A call to [Model] that returned had a mode, and its head is the
    product with one matrix. *)
Lemma Model_call_value_inv self ids pixel_values mask cache kwargs logits :
  out_value (Model_call self ids pixel_values mask cache kwargs) = Ok logits ->
  exists im W,
    resolve_input_mode (input_mode kwargs) = Ok im
    /\ forall out,
         Model_head self (embed_tokens (switch_adapters im (model self)).1.1) out
         = Ok (matmul_T out W).
Proof.
  unfold Model_call. cbn [out_value].
  destruct (out_value (Phi4Model_call _ _ _ _ _ _)) as [out|] eqn:Hout; [cbn [bind]|done].
  destruct (Phi4Model_call_value_mode _ _ _ _ _ _ _ Hout) as [im Hm].
  rewrite Phi4Model_call_embed_tokens. intros [W HW]%Model_head_matrix.
  exists im, W. split; [done|]. by rewrite switch_adapters_embed_tokens.
Qed.

(** The call on the prompt with fresh caches, on the token path. *)
Lemma Model_call_prefill self p pv kwargs im W :
  resolve_input_mode (input_mode kwargs) = Ok im ->
  let sw := switch_adapters im (model self) in
  let e := fun t : Z => default [] (table (embed_tokens sw.1.1) !! Z.to_nat t) in
  (forall out, Model_head self (embed_tokens sw.1.1) out = Ok (matmul_T out W)) ->
  let o := Model_call self p (Some pv) None (Some (fresh_cache (model self))) kwargs in
  out_self o = sw.1.1
  /\ out_cache o = Some (stack_caches (layers sw.1.1) (map e p))
  /\ out_value o = Ok (full_rows sw.1.1 W e p).
Proof.
  intros Hm sw e HW o. subst o e sw. unfold Model_call, Phi4Model_call. rewrite Hm.
  pose proof (switch_adapters_layers_length im (model self)) as Hl. revert HW.
  destruct (switch_adapters im (model self)) as [[self' log] apm].
  cbn [fst] in *. intros HW. cbn [embed_input from_option]. unfold id.
  assert (create_attention_mask (Embedding_call (embed_tokens self') p)
            (Some (fresh_cache (model self)))
          = create_additive_causal_mask
              (length (Embedding_call (embed_tokens self') p)) 0) as ->.
  { unfold create_attention_mask, fresh_cache.
    by destruct (length (layers (model self))). }
  unfold fresh_cache. rewrite <- Hl.
  pose proof (run_layers_fresh (layers self') 0 0
                (Embedding_call (embed_tokens self') p)) as Hrun.
  destruct (run_layers 0 (layers self') (replicate _ (Some _)) _ _)
    as [[h cs] evs].
  cbn [fst] in Hrun. injection Hrun as -> ->.
  cbn [out_self out_cache out_value bind]. rewrite HW.
  split; [done|]. split; [done|]. unfold full_rows, Embedding_call.
  by rewrite length_map.
Qed.

(** X16: the usual generation loop.  On a network with at least one
    block (the mask of a call with caches is made from the first cache)
    whose blocks rotate by the absolute position alone in sequences of
    the length of prompt and tokens, a first call on the prompt with a
    fresh cache for every layer returns the logits of the pass without
    cache, and decoding the tokens that follow one at a time on the
    caches it leaves returns, step by step, the logits that the full
    pass over prompt and tokens has at their positions. *)
Theorem prefill_then_decode self p r pv kwargs logits :
  let o := Model_call self p (Some pv) None (Some (fresh_cache (model self))) kwargs in
  layers (model self) ≠ [] ->
  rotary_by_position (model self) (length (p ++ r)) ->
  out_value (Model_call self (p ++ r) (Some pv) None None kwargs) = Ok logits ->
  out_value o = Ok (take (length p) logits)
  /\ decode (set_model (out_self o) self) (default [] (out_cache o)) r (Some pv) kwargs
     = map (fun row => Ok [row]) (drop (length p) logits).
Proof.
  intros o _ Hfree Hfull.
  destruct (Model_call_value_inv _ _ _ _ _ _ _ Hfull) as (im & W & Hm & HW).
  apply (rotary_by_position_switch im) in Hfree.
  set (e := fun t : Z =>
              default [] (table (embed_tokens (switch_adapters im (model self)).1.1)
                          !! Z.to_nat t)).
  rewrite (Model_call_full self (p ++ r) (Some pv) kwargs im e W Hm eq_refl HW) in Hfull.
  injection Hfull as <-.
  destruct (Model_call_prefill self p pv kwargs im W Hm HW) as (Hself & Hcache & Hval).
  fold o e in Hself, Hcache, Hval. split.
  - by rewrite Hval, full_rows_prefix.
  - rewrite Hself, Hcache. cbn [from_option]. unfold id.
    by apply (decode_rows self (Some pv) kwargs im e W Hm).
Qed.

(** X19: where the blocks rotate by the absolute position alone, what
    the caches hold does not depend on how the sequence was cut into
    calls.  On such a network with at least one block, on the token
    path, a call on a prompt with fresh caches followed by a call on one
    more token leaves the caches that a single call on the prompt and
    that token leaves, and the second call returns the logits that the
    full pass has at the position of the token. *)
Theorem caches_do_not_depend_on_chunking self p t pv kwargs logits :
  let fresh := Some (fresh_cache (model self)) in
  let o1 := Model_call self p (Some pv) None fresh kwargs in
  let o2 := Model_call (set_model (out_self o1) self) [t] (Some pv) None
              (out_cache o1) kwargs in
  layers (model self) ≠ [] ->
  rotary_by_position (model self) (S (length p)) ->
  out_value (Model_call self (p ++ [t]) (Some pv) None None kwargs) = Ok logits ->
  out_cache o2 = out_cache (Model_call self (p ++ [t]) (Some pv) None fresh kwargs)
  /\ out_value o2 = Ok (drop (length p) logits).
Proof.
  intros fresh o1 o2 _ Hfree Hfull.
  destruct (Model_call_value_inv _ _ _ _ _ _ _ Hfull) as (im & W & Hm & HW).
  apply (rotary_by_position_switch im) in Hfree.
  set (e := fun t : Z =>
              default [] (table (embed_tokens (switch_adapters im (model self)).1.1)
                          !! Z.to_nat t)).
  rewrite (Model_call_full self (p ++ [t]) (Some pv) kwargs im e W Hm eq_refl HW)
    in Hfull.
  injection Hfull as <-.
  destruct (Model_call_prefill self p pv kwargs im W Hm HW) as (Hself & Hcache & _).
  destruct (Model_call_prefill self (p ++ [t]) pv kwargs im W Hm HW) as (_ & Hall & _).
  fold fresh o1 e in Hself, Hcache. fold fresh e in Hall.
  destruct (Model_call_step self p t (Some pv) kwargs im e W Hm eq_refl HW Hfree)
    as (_ & Hc2 & Hv2).
  subst o2. rewrite Hself, Hcache, Model_call_switched by done.
  rewrite Hc2, Hv2, Hall. split; [done|].
  destruct (full_rows_snoc (switch_adapters im (model self)).1.1 W e p t Hfree)
    as (-> & _ & _).
  by rewrite drop_app_length'; [|rewrite full_rows_length].
Qed.

(** ** Rotary dimensions *)

Lemma mul_nan (x : float) : Prim2SF (x * nan) = S754_nan.
Proof. rewrite mul_spec. by destruct (Prim2SF x). Qed.

(** X17: the number of rotary dimensions is
    [int(head_dim * partial_rotary_factor)], and [int] rejects NaN: with
    a NaN [partial_rotary_factor] no attention block is built, and the
    failure is that [ValueError] whenever the head dimension could be
    computed. *)
Theorem nan_partial_rotary_factor c kv :
  partial_rotary_factor c = nan ->
  num_key_value_heads c = Some kv ->
  exists e,
    Attention_init c = Raise e
    /\ (e = ZeroDivisionError \/ e = OverflowError
        \/ e = ValueError "cannot convert float NaN to integer")
    /\ (forall x,
          num_attention_heads c ≠ 0 ->
          hidden_size c / num_attention_heads c ≠ 0 ->
          float_of_int (hidden_size c / num_attention_heads c) = Ok x ->
          e = ValueError "cannot convert float NaN to integer").
Proof.
  intros Hnan Hkv. unfold Attention_init, floordiv. rewrite Hkv. cbn [bind].
  destruct (num_attention_heads c =? 0) eqn:Hn.
  { eexists. split; [done|]. split; [by left|]. intros x Hn'. lia. }
  cbn [bind].
  destruct (hidden_size c / num_attention_heads c =? 0) eqn:Hd; cbn [negb ensure bind].
  { eexists. split; [done|]. split; [by left|]. intros x _ Hd'. lia. }
  destruct (float_of_int _) as [x|e] eqn:Hx; cbn [bind].
  2:{ apply float_of_int_raise in Hx as ->. eexists. split; [done|].
      split; [by right; left|]. by intros x _ _ [=]. }
  unfold Attention_rope, int_mul_float. rewrite Hx, Hnan. cbn [bind].
  unfold int_of_float. rewrite mul_nan. cbn [bind].
  eexists. split; [done|]. split; [by right; right|]. done.
Qed.

(** ** The head *)

(** X18: on a model that was built, the head never fails: a call to
    [Model] raises exactly when the call to its [Phi4Model] raises, and
    then the same exception. *)
Theorem head_adds_no_failure c self ids pixel_values mask cache kwargs e :
  Model_init c = Ok self ->
  out_value (Model_call self ids pixel_values mask cache kwargs) = Raise e
  <-> out_value (Phi4Model_call (model self) ids pixel_values mask cache kwargs) = Raise e.
Proof.
  intros (Hc & Hl)%Model_init_fields. unfold Model_call. cbn [out_value].
  destruct (out_value (Phi4Model_call _ _ _ _ _ _)) as [out|e']; cbn [bind]; [|done].
  unfold Model_head. rewrite Hc, Hl. by destruct (tie_word_embeddings c).
Qed.

End Kernels.

Arguments mkLinear {R}.
Arguments BLinear {R}.
Arguments BQuantized {R}.
Arguments Bare {R}.
Arguments Wrapped {R}.
Arguments mkLoRa {R}.
Arguments mkExt {R ExtState}.
Arguments mkKwargs {Tensor}.
Arguments mkOutcome {R ExtState Tensor A}.
Arguments out_self {R ExtState Tensor A}.
Arguments out_cache {R ExtState Tensor A}.
Arguments out_log {R ExtState Tensor A}.
Arguments out_value {R ExtState Tensor A}.

(** * A small instance

    Integer scalars and simple stand-ins for the kernels, to run the
    definitions on concrete configurations and calls. *)

Module Tiny.

Definition uniform_init (rows cols : Z) : list (list Z) :=
  map (fun o => map (fun i => (Z.of_nat o + 2 * Z.of_nat i) mod 3 - 1)
                 (seq 0 (Z.to_nat cols)))
      (seq 0 (Z.to_nat rows)).

Definition normal_init (rows cols : Z) : list (list Z) :=
  map (fun o => map (fun i => (2 * Z.of_nat o + Z.of_nat i) mod 5 - 2)
                 (seq 0 (Z.to_nat cols)))
      (seq 0 (Z.to_nat rows)).

Definition silu (x : Z) : Z := x * x.

Definition rms_norm (eps : float) (w x : list Z) : list Z := zip_with Z.mul w x.

(** Modelled from the spec: the [su] and [longrope] encoder takes its
    long factor table when the effective sequence length exceeds the
    original context length, and its short table otherwise.  In this
    stand-in a vector is turned by its position under [nn.RoPE] and
    under the short table, and by twice its position under the long
    one. *)
Definition rope_rotate (rp : RopeModule) (len pos : nat) (v : list Z) : list Z :=
  match rp with
  | SuScaledRotaryEmbedding _ _ _ original_max_pos _ _ =>
      if original_max_pos <? Z.of_nat len
      then map (fun x => x + 2 * Z.of_nat pos) v
      else map (fun x => x + Z.of_nat pos) v
  | RoPE _ _ _ _ => map (fun x => x + Z.of_nat pos) v
  end.

(** One rendering of a set of strings: the elements quoted, in the order
    of the list. *)
Definition set_repr (s : list string) : string :=
  "{" +:+ String.concat ", " (map (fun k => "'" +:+ k +:+ "'") s) +:+ "}".

(** Unnormalised attention: the values weighted by query-key products. *)
Definition attend (scale : float) (n_heads n_kv_heads : Z) (q : list Z)
    (kv : list (list Z * list Z)) : list Z :=
  foldr (fun '(k, v) acc =>
           let s := foldr Z.add 0 (zip_with Z.mul q k) in
           match acc with
           | [] => map (Z.mul s) v
           | _ => zip_with Z.add (map (Z.mul s) v) acc
           end) [] kv.

Definition float_pow (x y : float) : float := (1 / sqrt x)%float.

(** Patterns without metacharacters: [re.match] is a prefix test. *)
Definition re_match (pattern name : string) : bool := String.prefix pattern name.

Definition lora_delta (a : Adapter) (v : list Z) : list Z := map (Z.mul 2) v.

Definition InputMode_value (m : InputMode) : Z :=
  match m with LANGUAGE => 0 | VISION => 1 | SPEECH => 2 | VISION_SPEECH => 3 end.

Definition ext_init (c : ModelConfig) (d : gmap string pyval)
    : result (ImageAudioEmbedding Z unit) :=
  Ok (mkExt [("img_projection"%string,
              Bare (BLinear (Linear_init Z uniform_init (hidden_size c) (hidden_size c))))]
            tt).

(** A stand-in for the multimodal embedding: the image embedding, when
    there is one, takes the place of every token's embedding. *)
Definition ext_call (e : ImageAudioEmbedding Z unit) (a : FusionArgs Z (list Z))
    : result (list (list Z)) :=
  match f_input_image_embeds Z (list Z) a with
  | Some t => Ok (map (fun _ => t) (f_input_ids Z (list Z) a))
  | None => Ok (Embedding_call Z (f_wte Z (list Z) a) (f_input_ids Z (list Z) a))
  end.

Definition lora (pattern : string) : gmap string pyval :=
  {[ "r" := PInt 2; "lora_alpha" := PInt 4; "layer" := PStr pattern;
     "dp" := PFloat 0 ]}%string.

Definition base_config : ModelConfig :=
  mkConfig "phi4mm" 4 2 3 2 0.0009765625%float 5 (Some 1) 10000%float false None
    1%float 131072 4096 false None (Some 224) (Some 14) None
    (Some (lora "layers")) (Some (lora "layers")).

Definition with_rope_scaling (d : gmap string pyval) : ModelConfig :=
  set_rope_scaling (Some d) base_config.

Definition init (c : ModelConfig) : result (Model Z unit) :=
  Model_init Z 1 uniform_init normal_init float_pow re_match unit ext_init c.

Definition call (self : Model Z unit) (ids : list Z) (pixel_values : option (list Z))
    (mask : option Mask) (cache : option (list (option (KVCache Z))))
    (kwargs : Kwargs (list Z)) : Outcome Z unit (list Z) (list (list Z)) :=
  Model_call Z Z.add Z.mul 0 silu rms_norm rope_rotate attend lora_delta unit
    InputMode_value (list Z) ext_call self ids pixel_values mask cache kwargs.

Definition kwargs_of (m : ModeArg) : Kwargs (list Z) :=
  mkKwargs m None None None None None None.

Definition phi4_call (self : Model Z unit) (ids : list Z) (pixel_values : option (list Z))
    (mask : option Mask) (cache : option (list (option (KVCache Z))))
    (kwargs : Kwargs (list Z)) : Outcome Z unit (list Z) (list (list Z)) :=
  Phi4Model_call Z Z.add Z.mul 0 silu rms_norm rope_rotate attend lora_delta unit
    InputMode_value (list Z) ext_call (model Z unit self) ids pixel_values mask cache kwargs.

(** [su] scaling with a [long_factor] table and no [short_factor]. *)
Definition su_without_short : ModelConfig :=
  with_rope_scaling
    {[ "type" := PStr "su"; "long_factor" := PList [1%float; 1%float] ]}%string.

Definition su_complete : ModelConfig :=
  with_rope_scaling
    {[ "type" := PStr "su"; "short_factor" := PList [1%float];
       "long_factor" := PList [1%float] ]}%string.

Definition only_type : ModelConfig :=
  with_rope_scaling {[ "type" := PStr "su" ]}%string.

Definition unsupported : ModelConfig :=
  with_rope_scaling
    {[ "type" := PStr "unsupported"; "long_factor" := PList [1%float] ]}%string.

Definition without_vision_lora : ModelConfig :=
  mkConfig "phi4mm" 4 2 3 2 0.0009765625%float 5 (Some 1) 10000%float false None
    1%float 131072 4096 false None (Some 224) (Some 14) None
    None (Some (lora "layers")).

Definition tied_config : ModelConfig :=
  mkConfig "phi4mm" 4 2 3 2 0.0009765625%float 5 (Some 1) 10000%float false None
    1%float 131072 4096 true None (Some 224) (Some 14) None
    (Some (lora "layers")) (Some (lora "layers")).

(** A configuration with the multimodal embedding module. *)
Definition multimodal_config : ModelConfig :=
  mkConfig "phi4mm" 4 2 3 2 0.0009765625%float 5 (Some 1) 10000%float false None
    1%float 131072 4096 false
    (Some {[ "embedding_cls" := PStr "image_audio" ]}%string)
    (Some 224) (Some 14) None
    (Some (lora "layers")) (Some (lora "layers")).

Definition with_image_embeds (m : ModeArg) (t : list Z) : Kwargs (list Z) :=
  mkKwargs m (Some t) None None None None None.

(** The model built from a configuration (an empty one if the
    constructor raises). *)
Definition built (c : ModelConfig) : Model Z unit :=
  match init c with
  | Ok m => m
  | Raise _ =>
      mkModel Z unit ""
        (mkPhi4Model Z unit c (mkEmbedding Z 0 0 []) None [] (mkRMSNorm Z [] 0))
        None c
  end.

Definition decode (self : Model Z unit) (cache : list (option (KVCache Z)))
    (tokens : list Z) (pixel_values : option (list Z)) (kwargs : Kwargs (list Z))
    : list (result (list (list Z))) :=
  decode Z Z.add Z.mul 0 silu rms_norm rope_rotate attend lora_delta unit
    InputMode_value (list Z) ext_call self cache tokens pixel_values kwargs.


(** A configuration with the multimodal embedding module, in which the
    vision pattern covers the first block and the speech pattern every
    block. *)
Definition two_patterns : ModelConfig :=
  mkConfig "phi4mm" 4 2 3 2 0.0009765625%float 5 (Some 1) 10000%float false None
    1%float 131072 4096 false
    (Some {[ "embedding_cls" := PStr "image_audio" ]}%string)
    (Some 224) (Some 14) None
    (Some (lora "layers.0")) (Some (lora "layers")).

Definition modules (c : ModelConfig) : result (Phi4Model Z unit) :=
  Phi4Model_modules Z 1 uniform_init normal_init float_pow unit ext_init c.

(** The modules built from a configuration (none if the constructor
    raises). *)
Definition plain (c : ModelConfig) : Phi4Model Z unit :=
  match modules c with
  | Ok m => m
  | Raise _ => mkPhi4Model Z unit c (mkEmbedding Z 0 0 []) None [] (mkRMSNorm Z [] 0)
  end.

(** No [num_key_value_heads]: the hook fills it in. *)
Definition default_kv_heads : ModelConfig :=
  mkConfig "phi4mm" 4 2 3 2 0.0009765625%float 5 None 10000%float false None
    1%float 131072 4096 false None (Some 224) (Some 14) None
    (Some (lora "layers")) (Some (lora "layers")).

(** [linear] scaling by a factor of two. *)
Definition linear_scaling : ModelConfig :=
  with_rope_scaling
    {[ "type" := PStr "linear"; "factor" := PFloat 2;
       "long_factor" := PList [1%float] ]}%string.

Definition empty_scaling : ModelConfig := with_rope_scaling ∅.

(** Fewer hidden units than heads. *)
Definition small_hidden : ModelConfig :=
  mkConfig "phi4mm" 1 2 3 2 0.0009765625%float 5 (Some 1) 10000%float false None
    1%float 131072 4096 false None (Some 224) (Some 14) None
    (Some (lora "layers")) (Some (lora "layers")).

Definition nan_factor : ModelConfig :=
  mkConfig "phi4mm" 4 2 3 2 0.0009765625%float 5 (Some 1) 10000%float false None
    nan 131072 4096 false None (Some 224) (Some 14) None
    (Some (lora "layers")) (Some (lora "layers")).

Definition no_vocab : ModelConfig :=
  mkConfig "phi4mm" 4 2 3 2 0.0009765625%float 0 (Some 1) 10000%float false None
    1%float 131072 4096 false None (Some 224) (Some 14) None None None.

(** An [embd_layer] dictionary that does not name its class. *)
Definition no_embedding_cls : ModelConfig :=
  mkConfig "phi4mm" 4 2 3 2 0.0009765625%float 5 (Some 1) 10000%float false None
    1%float 131072 4096 false
    (Some {[ "n_embd" := PInt 4 ]}%string)
    (Some 224) (Some 14) None
    (Some (lora "layers")) (Some (lora "layers")).

Definition attention (c : ModelConfig) : result (Attention Z) :=
  Attention_init Z uniform_init float_pow c.

Definition phi4_init (c : ModelConfig) : result (Phi4Model Z unit) :=
  Phi4Model_init Z 1 uniform_init normal_init float_pow re_match unit ext_init c.

(** Checkpoint weights as a list of names; the two parts keep them. *)
Definition sanitize (self : Model Z unit) (weights : list string) : result (list string) :=
  Model_sanitize Z unit (list string) (fun _ w => Ok w) (fun _ w => Ok w) self weights.

(** The block that an event reports, if any. *)
Definition layer_of (e : Event Z (list Z)) : option nat :=
  match e with EvLayer _ _ i => Some i | _ => None end.

Definition empty_cache : option (KVCache Z) := Some (mkCache Z [] []).


(** Whether every block of a network rotates with [nn.RoPE]. *)
Definition plain_rope (m : Phi4Model Z unit) : bool :=
  forallb (fun b => match rope Z (self_attn Z b) with
                    | RoPE _ _ _ _ => true
                    | SuScaledRotaryEmbedding _ _ _ _ _ _ => false
                    end) (layers Z unit m).

End Tiny.

(** ** The properties on the small instance *)

(** A network whose blocks all rotate with [nn.RoPE] rotates by the
    absolute position alone, whatever the length of the sequence. *)
Lemma plain_rope_by_position (m : Phi4Model Z unit) (N : nat) :
  Tiny.plain_rope m = true -> rotary_by_position Z Tiny.rope_rotate unit m N.
Proof.
  unfold Tiny.plain_rope, rotary_by_position. intros H.
  apply Forall_forall. intros b Hb%list_elem_of_In.
  rewrite forallb_forall in H. specialize (H b Hb). cbv beta in H.
  intros n n' pos v _ _. unfold Tiny.rope_rotate.
  by destruct (rope Z (self_attn Z b)).
Qed.

(** C5, the claim as stated fails: an [su] descriptor without
    [short_factor] passes [__post_init__] unchanged and without a
    message; the missing table only shows when the attention block is
    built, as a [KeyError]. *)
Lemma su_without_short_factor_accepted :
  post_init Tiny.set_repr Tiny.su_without_short = Ok (Tiny.su_without_short, [])
  /\ rope_scaling Tiny.su_without_short ≫= (.!! "type"%string) = Some (PStr "su")
  /\ rope_scaling Tiny.su_without_short ≫= (.!! "short_factor"%string) = None
  /\ Attention_init Z Tiny.uniform_init Tiny.float_pow Tiny.su_without_short
     = Raise (KeyError "short_factor").
Proof. repeat split; vm_compute; reflexivity. Qed.

Lemma rope_scaling_required_keys_witness :
  post_init Tiny.set_repr Tiny.only_type
    = Raise (ValueError ("rope_scaling must contain keys "
                          +:+ Tiny.set_repr required_keys))
  /\ (exists a, Attention_init Z Tiny.uniform_init Tiny.float_pow Tiny.su_complete = Ok a)
  /\ is_Some (rope_scaling Tiny.su_complete ≫= (.!! "short_factor"%string))
  /\ is_Some (rope_scaling Tiny.su_complete ≫= (.!! "long_factor"%string)).
Proof.
  split.
  - apply (proj1 (rope_scaling_required_keys Tiny.set_repr Z Tiny.uniform_init Tiny.float_pow
                    Tiny.only_type _ eq_refl)).
    + intros H. apply (f_equal (fun m => m !! "type"%string)) in H.
      vm_compute in H. discriminate H.
    + right. vm_compute. reflexivity.
  - split; [eexists; vm_compute; reflexivity|].
    eapply (proj2 (rope_scaling_required_keys Tiny.set_repr Z Tiny.uniform_init Tiny.float_pow
                     Tiny.su_complete _ eq_refl) (PStr "su")); vm_compute; reflexivity.
Defined.

Lemma unrecognized_rope_type_witness :
  exists c',
    post_init Tiny.set_repr Tiny.unsupported = Ok (c', [rope_warning])
    /\ rope_scaling c' = None
    /\ post_init Tiny.set_repr (set_rope_scaling None Tiny.unsupported) = Ok (c', [])
    /\ (forall a, Attention_init Z Tiny.uniform_init Tiny.float_pow c' = Ok a ->
         exists dims, rope Z a = RoPE dims false 10000 1).
Proof.
  eapply (unrecognized_rope_type_disables_scaling Tiny.set_repr Z Tiny.uniform_init Tiny.float_pow
            Tiny.unsupported _ (PStr "unsupported") eq_refl).
  - vm_compute. reflexivity.
  - eexists. vm_compute. reflexivity.
  - vm_compute. reflexivity.
Defined.

Lemma missing_lora_config_witness :
  exists e, Tiny.init Tiny.without_vision_lora = Raise e.
Proof.
  destruct (missing_lora_config_fails_construction Z 1 Tiny.uniform_init
              Tiny.normal_init Tiny.float_pow Tiny.re_match unit Tiny.ext_init
              Tiny.without_vision_lora (or_introl eq_refl)) as (e & _ & He).
  by exists e.
Defined.

Lemma invalid_input_mode_witness :
  recognized Tiny.InputMode_value (ArgInt 7) = false
  /\ exists e,
       Tiny.phi4_call (Tiny.built Tiny.base_config) [1; 2] None None None
         (Tiny.kwargs_of (ArgInt 7))
         = mkOutcome (model Z unit (Tiny.built Tiny.base_config)) None [] (Raise e)
       /\ Tiny.call (Tiny.built Tiny.base_config) [1; 2] None None None
            (Tiny.kwargs_of (ArgInt 7))
         = mkOutcome (model Z unit (Tiny.built Tiny.base_config)) None [] (Raise e)
       /\ (e = ValueError "not a valid InputMode" \/ e = AssertionError)
       /\ (forall a, ArgInt 7 = ArgArray a -> length a ≠ 1%nat -> e = AssertionError).
Proof.
  split; [reflexivity|].
  apply (invalid_input_mode_fails_first Z Z.add Z.mul 0 Tiny.silu Tiny.rms_norm
           Tiny.rope_rotate Tiny.attend Tiny.lora_delta unit Tiny.InputMode_value
           (list Z) Tiny.ext_call (Tiny.built Tiny.base_config) [1; 2] None None None
           (Tiny.kwargs_of (ArgInt 7))).
  reflexivity.
Defined.

Lemma no_extend_module_witness :
  Tiny.init Tiny.base_config = Ok (Tiny.built Tiny.base_config)
  /\ exists e,
       out_value (Tiny.call (Tiny.built Tiny.base_config) [1; 2] None None None
                    (Tiny.kwargs_of (ArgInt 0)))
       = Raise e.
Proof.
  assert (Tiny.init Tiny.base_config = Ok (Tiny.built Tiny.base_config)) as Hinit
    by (vm_compute; reflexivity).
  split; [exact Hinit|].
  exact (proj1 (no_extend_module_needs_pixel_values Z Z.add Z.mul 0 1 Tiny.silu
                  Tiny.rms_norm Tiny.rope_rotate Tiny.attend Tiny.uniform_init
                  Tiny.normal_init Tiny.float_pow Tiny.re_match Tiny.lora_delta
                  unit Tiny.ext_init Tiny.InputMode_value (list Z) Tiny.ext_call
                  Tiny.base_config (Tiny.built Tiny.base_config) [1; 2] None None None
                  (Tiny.kwargs_of (ArgInt 0)) eq_refl Hinit) eq_refl).
Defined.

Lemma input_mode_selects_adapters_witness :
  Tiny.init Tiny.multimodal_config = Ok (Tiny.built Tiny.multimodal_config)
  /\ resolve_input_mode Tiny.InputMode_value (ArgInt 2) = Ok SPEECH
  /\ let o := Tiny.phi4_call (Tiny.built Tiny.multimodal_config) [1; 2] None None None
                (Tiny.kwargs_of (ArgInt 2)) in
     (forall w, w ∈ adapter_layers Z unit (out_self o) ->
                active Z w = Some "speech"%string)
     /\ (forall args, EvFusion Z (list Z) args ∈ out_log o ->
           f_audio_projection_mode Z (list Z) args = "speech"%string
           /\ f_input_audio_embeds Z (list Z) args = None).
Proof.
  split; [vm_compute; reflexivity|]. split; [reflexivity|].
  pose proof (input_mode_selects_adapters Z Z.add Z.mul 0 Tiny.silu Tiny.rms_norm
                Tiny.rope_rotate Tiny.attend Tiny.lora_delta unit
                Tiny.InputMode_value (list Z) Tiny.ext_call
                (model Z unit (Tiny.built Tiny.multimodal_config))
                [1; 2] None None None (Tiny.kwargs_of (ArgInt 2))
                SPEECH eq_refl) as (_ & Hspeech & _ & Hfusion).
  split; [exact (Hspeech eq_refl)|exact (proj1 (Hfusion (or_introl eq_refl)))].
Defined.

(** C4, the claim as stated fails: a call that supplies image embeddings
    and no pixel values does not bypass the multimodal embedding; the
    module is called with those embeddings, and its result, not the
    plain lookup of the token ids, enters the stack. *)
Lemma image_embeds_do_not_bypass_fusion :
  exists args,
    Tiny.init Tiny.multimodal_config = Ok (Tiny.built Tiny.multimodal_config)
    /\ out_log (Tiny.phi4_call (Tiny.built Tiny.multimodal_config) [1; 2] None None None
                  (Tiny.with_image_embeds (ArgInt 1) [7; 7; 7; 7])) !! 1%nat
       = Some (EvFusion Z (list Z) args)
    /\ f_input_image_embeds Z (list Z) args = Some [7; 7; 7; 7]
    /\ Tiny.ext_call (mkExt [] tt) args = Ok [[7; 7; 7; 7]; [7; 7; 7; 7]]
    /\ Embedding_call Z
         (embed_tokens Z unit (model Z unit (Tiny.built Tiny.multimodal_config))) [1; 2]
       = [[0; 1; 2; -2]; [2; -2; -1; 0]].
Proof.
  eexists. split; [vm_compute; reflexivity|].
  split; [vm_compute; reflexivity|]. repeat split; vm_compute; reflexivity.
Qed.

Lemma pixel_values_decide_fusion_witness :
  Tiny.init Tiny.multimodal_config = Ok (Tiny.built Tiny.multimodal_config)
  /\ let o := Tiny.phi4_call (Tiny.built Tiny.multimodal_config) [1; 2] (Some [9])
                None None (Tiny.with_image_embeds (ArgInt 1) [7; 7; 7; 7]) in
     (forall args, EvFusion Z (list Z) args ∉ out_log o)
     /\ EvEmbed Z (list Z) [1; 2] ∈ out_log o.
Proof.
  split; [vm_compute; reflexivity|].
  pose proof (pixel_values_decide_fusion Z Z.add Z.mul 0 Tiny.silu Tiny.rms_norm
                Tiny.rope_rotate Tiny.attend Tiny.lora_delta unit
                Tiny.InputMode_value (list Z) Tiny.ext_call
                (model Z unit (Tiny.built Tiny.multimodal_config))
                [1; 2] (Some [9]) None None
                (Tiny.with_image_embeds (ArgInt 1) [7; 7; 7; 7])
                VISION eq_refl) as (Hpix & _).
  destruct (Hpix [9] eq_refl) as (Hno & Hemb & _). split; [exact Hno|exact Hemb].
Defined.

Lemma lm_head_tied_witness :
  exists hidden,
    Tiny.init Tiny.tied_config = Ok (Tiny.built Tiny.tied_config)
    /\ out_value (Tiny.phi4_call (Tiny.built Tiny.tied_config) [1; 2] (Some [9])
                    None None (Tiny.kwargs_of (ArgInt 0))) = Ok hidden
    /\ lm_head Z unit (Tiny.built Tiny.tied_config) = None
    /\ out_value (Tiny.call (Tiny.built Tiny.tied_config) [1; 2] (Some [9]) None None
                    (Tiny.kwargs_of (ArgInt 0)))
       = Ok (matmul_T Z Z.add Z.mul 0 hidden
               (table Z (embed_tokens Z unit (model Z unit (Tiny.built Tiny.tied_config))))).
Proof.
  assert (Tiny.init Tiny.tied_config = Ok (Tiny.built Tiny.tied_config)) as Hinit
    by (vm_compute; reflexivity).
  destruct (out_value (Tiny.phi4_call (Tiny.built Tiny.tied_config) [1; 2] (Some [9])
                         None None (Tiny.kwargs_of (ArgInt 0))))
    as [hidden|e] eqn:Hh; [|vm_compute in Hh; discriminate Hh].
  exists hidden. split; [exact Hinit|]. split; [reflexivity|].
  destruct (lm_head_tied_or_dedicated Z Z.add Z.mul 0 1 Tiny.silu Tiny.rms_norm
              Tiny.rope_rotate Tiny.attend Tiny.uniform_init Tiny.normal_init
              Tiny.float_pow Tiny.re_match Tiny.lora_delta unit Tiny.ext_init
              Tiny.InputMode_value (list Z) Tiny.ext_call
              Tiny.tied_config (Tiny.built Tiny.tied_config)
              [1; 2] (Some [9]) None None
              (Tiny.kwargs_of (ArgInt 0)) hidden Hinit Hh) as (Htied & _).
  destruct (Htied eq_refl) as (Hnone & Hlogits & _). split; [exact Hnone|exact Hlogits].
Defined.



(** C3, the claim as stated fails: with one pattern for both adapters,
    every projection of the blocks matches both, and after a call in
    [LANGUAGE] mode the adapter layer of the first of them has no active
    tag at all; the deltas it holds are listed with it. *)
Lemma language_mode_leaves_no_adapter_active :
  exists w,
    Tiny.re_match "layers" "layers.0.self_attn.qkv_proj" = true
    /\ sites Z unit
         (out_self (Tiny.phi4_call (Tiny.built Tiny.base_config) [1] (Some [9]) None None
                      (Tiny.kwargs_of (ArgInt 0)))) !! 0%nat
       = Some ("layers.0.self_attn.qkv_proj"%string, Wrapped w)
    /\ active Z w = None
    /\ map fst (adapters Z w) = ["speech"%string].
Proof. eexists. repeat split; vm_compute; reflexivity. Qed.

Lemma adapter_passes_witness :
  exists w1 w2 b asp,
    (("layers.0.mlp.down_proj"%string, Bare b) ∈ sites Z unit (Tiny.plain Tiny.two_patterns)
     /\ ("layers.0.mlp.down_proj"%string, Wrapped w1)
          ∈ sites Z unit (model Z unit (Tiny.built Tiny.two_patterns))
     /\ base_layer Z w1 = b /\ assoc "speech" (adapters Z w1) = Some asp)
    /\ (("layers.1.mlp.down_proj"%string, Wrapped w2)
          ∈ sites Z unit (model Z unit (Tiny.built Tiny.two_patterns))
        /\ assoc "speech" (adapters Z w2) = Some asp).
Proof.
  assert (Tiny.modules Tiny.two_patterns = Ok (Tiny.plain Tiny.two_patterns)) as H0
    by (vm_compute; reflexivity).
  assert (Phi4Model_init Z 1 Tiny.uniform_init Tiny.normal_init Tiny.float_pow
            Tiny.re_match unit Tiny.ext_init Tiny.two_patterns
          = Ok (model Z unit (Tiny.built Tiny.two_patterns))) as Hinit
    by (vm_compute; reflexivity).
  assert (bare_sites Z (ext_sites Z unit (Tiny.plain Tiny.two_patterns))) as Hbare
    by (apply bare_sites_check_sound; vm_compute; reflexivity).
  assert (plain_names Z (ext_sites Z unit (Tiny.plain Tiny.two_patterns))) as Hplain
    by (apply plain_names_check_sound; vm_compute; reflexivity).
  destruct (adapter_passes_attach Z Z.add Z.mul 0 1 Tiny.silu Tiny.rms_norm
              Tiny.rope_rotate Tiny.attend Tiny.uniform_init Tiny.normal_init
              Tiny.float_pow Tiny.re_match Tiny.lora_delta unit Tiny.ext_init
              Tiny.InputMode_value (list Z) Tiny.ext_call
              Tiny.two_patterns (Tiny.plain Tiny.two_patterns)
              (model Z unit (Tiny.built Tiny.two_patterns)) "layers.0" "layers"
              H0 Hinit eq_refl eq_refl Hbare Hplain)
    as (m1 & v & s & av & asp & _ & _ & _ & _ & _ & _ & Hsites & _).
  assert (exists b, ("layers.0.mlp.down_proj"%string, Bare b)
                      ∈ sites Z unit (Tiny.plain Tiny.two_patterns)) as [b Hb].
  { eexists. apply list_elem_of_lookup. exists 4%nat. vm_compute. reflexivity. }
  assert (exists b, ("layers.1.mlp.down_proj"%string, Bare b)
                      ∈ sites Z unit (Tiny.plain Tiny.two_patterns)) as [b' Hb'].
  { eexists. apply list_elem_of_lookup. exists 8%nat. vm_compute. reflexivity. }
  destruct (Hsites _ _ Hb) as (p1 & p2 & _ & Hin2 & Hp1 & Hyes & _).
  destruct (Hsites _ _ Hb') as (p1' & p2' & _ & Hin2' & Hp1' & Hyes' & _).
  rewrite Hp1 in Hyes. destruct (Hyes eq_refl) as (w1 & -> & Hbase & Hsp).
  rewrite Hp1' in Hyes'. destruct (Hyes' eq_refl) as (w2 & -> & _ & Hsp').
  exists w1, w2, b, asp. repeat split; assumption.
Defined.

(** ** The further properties on the small instance *)

Lemma post_init_idempotent_witness :
  exists c',
    post_init Tiny.set_repr Tiny.unsupported = Ok (c', [rope_warning])
    /\ post_init Tiny.set_repr c' = Ok (c', []).
Proof.
  assert (post_init Tiny.set_repr Tiny.unsupported
          = Ok (set_rope_scaling None Tiny.unsupported, [rope_warning])) as H
    by (vm_compute; reflexivity).
  exists (set_rope_scaling None Tiny.unsupported). split; [exact H|].
  exact (post_init_idempotent Tiny.set_repr Tiny.unsupported _ _ H).
Defined.

Lemma validated_config_attention_geometry_witness :
  exists a,
    post_init Tiny.set_repr Tiny.default_kv_heads = Ok (resolve_kv_heads Tiny.default_kv_heads, [])
    /\ Tiny.attention (resolve_kv_heads Tiny.default_kv_heads) = Ok a
    /\ n_kv_heads Z a = 2 /\ head_dim Z a = 2.
Proof.
  assert (post_init Tiny.set_repr Tiny.default_kv_heads
          = Ok (resolve_kv_heads Tiny.default_kv_heads, [])) as H1
    by (vm_compute; reflexivity).
  destruct (Tiny.attention (resolve_kv_heads Tiny.default_kv_heads)) as [a|e] eqn:H2;
    [|vm_compute in H2; discriminate H2].
  destruct (validated_config_attention_geometry Tiny.set_repr Z Tiny.uniform_init Tiny.float_pow
              Tiny.default_kv_heads _ _ a H1 H2) as (_ & Hkv & Hhd & _).
  exists a. split; [exact H1|]. split; [reflexivity|]. split; [exact Hkv|exact Hhd].
Defined.

Lemma validated_config_key_errors_witness :
  exists d,
    post_init Tiny.set_repr Tiny.su_without_short = Ok (Tiny.su_without_short, [])
    /\ Tiny.attention Tiny.su_without_short = Raise (KeyError "short_factor")
    /\ rope_scaling Tiny.su_without_short = Some d
    /\ d !! "short_factor"%string = None.
Proof.
  assert (post_init Tiny.set_repr Tiny.su_without_short = Ok (Tiny.su_without_short, [])) as H1
    by (vm_compute; reflexivity).
  assert (Tiny.attention Tiny.su_without_short = Raise (KeyError "short_factor")) as H2
    by (vm_compute; reflexivity).
  destruct (validated_config_key_errors Tiny.set_repr Z Tiny.uniform_init Tiny.float_pow
              Tiny.su_without_short _ _ _ H1 H2) as (d & ty & Hd & _ & Hk & _).
  exists d. split; [exact H1|]. split; [exact H2|]. split; assumption.
Defined.

Lemma linear_rope_scaling_witness :
  exists a dims,
    Tiny.attention Tiny.linear_scaling = Ok a
    /\ rope Z a = RoPE dims false 10000 0.5.
Proof.
  destruct (Tiny.attention Tiny.linear_scaling) as [a|e] eqn:Ha;
    [|vm_compute in Ha; discriminate Ha].
  assert (rope_scaling Tiny.linear_scaling ≫= (.!! "type"%string)
          = Some (PStr "linear")) as Hty by (vm_compute; reflexivity).
  destruct (linear_rope_scaling_needs_float_factor Z Tiny.uniform_init Tiny.float_pow
              Tiny.linear_scaling _ a eq_refl Hty Ha) as (f & dims & Hf & _ & Hr).
  vm_compute in Hf. injection Hf as <-.
  exists a, dims. split; [reflexivity|exact Hr].
Defined.

Lemma empty_rope_scaling_witness :
  post_init Tiny.set_repr Tiny.empty_scaling = Ok (resolve_kv_heads Tiny.empty_scaling, [])
  /\ exists a dims,
       Tiny.attention Tiny.empty_scaling = Ok a
       /\ rope Z a = RoPE dims false 10000 1.
Proof.
  destruct (empty_rope_scaling_is_ignored Tiny.set_repr Z Tiny.uniform_init Tiny.float_pow
              Tiny.empty_scaling eq_refl) as [Hp Ha].
  split; [exact Hp|].
  destruct (Tiny.attention Tiny.empty_scaling) as [a|e] eqn:H;
    [|vm_compute in H; discriminate H].
  destruct (Ha a H) as [dims Hr]. by exists a, dims.
Defined.

Lemma attention_zero_division_witness :
  Tiny.attention Tiny.small_hidden = Raise ZeroDivisionError
  /\ Tiny.phi4_init Tiny.small_hidden = Raise ZeroDivisionError.
Proof.
  destruct (attention_zero_division Z 1 Tiny.uniform_init Tiny.normal_init
              Tiny.float_pow Tiny.re_match unit Tiny.ext_init
              Tiny.small_hidden 1 eq_refl) as (Ha & _ & Hm).
  { right. change (0 <= 1 < 2). lia. }
  split; [exact Ha|]. apply Hm; [reflexivity..].
Defined.

Lemma construction_preconditions_witness :
  Tiny.init Tiny.no_vocab = Raise AssertionError
  /\ Tiny.init Tiny.no_embedding_cls = Raise (KeyError "embedding_cls").
Proof.
  split.
  - apply (proj1 (construction_preconditions Z 1 Tiny.uniform_init Tiny.normal_init
                    Tiny.float_pow Tiny.re_match unit Tiny.ext_init Tiny.no_vocab)).
    vm_compute. discriminate.
  - eapply (proj2 (construction_preconditions Z 1 Tiny.uniform_init Tiny.normal_init
                     Tiny.float_pow Tiny.re_match unit Tiny.ext_init
                     Tiny.no_embedding_cls)); [reflexivity|reflexivity|].
    vm_compute. reflexivity.
Defined.

Lemma constructed_model_shape_witness :
  Tiny.init Tiny.base_config = Ok (Tiny.built Tiny.base_config)
  /\ length (Model_layers Z unit (Tiny.built Tiny.base_config)) = 2%nat.
Proof.
  assert (Tiny.init Tiny.base_config = Ok (Tiny.built Tiny.base_config)) as Hinit
    by (vm_compute; reflexivity).
  split; [exact Hinit|].
  exact (proj1 (proj2 (proj2 (proj2
           (constructed_model_shape Z 1 Tiny.uniform_init Tiny.normal_init
              Tiny.float_pow Tiny.re_match unit Tiny.ext_init
              Tiny.base_config (Tiny.built Tiny.base_config) Hinit))))).
Defined.

Lemma construction_needs_complete_lora_config_witness :
  exists pv ps,
    Tiny.phi4_init Tiny.two_patterns = Ok (model Z unit (Tiny.built Tiny.two_patterns))
    /\ vision_lora Tiny.two_patterns ≫= (.!! "layer"%string) = Some (PStr pv)
    /\ speech_lora Tiny.two_patterns ≫= (.!! "layer"%string) = Some (PStr ps).
Proof.
  assert (Tiny.phi4_init Tiny.two_patterns
          = Ok (model Z unit (Tiny.built Tiny.two_patterns))) as Hinit
    by (vm_compute; reflexivity).
  destruct (construction_needs_complete_lora_config Z 1 Tiny.uniform_init
              Tiny.normal_init Tiny.float_pow Tiny.re_match unit Tiny.ext_init
              Tiny.two_patterns _ Hinit) as (v & s & Hv & Hs & _ & Hpat).
  destruct Hpat as (pv & ps & Hpv & Hps); [reflexivity|].
  exists pv, ps. split; [exact Hinit|]. rewrite Hv, Hs. by split.
Defined.

Lemma cache_list_bounds_the_blocks_run_witness :
  exists out,
    length (layers Z unit (model Z unit (Tiny.built Tiny.base_config))) = 2%nat
    /\ let o := Tiny.phi4_call (Tiny.built Tiny.base_config) [1; 2] (Some [9]) None
                  (Some [Tiny.empty_cache]) (Tiny.kwargs_of (ArgInt 0)) in
       out_value o = Ok out
       /\ omap Tiny.layer_of (out_log o) = [0%nat].
Proof.
  destruct (out_value (Tiny.phi4_call (Tiny.built Tiny.base_config) [1; 2] (Some [9])
                         None (Some [Tiny.empty_cache]) (Tiny.kwargs_of (ArgInt 0))))
    as [out|e] eqn:Hout; [|vm_compute in Hout; discriminate Hout].
  assert (length (layers Z unit (model Z unit (Tiny.built Tiny.base_config))) = 2%nat)
    as Hl by (vm_compute; reflexivity).
  exists out. split; [exact Hl|]. cbv zeta. rewrite Hout. split; [reflexivity|].
  pose proof (proj1 (cache_list_bounds_the_blocks_run Z Z.add Z.mul 0 Tiny.silu
                       Tiny.rms_norm Tiny.rope_rotate Tiny.attend Tiny.lora_delta unit
                       Tiny.InputMode_value (list Z) Tiny.ext_call
                       (model Z unit (Tiny.built Tiny.base_config)) [1; 2] (Some [9])
                       None (Some [Tiny.empty_cache]) (Tiny.kwargs_of (ArgInt 0)) out
                       Hout)) as Hlog.
  cbv beta iota in Hlog. rewrite Hl in Hlog. exact Hlog.
Defined.

Lemma logits_shape_witness :
  exists logits,
    out_value (Tiny.call (Tiny.built Tiny.base_config) [1; 2; 3] (Some [9]) None None
                 (Tiny.kwargs_of (ArgInt 0))) = Ok logits
    /\ length logits = 3%nat.
Proof.
  destruct (out_value (Tiny.call (Tiny.built Tiny.base_config) [1; 2; 3] (Some [9])
                         None None (Tiny.kwargs_of (ArgInt 0))))
    as [logits|e] eqn:Hout; [|vm_compute in Hout; discriminate Hout].
  exists logits. split; [reflexivity|].
  exact (proj1 (logits_shape Z Z.add Z.mul 0 Tiny.silu Tiny.rms_norm Tiny.rope_rotate
                  Tiny.attend Tiny.lora_delta unit Tiny.InputMode_value (list Z)
                  Tiny.ext_call (Tiny.built Tiny.base_config) [1; 2; 3] [9] None None
                  (Tiny.kwargs_of (ArgInt 0)) logits Hout)).
Defined.

Lemma logits_of_a_prefix_witness :
  exists logits,
    out_value (Tiny.call (Tiny.built Tiny.base_config) [1; 2; 3] (Some [9]) None None
                 (Tiny.kwargs_of (ArgInt 0))) = Ok logits
    /\ out_value (Tiny.call (Tiny.built Tiny.base_config) [1; 2] (Some [9]) None None
                    (Tiny.kwargs_of (ArgInt 0))) = Ok (take 2 logits).
Proof.
  destruct (out_value (Tiny.call (Tiny.built Tiny.base_config) [1; 2; 3] (Some [9])
                         None None (Tiny.kwargs_of (ArgInt 0))))
    as [logits|e] eqn:Hout; [|vm_compute in Hout; discriminate Hout].
  assert (rotary_by_position Z Tiny.rope_rotate unit
            (model Z unit (Tiny.built Tiny.base_config)) (length ([1; 2] ++ [3])))
    as Hrope by (apply plain_rope_by_position; vm_compute; reflexivity).
  exists logits. split; [reflexivity|].
  exact (logits_of_a_prefix Z Z.add Z.mul 0 Tiny.silu Tiny.rms_norm Tiny.rope_rotate
           Tiny.attend Tiny.lora_delta unit Tiny.InputMode_value (list Z)
           Tiny.ext_call (Tiny.built Tiny.base_config) [1; 2] [3] [9]
           (Tiny.kwargs_of (ArgInt 0)) logits Hrope Hout).
Defined.

Lemma layer_caches_advance_together_witness :
  exists cs',
    out_cache (Tiny.phi4_call (Tiny.built Tiny.base_config) [1; 2; 3] (Some [9]) None
                 (Some [Tiny.empty_cache; Tiny.empty_cache]) (Tiny.kwargs_of (ArgInt 0)))
    = Some cs'
    /\ length cs' = 2%nat
    /\ Forall (fun c => exists k, c = Some k /\ offset Z k = 3%nat) cs'.
Proof.
  destruct (out_value (Tiny.phi4_call (Tiny.built Tiny.base_config) [1; 2; 3] (Some [9])
                         None (Some [Tiny.empty_cache; Tiny.empty_cache])
                         (Tiny.kwargs_of (ArgInt 0))))
    as [out|e] eqn:Hout; [|vm_compute in Hout; discriminate Hout].
  assert (length [Tiny.empty_cache; Tiny.empty_cache]
          <= length (layers Z unit (model Z unit (Tiny.built Tiny.base_config))))%nat
    as Hl by (vm_compute; lia).
  assert (Forall (fun c => exists k, c = Some k /\ offset Z k = 0%nat)
            [Tiny.empty_cache; Tiny.empty_cache]) as Hall
    by (repeat constructor; by eexists).
  exact (layer_caches_advance_together Z Z.add Z.mul 0 Tiny.silu Tiny.rms_norm
           Tiny.rope_rotate Tiny.attend Tiny.lora_delta unit Tiny.InputMode_value
           (list Z) Tiny.ext_call (model Z unit (Tiny.built Tiny.base_config))
           [1; 2; 3] [9] None [Tiny.empty_cache; Tiny.empty_cache]
           (Tiny.kwargs_of (ArgInt 0)) out 0%nat Hall Hl Hout).
Defined.

Lemma sanitize_witness :
  Tiny.init Tiny.base_config = Ok (Tiny.built Tiny.base_config)
  /\ Tiny.sanitize (Tiny.built Tiny.base_config) ["model.embed_tokens.weight"%string]
     = Raise (AttributeError "image_embed").
Proof.
  assert (Tiny.init Tiny.base_config = Ok (Tiny.built Tiny.base_config)) as Hinit
    by (vm_compute; reflexivity).
  split; [exact Hinit|].
  exact (sanitize_needs_the_multimodal_embedding Z 1 Tiny.uniform_init Tiny.normal_init
           Tiny.float_pow Tiny.re_match unit Tiny.ext_init (list string)
           (fun _ w => Ok w) (fun _ w => Ok w)
           Tiny.base_config (Tiny.built Tiny.base_config)
           ["model.embed_tokens.weight"%string] eq_refl Hinit).
Defined.

Lemma prefill_then_decode_witness :
  exists logits,
    out_value (Tiny.call (Tiny.built Tiny.base_config) [1; 2; 3] (Some [9]) None None
                 (Tiny.kwargs_of (ArgInt 0))) = Ok logits
    /\ let o := Tiny.call (Tiny.built Tiny.base_config) [1; 2] (Some [9]) None
                  (Some (fresh_cache Z unit (model Z unit (Tiny.built Tiny.base_config))))
                  (Tiny.kwargs_of (ArgInt 0)) in
       out_value o = Ok (take 2 logits)
       /\ Tiny.decode (set_model Z unit (out_self o) (Tiny.built Tiny.base_config))
            (default [] (out_cache o)) [3] (Some [9]) (Tiny.kwargs_of (ArgInt 0))
          = map (fun row => Ok [row]) (drop 2 logits).
Proof.
  destruct (out_value (Tiny.call (Tiny.built Tiny.base_config) [1; 2; 3] (Some [9])
                         None None (Tiny.kwargs_of (ArgInt 0))))
    as [logits|e] eqn:Hout; [|vm_compute in Hout; discriminate Hout].
  assert (layers Z unit (model Z unit (Tiny.built Tiny.base_config)) ≠ []) as Hne.
  { intros E. apply (f_equal length) in E. vm_compute in E. discriminate E. }
  assert (rotary_by_position Z Tiny.rope_rotate unit
            (model Z unit (Tiny.built Tiny.base_config)) (length ([1; 2] ++ [3])))
    as Hrope by (apply plain_rope_by_position; vm_compute; reflexivity).
  exists logits. split; [reflexivity|].
  exact (prefill_then_decode Z Z.add Z.mul 0 Tiny.silu Tiny.rms_norm Tiny.rope_rotate
           Tiny.attend Tiny.lora_delta unit Tiny.InputMode_value (list Z)
           Tiny.ext_call (Tiny.built Tiny.base_config) [1; 2] [3] [9]
           (Tiny.kwargs_of (ArgInt 0)) logits Hne Hrope Hout).
Defined.

Lemma nan_partial_rotary_factor_witness :
  Tiny.attention Tiny.nan_factor
  = Raise (ValueError "cannot convert float NaN to integer").
Proof.
  destruct (nan_partial_rotary_factor Z Tiny.uniform_init Tiny.float_pow
              Tiny.nan_factor 1 eq_refl eq_refl) as (e & He & _ & Hnan).
  assert (float_of_int (hidden_size Tiny.nan_factor / num_attention_heads Tiny.nan_factor)
          = Ok 2%float) as Hx by (vm_compute; reflexivity).
  unfold Tiny.attention. rewrite He. f_equal. apply (Hnan 2%float); [discriminate..|].
  exact Hx.
Defined.

Lemma head_adds_no_failure_witness :
  Tiny.init Tiny.base_config = Ok (Tiny.built Tiny.base_config)
  /\ out_value (Tiny.call (Tiny.built Tiny.base_config) [1] (Some [9]) None None
                  (Tiny.kwargs_of (ArgInt 7)))
     = Raise (ValueError "not a valid InputMode").
Proof.
  assert (Tiny.init Tiny.base_config = Ok (Tiny.built Tiny.base_config)) as Hinit
    by (vm_compute; reflexivity).
  split; [exact Hinit|].
  apply (head_adds_no_failure Z Z.add Z.mul 0 1 Tiny.silu Tiny.rms_norm
           Tiny.rope_rotate Tiny.attend Tiny.uniform_init Tiny.normal_init
           Tiny.float_pow Tiny.re_match Tiny.lora_delta unit Tiny.ext_init
           Tiny.InputMode_value (list Z) Tiny.ext_call
           Tiny.base_config (Tiny.built Tiny.base_config) [1] (Some [9]) None None
           (Tiny.kwargs_of (ArgInt 7)) _ Hinit).
  reflexivity.
Defined.

Lemma caches_do_not_depend_on_chunking_witness :
  exists logits,
    out_value (Tiny.call (Tiny.built Tiny.base_config) [1; 2; 3] (Some [9]) None None
                 (Tiny.kwargs_of (ArgInt 0))) = Ok logits
    /\ let fresh := Some (fresh_cache Z unit (model Z unit (Tiny.built Tiny.base_config))) in
       let o1 := Tiny.call (Tiny.built Tiny.base_config) [1; 2] (Some [9]) None fresh
                   (Tiny.kwargs_of (ArgInt 0)) in
       let o2 := Tiny.call (set_model Z unit (out_self o1) (Tiny.built Tiny.base_config))
                   [3] (Some [9]) None (out_cache o1) (Tiny.kwargs_of (ArgInt 0)) in
       out_cache o2
       = out_cache (Tiny.call (Tiny.built Tiny.base_config) [1; 2; 3] (Some [9]) None
                      fresh (Tiny.kwargs_of (ArgInt 0)))
       /\ out_value o2 = Ok (drop 2 logits).
Proof.
  destruct (out_value (Tiny.call (Tiny.built Tiny.base_config) [1; 2; 3] (Some [9])
                         None None (Tiny.kwargs_of (ArgInt 0))))
    as [logits|e] eqn:Hout; [|vm_compute in Hout; discriminate Hout].
  assert (layers Z unit (model Z unit (Tiny.built Tiny.base_config)) ≠ []) as Hne.
  { intros E. apply (f_equal length) in E. vm_compute in E. discriminate E. }
  assert (rotary_by_position Z Tiny.rope_rotate unit
            (model Z unit (Tiny.built Tiny.base_config)) (S (length [1; 2])))
    as Hrope by (apply plain_rope_by_position; vm_compute; reflexivity).
  exists logits. split; [reflexivity|].
  exact (caches_do_not_depend_on_chunking Z Z.add Z.mul 0 Tiny.silu Tiny.rms_norm
           Tiny.rope_rotate Tiny.attend Tiny.lora_delta unit Tiny.InputMode_value
           (list Z) Tiny.ext_call (Tiny.built Tiny.base_config) [1; 2] 3 [9]
           (Tiny.kwargs_of (ArgInt 0)) logits Hne Hrope Hout).
Defined.
